(** * APS client (revit_family_maker/aps_client.py): token cache, work-item
      polling, output download and the module-level client singleton.

    The Python module is embedded as state-passing Rocq functions.  A
    coroutine becomes a function from a [world] (wall clock, number of HTTP
    requests issued so far, the client's [_token] attribute) to a result, the
    new world and the list of externally visible events it produced (HTTP
    exchanges, sleeps, back-off waits).  The network is an oracle: the n-th
    request of a run receives the reply [net n request].

    Idealisations: [time.time()] is an integer number of seconds (Python uses
    binary floating point); JSON numbers are integers; [print] calls, which
    do not influence control flow, are left out except where an f-string they
    evaluate can raise. *)

From Stdlib Require Import ZArith Lia.
From stdpp Require Import base decidable option list strings gmap.

Local Open Scope string_scope.
Local Open Scope Z_scope.
Local Open Scope list_scope.

(** ** JSON values, as produced by [response.json()] *)

#[warnings="-register-all"]
Inductive json : Type :=
  | JNull                                   (* None *)
  | JBool (b : bool)
  | JNum (n : Z)
  | JStr (s : string)
  | JArr (items : list json)
  | JObj (fields : list (string * json)).   (* dict, in insertion order *)

(** [key in d] and [d[key]] on the items of a dict. *)
Fixpoint dict_lookup {A : Type} (k : string) (d : list (string * A)) : option A :=
  match d with
  | [] => None
  | (k', v) :: rest => if String.eqb k k' then Some v else dict_lookup k rest
  end.

(** [d[key] = v]: replaces the value of an existing key in place, appends a
    new key at the end. *)
Fixpoint dict_set {A : Type} (k : string) (v : A) (d : list (string * A))
  : list (string * A) :=
  match d with
  | [] => [(k, v)]
  | (k', v') :: rest =>
      if String.eqb k k' then (k, v) :: rest else (k', v') :: dict_set k v rest
  end.

(** [x == "literal"] for a JSON value [x]: true for that very string only. *)
Definition json_is_str (x : json) (lit : string) : bool :=
  match x with
  | JStr s => String.eqb s lit
  | _ => false
  end.

(** The numeric value of [x] in [time.time() + x]; [bool] is a subclass of
    [int] in Python, every other type makes the addition raise. *)
Definition json_number (x : json) : option Z :=
  match x with
  | JNum n => Some n
  | JBool b => Some (if b then 1 else 0)
  | _ => None
  end.

(** ** Exceptions *)

Inductive message : Type :=
  | MsgWorkItemFailed (report : json)   (* f"WorkItem failed: {report}" *)
  | MsgCancelled                        (* "WorkItem was cancelled" *)
  | MsgTimeout (max_wait : Z).          (* f"WorkItem did not complete within {max_wait} seconds" *)

Inductive exn : Type :=
  | HTTPStatusError (status_code : Z)   (* httpx, from raise_for_status() *)
  | RequestError                        (* httpx, transport-level failure *)
  | JSONDecodeError                     (* response.json() on a body that is not JSON *)
  | KeyError (key : string)
  | TypeError
  | AttributeError
  | RuntimeError (msg : message)
  | TimeoutError (msg : message)
  | RetryError (last : exn).            (* tenacity, attempt cap reached *)

Inductive result (A : Type) : Type :=
  | Ok (a : A)
  | Raise (e : exn)
  | OutOfFuel.                          (* the model's loop budget ran out *)
Arguments Ok {A} a.
Arguments Raise {A} e.
Arguments OutOfFuel {A}.

(** ** The client object and the outside world *)

Record APSToken : Type := mkToken {
  access_token : json;
  expires_at : Z;
  token_type : json;
}.

Inductive request : Type :=
  | ReqToken (client_id client_secret : string)
      (* POST {base_url}/authentication/v2/token *)
  | ReqCreateWorkitem (token : APSToken) (activity_id : string) (arguments : json)
      (* POST {da_base}/workitems *)
  | ReqWorkitemStatus (token : APSToken) (workitem_id : json)
      (* GET {da_base}/workitems/{workitem_id} *)
  | ReqDownload (url : string).
      (* GET url *)

Record response : Type := mkResponse {
  status_code : Z;
  content : list Byte.byte;      (* response.content *)
  json_body : option json;       (* response.json(); None when it raises *)
}.

Inductive outcome : Type :=
  | Transport                    (* no response: connect error, timeout, ... *)
  | Response (resp : response).

Record reply : Type := mkReply {
  latency : N;                   (* seconds the round trip takes *)
  outcome_of : outcome;
}.

Definition network : Type := nat -> request -> reply.

Inductive event : Type :=
  | EvHttp (req : request) (rep : reply)
  | EvSleep (seconds : Z)        (* asyncio.sleep(poll_interval) *)
  | EvBackoff (seconds : Z).     (* tenacity waiting before the next attempt *)

Record APSClient : Type := mkClient {
  client_id : string;
  client_secret : string;
  region : string;
  _token : option APSToken;
}.

Record world : Type := mkWorld {
  clock : Z;                     (* time.time() *)
  calls : nat;                   (* HTTP requests issued so far *)
  self : APSClient;
}.

Definition set_token (tok : APSToken) (c : APSClient) : APSClient :=
  {| client_id := client_id c; client_secret := client_secret c;
     region := region c; _token := Some tok |}.

(** ** The effect monad: state, exceptions and an event log *)

Definition M (A : Type) : Type := world -> result A * world * list event.

Definition ret {A} (a : A) : M A := fun w => (Ok a, w, []).
Definition raise {A} (e : exn) : M A := fun w => (Raise e, w, []).

Definition bind {A B} (m : M A) (k : A -> M B) : M B :=
  fun w =>
    match m w with
    | (Ok a, w1, t1) =>
        match k a w1 with
        | (r, w2, t2) => (r, w2, t1 ++ t2)
        end
    | (Raise e, w1, t1) => (Raise e, w1, t1)
    | (OutOfFuel, w1, t1) => (OutOfFuel, w1, t1)
    end.

Notation "'let*' x ':=' m 'in' k" := (bind m (fun x => k))
  (at level 10, x name, m at level 100, k at level 200).
Notation "m ';;' k" := (bind m (fun _ => k))
  (at level 100, k at level 200, right associativity).

Definition lift_option {A} (e : exn) (o : option A) : M A :=
  match o with
  | Some a => ret a
  | None => raise e
  end.

(** [await asyncio.sleep(d)]: a non-positive delay returns at once. *)
Definition advance (d : Z) (w : world) : world :=
  {| clock := clock w + Z.max 0 d; calls := calls w; self := self w |}.

Definition sleep (d : Z) : M unit :=
  fun w => (Ok tt, advance d w, [EvSleep d]).

Definition backoff (d : Z) : M unit :=
  fun w => (Ok tt, advance d w, [EvBackoff d]).

(** One HTTP request through [httpx.AsyncClient]: the reply comes from the
    oracle, the clock moves by the round-trip time; a transport failure
    surfaces as [httpx.RequestError]. *)
Definition http (net : network) (req : request) : M response :=
  fun w =>
    let rep := net (calls w) req in
    let w' := {| clock := clock w + Z.of_N (latency rep);
                 calls := S (calls w); self := self w |} in
    (match outcome_of rep with
     | Transport => Raise RequestError
     | Response resp => Ok resp
     end, w', [EvHttp req rep]).

(** [Response.is_success] and [raise_for_status()]. *)
Definition is_success (code : Z) : bool := (200 <=? code) && (code <=? 299).

Definition raise_for_status (resp : response) : M unit :=
  if is_success (status_code resp) then ret tt
  else raise (HTTPStatusError (status_code resp)).

(** [response.json()] *)
Definition response_json (resp : response) : M json :=
  lift_option JSONDecodeError (json_body resp).

(** [x.get(key, default)]: only a dict has [get]. *)
Definition py_get (x : json) (key : string) (dflt : json) : M json :=
  match x with
  | JObj fields => ret (default dflt (dict_lookup key fields))
  | _ => raise AttributeError
  end.

(** [x[key]] with a string key: [KeyError] on a dict without the key,
    [TypeError] on every other JSON value. *)
Definition py_index (x : json) (key : string) : M json :=
  match x with
  | JObj fields => lift_option (KeyError key) (dict_lookup key fields)
  | _ => raise TypeError
  end.

(** [x.items()] *)
Definition py_items (x : json) : M (list (string * json)) :=
  match x with
  | JObj fields => ret fields
  | _ => raise AttributeError
  end.

Definition time : M Z := fun w => (Ok (clock w), w, []).
Definition get_self : M APSClient := fun w => (Ok (self w), w, []).
Definition store_token (tok : APSToken) : M unit :=
  fun w => (Ok tt, {| clock := clock w; calls := calls w;
                      self := set_token tok (self w) |}, []).

(** ** tenacity's [@retry] decorator

    [try_catch] is Python's try/except; [retrying] is tenacity's loop, from
    the library's documented behaviour: a call that returns ends the loop; an
    exception outside [retry_if] is re-raised as it is; an exception inside
    [retry_if] raises [RetryError] once [stop_after_attempt] attempts have
    been made, and otherwise the loop waits and calls the function again.
    [remaining] counts the attempts still allowed after the current one. *)

Definition try_catch {A} (m : M A) (handler : exn -> M A) : M A :=
  fun w =>
    match m w with
    | (Raise e, w1, t1) =>
        match handler e w1 with
        | (r, w2, t2) => (r, w2, t1 ++ t2)
        end
    | other => other
    end.

Fixpoint retrying {A} (retry_if : exn -> bool) (wait : nat -> Z)
    (remaining attempt_number : nat) (fn : M A) : M A :=
  try_catch fn (fun e =>
    if retry_if e then
      match remaining with
      | O => raise (RetryError e)
      | S remaining' =>
          backoff (wait attempt_number) ;;
          retrying retry_if wait remaining' (S attempt_number) fn
      end
    else raise e).

Definition retry {A} (retry_if : exn -> bool) (stop_after_attempt : nat)
    (wait : nat -> Z) (fn : M A) : M A :=
  retrying retry_if wait (Nat.pred stop_after_attempt) 1 fn.

(** [wait_exponential(multiplier, min, max)]:
    [max(max(0, min), min(multiplier * 2 ** (attempt_number - 1), max))]. *)
Definition wait_exponential (multiplier min max : Z) (attempt_number : nat) : Z :=
  Z.max (Z.max 0 min)
        (Z.min (multiplier * 2 ^ (Z.of_nat attempt_number - 1)) max).

(** [retry_if_exception_type((httpx.HTTPStatusError, httpx.RequestError))] *)
Definition retry_if_status_or_request (e : exn) : bool :=
  match e with
  | HTTPStatusError _ | RequestError => true
  | _ => false
  end.

(** [retry_if_exception_type(httpx.RequestError)] *)
Definition retry_if_request (e : exn) : bool :=
  match e with
  | RequestError => true
  | _ => false
  end.

(** ** APSToken.is_expired *)

Definition is_expired (tok : APSToken) (now : Z) : bool :=
  now >=? expires_at tok - 300.

(** ** APSClient.authenticate *)

(** Lines 66-77: what happens once the response of the POST is there. *)
Definition finish_exchange (response : response) : M APSToken :=
  raise_for_status response ;;
  let* result := response_json response in
  let* now := time in
  let* expires_in := py_get result "expires_in" (JNum 3600) in
  let* seconds := lift_option TypeError (json_number expires_in) in
  let* access := py_index result "access_token" in
  let* kind := py_get result "token_type" (JStr "Bearer") in
  let tok := {| access_token := access; expires_at := now + seconds;
                token_type := kind |} in
  store_token tok ;;
  ret tok.

(** Lines 55-77: the credential exchange. *)
Definition exchange (net : network) : M APSToken :=
  let* c := get_self in
  let* response := http net (ReqToken (client_id c) (client_secret c)) in
  finish_exchange response.

(** The function body, before decoration. *)
Definition authenticate_body (net : network) : M APSToken :=
  let* c := get_self in
  let* now := time in
  match _token c with
  | Some tok => if negb (is_expired tok now) then ret tok else exchange net
  | None => exchange net
  end.

Definition authenticate (net : network) : M APSToken :=
  retry retry_if_status_or_request 3 (wait_exponential 1 2 10)
        (authenticate_body net).

(** ** APSClient.create_workitem (not decorated) *)

Definition create_workitem (net : network) (activity_id : string)
    (arguments : json) : M json :=
  let* token := authenticate net in
  let* response := http net (ReqCreateWorkitem token activity_id arguments) in
  raise_for_status response ;;
  let* result := response_json response in
  py_index result "id" ;;      (* the f-string of the print on line 122 *)
  ret result.

(** ** APSClient.get_workitem_status *)

Definition get_workitem_status_body (net : network) (workitem_id : json) : M json :=
  let* token := authenticate net in
  let* response := http net (ReqWorkitemStatus token workitem_id) in
  raise_for_status response ;;
  response_json response.

Definition get_workitem_status (net : network) (workitem_id : json) : M json :=
  retry retry_if_request 3 (wait_exponential 1 1 5)
        (get_workitem_status_body net workitem_id).

(** ** APSClient.poll_workitem

    The [while] loop, with [query] standing for
    [self.get_workitem_status(workitem_id)].  [fuel] bounds the number of
    iterations the model follows. *)

Fixpoint poll_loop (query : M json) (fuel : nat) (start_time max_wait
    poll_interval : Z) : M json :=
  let* now := time in
  if now - start_time <? max_wait then
    match fuel with
    | O => fun w => (OutOfFuel, w, [])
    | S fuel' =>
        let* status := query in
        let* current_status := py_get status "status" JNull in
        if json_is_str current_status "success" then ret status
        else if json_is_str current_status "failedInstructions" then
          let* report := py_get status "reportUrl" (JStr "No report") in
          raise (RuntimeError (MsgWorkItemFailed report))
        else if json_is_str current_status "cancelled" then
          raise (RuntimeError MsgCancelled)
        else
          sleep poll_interval ;;
          poll_loop query fuel' start_time max_wait poll_interval
    end
  else raise (TimeoutError (MsgTimeout max_wait)).

Definition poll_workitem (net : network) (fuel : nat) (workitem_id : json)
    (max_wait poll_interval : Z) : M json :=
  let* start_time := time in
  poll_loop (get_workitem_status net workitem_id) fuel start_time max_wait
            poll_interval.

(** ** APSClient.download_file

    httpx accepts a [str] as the URL (or its own URL type, which JSON never
    yields) and raises [TypeError] for any other value before anything is
    sent. *)

Definition download_file (net : network) (url : json) : M (list Byte.byte) :=
  match url with
  | JStr address =>
      let* response := http net (ReqDownload address) in
      raise_for_status response ;;
      ret (content response)
  | _ => raise TypeError
  end.

(** ** APSClient.create_workitem_and_wait *)

(** [isinstance(output_info, dict) and "url" in output_info], giving
    [output_info["url"]] when it holds. *)
Definition output_url (output_info : json) : option json :=
  match output_info with
  | JObj fields => dict_lookup "url" fields
  | _ => None
  end.

(** The [for] loop of lines 290-295. *)
Fixpoint download_outputs (net : network) (items : list (string * json))
    (outputs : list (string * list Byte.byte))
  : M (list (string * list Byte.byte)) :=
  match items with
  | [] => ret outputs
  | (output_name, output_info) :: rest =>
      match output_url output_info with
      | Some url =>
          let* content := download_file net url in
          download_outputs net rest (dict_set output_name content outputs)
      | None => download_outputs net rest outputs
      end
  end.

(** Lines 289-297: everything after the poll. *)
Definition fetch_outputs (net : network) (final_status : json)
  : M (json * list (string * list Byte.byte)) :=
  let* arguments := py_get final_status "arguments" (JObj []) in
  let* items := py_items arguments in
  let* outputs := download_outputs net items [] in
  ret (final_status, outputs).

Definition create_workitem_and_wait (net : network) (fuel : nat)
    (activity_id : string) (arguments : json) (max_wait : Z)
  : M (json * list (string * list Byte.byte)) :=
  let* workitem := create_workitem net activity_id arguments in
  let* workitem_id := py_index workitem "id" in
  let* final_status := poll_workitem net fuel workitem_id max_wait 5 in
  fetch_outputs net final_status.

(** ** The module-level singleton

    Client objects live in a heap and are named by their address, so that
    "the same instance" is equality of addresses; the global [_aps_client]
    holds an address or [None]. *)

Record module_state : Type := mkModule {
  heap : gmap nat APSClient;
  _aps_client : option nat;
}.

(** [APSClient(client_id, client_secret, region)]: a new object at an unused
    address, with an empty token cache. *)
Definition new_client (id secret reg : string) (h : gmap nat APSClient)
  : nat * gmap nat APSClient :=
  let addr := fresh (dom h) in
  (addr, <[addr := {| client_id := id; client_secret := secret;
                      region := reg; _token := None |}]> h).

(** The object the global refers to. *)
Definition current_client (st : module_state) : option APSClient :=
  match _aps_client st with
  | Some addr => heap st !! addr
  | None => None
  end.

(** [get_aps_client]: returns the address of the singleton. *)
Definition get_aps_client (id secret reg : string) (st : module_state)
  : nat * module_state :=
  let create :=
    let '(addr, h) := new_client id secret reg (heap st) in
    (addr, {| heap := h; _aps_client := Some addr |}) in
  match _aps_client st, current_client st with
  | Some addr, Some c =>
      if negb (String.eqb (client_id c) id) then create else (addr, st)
  | _, _ => create
  end.

(** ** Concurrent callers of [authenticate] on one event loop

    asyncio runs a coroutine without interruption up to its next suspension
    point.  The decorated [authenticate] has two: the [await client.post],
    and tenacity's sleep between attempts.  A caller is therefore in one of
    four states, and one scheduling step runs a caller from its state to its
    next suspension point on the shared client object.  [remaining] and
    [attempt_number] are the counters of [retrying]. *)

Inductive task : Type :=
  | Start (remaining attempt_number : nat)
      (* about to run the function body *)
  | Awaiting (remaining attempt_number : nat) (call : nat) (ready_at : Z)
      (* suspended in the POST, which is request number [call] *)
  | Sleeping (remaining attempt_number : nat) (ready_at : Z)
      (* suspended in tenacity's wait *)
  | Finished (r : result APSToken).

(** A suspended caller resumes no earlier than the time it waits for. *)
Definition resume_at (t : Z) (w : world) : world :=
  {| clock := Z.max (clock w) t; calls := calls w; self := self w |}.

(** Lines 52-65 up to the suspension: the cache test, then the request. *)
Definition run_start (net : network) (remaining attempt_number : nat)
    (w : world) : task * world :=
  let send :=
    let rep := net (calls w) (ReqToken (client_id (self w)) (client_secret (self w))) in
    (Awaiting remaining attempt_number (calls w)
              (clock w + Z.of_N (latency rep)),
     {| clock := clock w; calls := S (calls w); self := self w |}) in
  match _token (self w) with
  | Some tok =>
      if negb (is_expired tok (clock w)) then (Finished (Ok tok), w) else send
  | None => send
  end.

(** Lines 65-77 from the suspension on, then tenacity's decision. *)
Definition run_reply (net : network) (remaining attempt_number call : nat)
    (ready_at : Z) (w : world) : task * world :=
  let w1 := resume_at ready_at w in
  let rep := net call (ReqToken (client_id (self w1)) (client_secret (self w1))) in
  let '(r, w2, _) :=
    match outcome_of rep with
    | Transport => (Raise RequestError, w1, [])
    | Response resp => finish_exchange resp w1
    end in
  match r with
  | Raise e =>
      if retry_if_status_or_request e then
        match remaining with
        | O => (Finished (Raise (RetryError e)), w2)
        | S remaining' =>
            (Sleeping remaining' (S attempt_number)
               (clock w2 + Z.max 0 (wait_exponential 1 2 10 attempt_number)), w2)
        end
      else (Finished (Raise e), w2)
  | _ => (Finished r, w2)
  end.

Definition run_task (net : network) (t : task) (w : world) : task * world :=
  match t with
  | Start remaining n => run_start net remaining n w
  | Awaiting remaining n call ready_at => run_reply net remaining n call ready_at w
  | Sleeping remaining n ready_at => (Start remaining n, resume_at ready_at w)
  | Finished r => (Finished r, w)
  end.

Record loop_state : Type := mkLoop {
  shared : world;
  tasks : list task;
}.

(** The event loop resumes caller [i]. *)
Definition step (net : network) (s : loop_state) (i : nat) : loop_state :=
  match tasks s !! i with
  | Some t =>
      let '(t', w') := run_task net t (shared s) in
      {| shared := w'; tasks := <[i := t']> (tasks s) |}
  | None => s
  end.

Definition run_schedule (net : network) (schedule : list nat) (s : loop_state)
  : loop_state :=
  foldl (step net) s schedule.

(** [n] callers that have just called [authenticate()]. *)
Definition callers (n : nat) (w : world) : loop_state :=
  {| shared := w; tasks := replicate n (Start 2 1) |}.

(** * Vocabulary of the statements *)

(** The request [authenticate] sends for client [c]. *)
Definition token_request (c : APSClient) : request :=
  ReqToken (client_id c) (client_secret c).

(** The world once reply [rep] to a request issued in [w] has arrived. *)
Definition after_http (rep : reply) (w : world) : world :=
  {| clock := clock w + Z.of_N (latency rep); calls := S (calls w);
     self := self w |}.

Definition with_token (tok : APSToken) (w : world) : world :=
  {| clock := clock w; calls := calls w; self := set_token tok (self w) |}.

(** The cache holds a token that [authenticate] would hand out in [w]. *)
Definition cache_valid (w : world) : bool :=
  match _token (self w) with
  | Some tok => negb (is_expired tok (clock w))
  | None => false
  end.

(** The reply carries an HTTP response outside 200..299. *)
Definition non_2xx (rep : reply) : bool :=
  match outcome_of rep with
  | Response resp => negb (is_success (status_code resp))
  | Transport => false
  end.

(** The reply is a transport failure or a response outside 200..299. *)
Definition failed_reply (rep : reply) : bool :=
  match outcome_of rep with
  | Response resp => negb (is_success (status_code resp))
  | Transport => true
  end.

(** The value [time.time() + result.get("expires_in", 3600)] adds, when the
    addition is defined. *)
Definition lifetime (fields : list (string * json)) : option Z :=
  match dict_lookup "expires_in" fields with
  | None => Some 3600
  | Some v => json_number v
  end.

(** A 2xx token response whose body cannot be turned into a token: not JSON,
    not an object, no "access_token", or an "expires_in" that is not a
    number. *)
Definition malformed_token_reply (rep : reply) : bool :=
  match outcome_of rep with
  | Response resp =>
      is_success (status_code resp) &&
      match json_body resp with
      | Some (JObj fields) =>
          match dict_lookup "access_token" fields, lifetime fields with
          | Some _, Some _ => false
          | _, _ => true
          end
      | _ => true
      end
  | Transport => false
  end.

(** The errors a malformed token body raises. *)
Definition decoding_error (e : exn) : bool :=
  match e with
  | JSONDecodeError | AttributeError | TypeError => true
  | KeyError k => String.eqb k "access_token"
  | _ => false
  end.

(** The body fields of a 2xx reply carrying a JSON object. *)
Definition reply_fields (rep : reply) : option (list (string * json)) :=
  match outcome_of rep with
  | Response resp =>
      if is_success (status_code resp) then
        match json_body resp with
        | Some (JObj fields) => Some fields
        | _ => None
        end
      else None
  | Transport => None
  end.

(** Time passing between two calls, with nothing observable happening. *)
Definition elapse (d : Z) : M unit := fun w => (Ok tt, advance d w, []).

(** A series of [authenticate] calls, the i-th issued [gaps !! i] seconds
    after the previous one returned. *)
Fixpoint later_calls (net : network) (gaps : list Z) : M (list APSToken) :=
  match gaps with
  | [] => ret []
  | d :: rest =>
      elapse d ;;
      let* tok := authenticate net in
      let* toks := later_calls net rest in
      ret (tok :: toks)
  end.

Definition total_gap (gaps : list Z) : Z :=
  foldr (fun d acc => Z.max 0 d + acc) 0 gaps.

(** The exception a failed reply turns into. *)
Definition reply_error (rep : reply) : exn :=
  match outcome_of rep with
  | Transport => RequestError
  | Response resp => HTTPStatusError (status_code resp)
  end.

(** * Concrete scenarios *)

Definition json_reply (seconds : N) (code : Z) (body : json) : reply :=
  {| latency := seconds;
     outcome_of := Response {| status_code := code; content := [];
                               json_body := Some body |} |}.

Definition dropped (seconds : N) : reply :=
  {| latency := seconds; outcome_of := Transport |}.

Definition client0 : APSClient :=
  {| client_id := "my-client"; client_secret := "my-secret";
     region := "us-east"; _token := None |}.

(** A fresh client at time 1000. *)
Definition world0 : world := {| clock := 1000; calls := 0; self := client0 |}.

Definition token_fields : list (string * json) :=
  [("access_token", JStr "abc"); ("token_type", JStr "Bearer");
   ("expires_in", JNum 3599)].

(** Every token request is granted after one second. *)
Definition net_granting : network :=
  fun _ _ => json_reply 1 200 (JObj token_fields).

(** The first token request is answered 500, the following ones are granted. *)
Definition net_500_then_granting : network :=
  fun n _ =>
    match n with
    | O => json_reply 1 500 (JObj [("developerMessage", JStr "try later")])
    | _ => json_reply 1 200 (JObj token_fields)
    end.




(** Every request is answered 401. *)
Definition net_401 : network :=
  fun _ _ => json_reply 1 401 (JObj [("developerMessage", JStr "bad credentials")]).

(** * Vocabulary for polling *)

(** The status document an event delivered: the event is a status query
    answered 2xx with a JSON body. *)
Definition status_report (e : event) : option json :=
  match e with
  | EvHttp (ReqWorkitemStatus _ _) rep =>
      match outcome_of rep with
      | Response resp =>
          if is_success (status_code resp) then json_body resp else None
      | Transport => None
      end
  | _ => None
  end.

(** [status.get(key, dflt)] on a status document that is a dict. *)
Definition field (key : string) (dflt : json) (status : json) : json :=
  match status with
  | JObj fields => default dflt (dict_lookup key fields)
  | _ => dflt
  end.

Definition is_dict (x : json) : bool :=
  match x with
  | JObj _ => true
  | _ => false
  end.

(** No event of the trace is an answered status query. *)
Definition silent (tr : list event) : Prop :=
  Forall (fun e => status_report e = None) tr.

(** The trace of one status query: an answered query comes last and its
    document is the result; a failed query leaves no answered query. *)
Definition query_trace (r : result json) (tr : list event) : Prop :=
  match r with
  | Ok status =>
      exists pre e, tr = pre ++ [e] /\ silent pre /\ status_report e = Some status
  | _ => silent tr
  end.

(** How one loop iteration of [poll_workitem] ends on a status document, if
    it ends the loop at all. *)
Definition verdict (status : json) : option (result json) :=
  match status with
  | JObj fields =>
      let current_status := default JNull (dict_lookup "status" fields) in
      if json_is_str current_status "success" then Some (Ok status)
      else if json_is_str current_status "failedInstructions" then
        Some (Raise (RuntimeError (MsgWorkItemFailed
                (default (JStr "No report") (dict_lookup "reportUrl" fields)))))
      else if json_is_str current_status "cancelled" then
        Some (Raise (RuntimeError MsgCancelled))
      else None
  | _ => Some (Raise AttributeError)
  end.

(** A work-item status document. *)
Definition status_doc (label : string) : json :=
  JObj [("id", JStr "job-1"); ("status", JStr label);
        ("reportUrl", JStr "https://x/report")].

Definition token0 : APSToken :=
  {| access_token := JStr "abc"; expires_at := 100000; token_type := JStr "Bearer" |}.

(** A client at time 1000 whose cached token is good until time 99700. *)
Definition world_tok : world :=
  {| clock := 1000; calls := 0; self := set_token token0 client0 |}.

(** Every status query is answered, after [seconds], with status [label]. *)
Definition net_status (seconds : N) (label : string) : network :=
  fun _ _ => json_reply seconds 200 (status_doc label).

(** The second status query reports "success", the others "inprogress". *)
Definition net_success_second : network :=
  fun n _ =>
    match n with
    | 1%nat => json_reply 1 200 (status_doc "success")
    | _ => json_reply 1 200 (status_doc "inprogress")
    end.

(** The reply arrives within [rtt] seconds and is a 2xx status document
    whose "status" is "inprogress". *)
Definition answers_inprogress (rtt : Z) (rep : reply) : Prop :=
  Z.of_N (latency rep) <= rtt /\
  exists resp fields,
    outcome_of rep = Response resp /\
    is_success (status_code resp) = true /\
    json_body resp = Some (JObj fields) /\
    dict_lookup "status" fields = Some (JStr "inprogress").

(** The event of the [n]-th request of a run being a status query for
    "job-1" made with [token0]. *)
Definition status_event (net : network) (n : nat) : event :=
  EvHttp (ReqWorkitemStatus token0 (JStr "job-1"))
         (net n (ReqWorkitemStatus token0 (JStr "job-1"))).

(** The reply is a transport failure: no HTTP response at all. *)
Definition transport_failure (rep : reply) : bool :=
  match outcome_of rep with
  | Transport => true
  | Response _ => false
  end.


(** * Vocabulary for the download step *)

(** The (name, url) pairs of the entries that carry a string "url", in
    order. *)
Definition wanted (items : list (string * json)) : list (string * string) :=
  omap (fun item =>
          match output_url item.2 with
          | Some (JStr address) => Some (item.1, address)
          | _ => None
          end) items.

(** Wherever an entry carries a "url", it is a string. *)
Definition locations_are_strings (items : list (string * json)) : Prop :=
  Forall (fun item =>
            match output_url item.2 with
            | Some url => exists address, url = JStr address
            | None => True
            end) items.

(** The request of an event, if it is an HTTP exchange. *)
Definition request_of (e : event) : option request :=
  match e with
  | EvHttp req _ => Some req
  | _ => None
  end.

(** Every download is answered 2xx. *)
Definition downloads_succeed (net : network) : Prop :=
  forall n url, exists resp,
    outcome_of (net n (ReqDownload url)) = Response resp /\
    is_success (status_code resp) = true.

(** A successful final status with two outputs, of which only the first has
    been given a download location. *)
Definition status_one_location : json :=
  JObj [("id", JStr "job-1"); ("status", JStr "success");
        ("arguments",
         JObj [("outputFamily", JObj [("verb", JStr "put");
                                      ("url", JStr "https://x/family.rfa")]);
               ("outputManifest", JObj [("verb", JStr "put")])])].

Definition file_reply (data : list Byte.byte) : reply :=
  {| latency := 2;
     outcome_of := Response {| status_code := 200; content := data;
                               json_body := None |} |}.

(** A service that grants tokens, accepts the submission as "job-1", reports
    [status_one_location] at the first status query and serves three bytes
    for every download. *)
Definition net_one_location : network :=
  fun _ req =>
    match req with
    | ReqToken _ _ => json_reply 1 200 (JObj token_fields)
    | ReqCreateWorkitem _ _ _ => json_reply 1 200 (status_doc "pending")
    | ReqWorkitemStatus _ _ => json_reply 1 200 status_one_location
    | ReqDownload _ => file_reply [Byte.x52; Byte.x46; Byte.x41]
    end.

(** The arguments the caller in tools.py submits: two inputs, two outputs. *)
Definition submitted_arguments : json :=
  JObj [("templateFile", JObj [("url", JStr "https://x/t.rft"); ("verb", JStr "get")]);
        ("parametersFile", JObj [("url", JStr "data:application/json,{}"); ("verb", JStr "get")]);
        ("outputFamily", JObj [("verb", JStr "put"); ("url", JNull)]);
        ("outputManifest", JObj [("verb", JStr "put"); ("url", JNull)])].

(** * Vocabulary for the singleton *)

(** A call with [id] in state [st] has to construct a client: there is no
    instance yet, or the instance has another client id. *)
Definition must_create (id : string) (st : module_state) : Prop :=
  match current_client st with
  | None => True
  | Some c => client_id c <> id
  end.

(** A module in which no client was requested yet. *)
Definition module0 : module_state := {| heap := ∅; _aps_client := None |}.

(** * Vocabulary for concurrent callers *)

(** The state of the [k]-th of several callers once it has sent its token
    request as request number [calls w + k]. *)
Definition in_flight (net : network) (w : world) (k : nat) : task :=
  Awaiting 2 1 (calls w + k)
    (clock w + Z.of_N (latency (net (calls w + k)%nat (token_request (self w))))).

Definition with_calls (n : nat) (w : world) : world :=
  {| clock := clock w; calls := n; self := self w |}.

(** * Vocabulary for further properties of the client *)

(** Kinds of events. *)
Definition is_token_request (c : APSClient) (e : event) : bool :=
  match e with
  | EvHttp (ReqToken id secret) _ =>
      String.eqb id (client_id c) && String.eqb secret (client_secret c)
  | _ => false
  end.

Definition is_submission (e : event) : bool :=
  match e with
  | EvHttp (ReqCreateWorkitem _ _ _) _ => true
  | _ => false
  end.

Definition is_status_query (e : event) : bool :=
  match e with
  | EvHttp (ReqWorkitemStatus _ _) _ => true
  | _ => false
  end.

Definition is_download (e : event) : bool :=
  match e with
  | EvHttp (ReqDownload _) _ => true
  | _ => false
  end.

Definition is_backoff (e : event) : bool :=
  match e with
  | EvBackoff _ => true
  | _ => false
  end.

(** The client's identity: everything but the token cache. *)
Definition same_identity (c c' : APSClient) : Prop :=
  client_id c' = client_id c /\ client_secret c' = client_secret c /\
  region c' = region c.

(** Events of authentication: a token request of client [c], or a wait of
    two seconds between attempts. *)
Definition auth_event (c : APSClient) (e : event) : Prop :=
  e = EvBackoff 2 \/ exists rep, e = EvHttp (token_request c) rep.

(** A reply that grants a token: 2xx, a JSON object with "access_token" and
    a usable lifetime. *)
Definition grants (rep : reply) (access : json) (seconds : Z) : Prop :=
  exists fields,
    reply_fields rep = Some fields /\
    dict_lookup "access_token" fields = Some access /\
    lifetime fields = Some seconds.

(** A service that accepts "job-1", then reports it cancelled. *)
Definition net_cancelled : network := net_status 1 "cancelled".


(** The first status request gets no response, the second is answered
    "inprogress". *)
Definition net_drop_then_status : network :=
  fun n _ =>
    match n with
    | O => dropped 1
    | _ => json_reply 1 200 (status_doc "inprogress")
    end.

(** Errors other than [RuntimeError] and [TimeoutError]: what the network
    calls and the decoding of their answers can raise. *)
Definition call_error (e : exn) : bool :=
  match e with
  | RuntimeError _ | TimeoutError _ => false
  | _ => true
  end.

(** What a status document's "status" must not be for the wait to go on. *)
Definition terminal_label (current_status : json) : bool :=
  json_is_str current_status "success" ||
  json_is_str current_status "failedInstructions" ||
  json_is_str current_status "cancelled".

(** The events a wait may produce: token and status requests, tenacity's
    waits, and sleeps of exactly the poll interval. *)
Definition polling_event (poll_interval : Z) (e : event) : Prop :=
  match e with
  | EvHttp (ReqToken _ _) _ => True
  | EvHttp (ReqWorkitemStatus _ _) _ => True
  | EvHttp _ _ => False
  | EvBackoff _ => True
  | EvSleep d => d = poll_interval
  end.

(** A status the service really uses and the code does not know. *)
Definition net_failed_download : network := net_status 1 "failedDownload".

(** The submission is accepted, but the answer names no work item. *)
Definition net_accepts_without_id : network :=
  fun _ _ => json_reply 1 200 (JObj [("status", JStr "pending")]).

(** A service on which the only download fails with 403. *)
Definition net_download_denied : network :=
  fun _ req =>
    match req with
    | ReqDownload _ => json_reply 1 403 (JObj [])
    | _ => net_one_location 0%nat req
    end.

(** * tools.py: [execute_aps_workitem]

    The function works on the whole process: the wall clock, the request
    counter and the module state of aps_client.py, in which the singleton
    and the client objects live.  A method of the client at address [addr]
    runs on that object and writes its state back. *)

Record process : Type := mkProcess {
  p_clock : Z;
  p_calls : nat;
  p_module : module_state;
}.

(** Exceptions at the level of tools.py. *)
Inductive tool_exn : Type :=
  | ClientError (e : exn)          (* raised inside aps_client.py, unchanged *)
  | MissingOutputFiles             (* RuntimeError("Missing output files from WorkItem") *)
  | ToolRetryError (last : tool_exn).   (* tenacity, attempt cap reached *)

Inductive tool_result (A : Type) : Type :=
  | Done (a : A)
  | Failed (e : tool_exn)
  | Exhausted.                     (* the model's loop budget ran out *)
Arguments Done {A} a.
Arguments Failed {A} e.
Arguments Exhausted {A}.

Definition TM (A : Type) : Type :=
  process -> tool_result A * process * list event.

Definition from_client {A} (r : result A) : tool_result A :=
  match r with
  | Ok a => Done a
  | Raise e => Failed (ClientError e)
  | OutOfFuel => Exhausted
  end.

(** [await client.method(...)] for the client object at [addr].  The
    address comes from [get_aps_client], which only returns addresses of
    objects it has constructed; the last case is therefore never taken. *)
Definition on_client {A} (addr : nat) (m : M A) : TM A :=
  fun p =>
    match heap (p_module p) !! addr with
    | Some c =>
        let '(r, w, tr) := m {| clock := p_clock p; calls := p_calls p; self := c |} in
        (from_client r,
         {| p_clock := clock w; p_calls := calls w;
            p_module := {| heap := <[addr := self w]> (heap (p_module p));
                           _aps_client := _aps_client (p_module p) |} |},
         tr)
    | None => (Exhausted, p, [])
    end.

(** The dict the function returns. *)
Record workitem_result : Type := mkWorkitemResult {
  wr_status : string;
  rfa_content : list Byte.byte;
  manifest_content : list Byte.byte;
  job_id : json;
  duration_sec : Z;
  report_url : json;
}.

(** [not x] for [x = outputs.get(name)]: true for [None] and for [b""]. *)
Definition falsy (x : option (list Byte.byte)) : bool :=
  match x with
  | None | Some [] => true
  | Some (_ :: _) => false
  end.

(** The [arguments] dict of lines 161-178; [dumps] is [json.dumps]. *)
Definition workitem_arguments (dumps : json -> string) (template_url : string)
    (parameters : json) : json :=
  JObj [("templateFile", JObj [("url", JStr template_url); ("verb", JStr "get")]);
        ("parametersFile",
         JObj [("url", JStr ("data:application/json," ++ dumps parameters)%string);
               ("verb", JStr "get")]);
        ("outputFamily", JObj [("verb", JStr "put"); ("url", JNull)]);
        ("outputManifest", JObj [("verb", JStr "put"); ("url", JNull)])].

(** The function body, before decoration. *)
Definition execute_aps_workitem_body (dumps : json -> string) (net : network)
    (fuel : nat) (client_id client_secret template_url : string)
    (parameters : json) (activity_id : string) (max_wait : Z)
  : TM workitem_result :=
  fun p =>
    let start_time := p_clock p in
    let '(client, module') :=
      get_aps_client client_id client_secret "us-east" (p_module p) in
    let arguments := workitem_arguments dumps template_url parameters in
    match on_client client
            (create_workitem_and_wait net fuel activity_id arguments max_wait)
            {| p_clock := p_clock p; p_calls := p_calls p; p_module := module' |}
    with
    | (Done (final_status, outputs), p1, tr) =>
        let duration := p_clock p1 - start_time in
        let rfa := dict_lookup "outputFamily" outputs in
        let manifest := dict_lookup "outputManifest" outputs in
        if falsy rfa || falsy manifest then (Failed MissingOutputFiles, p1, tr)
        else
          match final_status with
          | JObj fields =>
              match dict_lookup "id" fields with
              | Some id =>
                  (Done {| wr_status := "success";
                           rfa_content := default [] rfa;
                           manifest_content := default [] manifest;
                           job_id := id;
                           duration_sec := duration;
                           report_url := default JNull (dict_lookup "reportUrl" fields) |},
                   p1, tr)
              | None => (Failed (ClientError (KeyError "id")), p1, tr)
              end
          | _ => (Failed (ClientError TypeError), p1, tr)
          end
    | (Failed e, p1, tr) => (Failed e, p1, tr)
    | (Exhausted, p1, tr) => (Exhausted, p1, tr)
    end.

(** tenacity's wait, on the process clock. *)
Definition tool_wait (d : Z) (p : process) : process :=
  {| p_clock := p_clock p + Z.max 0 d; p_calls := p_calls p;
     p_module := p_module p |}.

(** [@retry(stop=stop_after_attempt(3), wait=wait_exponential(...))] without
    a [retry=] argument: tenacity then retries on every exception. *)
Fixpoint tool_retrying {A} (wait : nat -> Z) (remaining attempt_number : nat)
    (fn : TM A) : TM A :=
  fun p =>
    match fn p with
    | (Failed e, p1, t1) =>
        match remaining with
        | O => (Failed (ToolRetryError e), p1, t1)
        | S remaining' =>
            let '(r, p2, t2) :=
              tool_retrying wait remaining' (S attempt_number) fn
                (tool_wait (wait attempt_number) p1) in
            (r, p2, t1 ++ EvBackoff (wait attempt_number) :: t2)
        end
    | other => other
    end.

Definition execute_aps_workitem (dumps : json -> string) (net : network)
    (fuel : nat) (client_id client_secret template_url : string)
    (parameters : json) (activity_id : string) (max_wait : Z)
  : TM workitem_result :=
  tool_retrying (wait_exponential 1 2 10) 2 1
    (execute_aps_workitem_body dumps net fuel client_id client_secret
       template_url parameters activity_id max_wait).

(** ** Vocabulary *)

(** Every token request is granted and every submission is accepted with a
    JSON object that names the work item. *)
Definition healthy_intake (net : network) : Prop :=
  (forall n id secret, exists access seconds,
     grants (net n (ReqToken id secret)) access seconds) /\
  (forall n tok activity_id arguments, exists fields id,
     reply_fields (net n (ReqCreateWorkitem tok activity_id arguments)) = Some fields /\
     dict_lookup "id" fields = Some id).

Definition count_submissions (tr : list event) : nat :=
  length (filter (fun e => is_submission e = true) tr).

(** A process in which nothing has happened yet, at time 1000. *)
Definition process0 : process :=
  {| p_clock := 1000; p_calls := 0; p_module := module0 |}.

(** A stand-in for [json.dumps]. *)
Definition dumps0 (parameters : json) : string := "{}".

(** A service that grants tokens, accepts every submission as "job-1" and
    reports every job as failed. *)
Definition net_job_fails : network :=
  fun _ req =>
    match req with
    | ReqToken _ _ => json_reply 1 200 (JObj token_fields)
    | ReqCreateWorkitem _ _ _ => json_reply 1 200 (status_doc "pending")
    | ReqWorkitemStatus _ _ => json_reply 1 200 (status_doc "failedInstructions")
    | ReqDownload _ => json_reply 1 404 (JObj [])
    end.

(** A successful final status with locations for both outputs. *)
Definition status_two_locations : json :=
  JObj [("id", JStr "job-1"); ("status", JStr "success");
        ("arguments",
         JObj [("outputFamily", JObj [("verb", JStr "put");
                                      ("url", JStr "https://x/family.rfa")]);
               ("outputManifest", JObj [("verb", JStr "put");
                                        ("url", JStr "https://x/manifest.json")])])].

Definition net_job_succeeds : network :=
  fun _ req =>
    match req with
    | ReqToken _ _ => json_reply 1 200 (JObj token_fields)
    | ReqCreateWorkitem _ _ _ => json_reply 1 200 (status_doc "pending")
    | ReqWorkitemStatus _ _ => json_reply 1 200 status_two_locations
    | ReqDownload _ => file_reply [Byte.x52; Byte.x46; Byte.x41]
    end.

(** * templates.py: categories and the template catalog

    A Rocq string is read as a Python [str] whose code points are below 256;
    [py_lower], [py_strip] and [py_rstrip_char] are [str.lower()],
    [str.strip()] and [str.rstrip(ch)] on such strings. *)

Definition lower_code (n : N) : N :=
  if ((65 <=? n) && (n <=? 90) ||
      (192 <=? n) && (n <=? 222) && negb (n =? 215))%N
  then (n + 32)%N else n.

Definition lower_char (c : Ascii.ascii) : Ascii.ascii :=
  Ascii.ascii_of_N (lower_code (Ascii.N_of_ascii c)).

Fixpoint py_lower (s : string) : string :=
  match s with
  | EmptyString => EmptyString
  | String c rest => String (lower_char c) (py_lower rest)
  end.

(** [str.isspace] on one character. *)
Definition is_space (c : Ascii.ascii) : bool :=
  let n := Ascii.N_of_ascii c in
  ((9 <=? n) && (n <=? 13) || (28 <=? n) && (n <=? 32) ||
   (n =? 133) || (n =? 160))%N.

Fixpoint py_lstrip (s : string) : string :=
  match s with
  | EmptyString => EmptyString
  | String c rest => if is_space c then py_lstrip rest else s
  end.

Fixpoint py_rstrip (s : string) : string :=
  match s with
  | EmptyString => EmptyString
  | String c rest =>
      match py_rstrip rest with
      | EmptyString => if is_space c then EmptyString else String c EmptyString
      | kept => String c kept
      end
  end.

Definition py_strip (s : string) : string := py_rstrip (py_lstrip s).

(** What [lstrip] leaves does not start with white space. *)
Definition starts_clean (s : string) : Prop :=
  match s with
  | EmptyString => True
  | String c _ => is_space c = false
  end.

(** [s.rstrip(ch)] for a single character [ch]. *)
Fixpoint py_rstrip_char (ch : Ascii.ascii) (s : string) : string :=
  match s with
  | EmptyString => EmptyString
  | String c rest =>
      match py_rstrip_char ch rest with
      | EmptyString => if Ascii.eqb c ch then EmptyString else String c EmptyString
      | kept => String c kept
      end
  end.

(** [x and ...] on a string: the empty string is false. *)
Definition truthy (s : string) : bool :=
  match s with
  | EmptyString => false
  | _ => true
  end.

Module Templates.

(** ** CATEGORY_MAPPINGS and normalize_category *)

Definition CATEGORY_MAPPINGS : list (string * string) :=
  [ ("furniture", "Furniture"); ("chair", "Furniture"); ("chairs", "Furniture");
    ("table", "Furniture"); ("tables", "Furniture"); ("desk", "Furniture");
    ("desks", "Furniture"); ("seating", "Furniture"); ("sofa", "Furniture");
    ("couch", "Furniture");
    ("casework", "Casework"); ("cabinet", "Casework"); ("cabinets", "Casework");
    ("shelving", "Casework"); ("counter", "Casework"); ("counters", "Casework");
    ("lighting", "Lighting Fixtures"); ("light", "Lighting Fixtures");
    ("lights", "Lighting Fixtures"); ("lighting fixtures", "Lighting Fixtures");
    ("lamp", "Lighting Fixtures"); ("lamps", "Lighting Fixtures");
    ("specialty equipment", "Specialty Equipment");
    ("equipment", "Specialty Equipment"); ("appliance", "Specialty Equipment");
    ("appliances", "Specialty Equipment");
    ("plumbing", "Plumbing Fixtures"); ("plumbing fixtures", "Plumbing Fixtures");
    ("sink", "Plumbing Fixtures"); ("sinks", "Plumbing Fixtures");
    ("toilet", "Plumbing Fixtures"); ("toilets", "Plumbing Fixtures");
    ("electrical", "Electrical Equipment");
    ("electrical equipment", "Electrical Equipment");
    ("mechanical", "Mechanical Equipment");
    ("mechanical equipment", "Mechanical Equipment");
    ("hvac", "Mechanical Equipment");
    ("generic", "Generic Models"); ("generic model", "Generic Models");
    ("generic models", "Generic Models") ].

Definition normalize_category (text : string) : string :=
  if negb (truthy text) then "Generic Models"
  else
    let normalized := py_lower (py_strip text) in
    default "Generic Models" (dict_lookup normalized CATEGORY_MAPPINGS).

(** ** TemplateMetadata and TemplateCatalog

    The dimensions are floats in the source; all of them are whole numbers
    of millimetres and none is computed with. *)

Record TemplateMetadata : Type := mkTemplate {
  id : string;
  category : string;
  subcategory : option string;
  url : string;
  local_path : option string;
  hash : string;
  revit_version : string;
  description : string;
  default_width : Z;
  default_depth : Z;
  default_height : Z;
  min_width : Z;
  max_width : Z;
  min_depth : Z;
  max_depth : Z;
  min_height : Z;
  max_height : Z;
}.

(** The dataclass constructor, with the defaults of lines 18-32 for the
    fields the default catalog never sets. *)
Definition template (tid cat_name address text : string)
    (width depth height lowest highest : Z) : TemplateMetadata :=
  {| id := tid; category := cat_name; subcategory := None; url := address;
     local_path := None; hash := ""; revit_version := "2025";
     description := text;
     default_width := width; default_depth := depth; default_height := height;
     min_width := lowest; max_width := highest;
     min_depth := 100; max_depth := 10000;
     min_height := 100; max_height := 10000 |}.

Record TemplateCatalog : Type := mkCatalog {
  base_url : string;
  templates : list (string * TemplateMetadata);   (* dict, in insertion order *)
}.

(** [f"category:{category.lower()}"] *)
Definition category_key (cat_name : string) : string :=
  ("category:" ++ py_lower cat_name)%string.

(** [key in d] *)
Definition has_key {A} (k : string) (d : list (string * A)) : bool :=
  match dict_lookup k d with
  | Some _ => true
  | None => false
  end.

Definition add_template (t : TemplateMetadata) (cat : TemplateCatalog)
  : TemplateCatalog :=
  let with_id := dict_set (id t) t (templates cat) in
  let key := category_key (category t) in
  {| base_url := base_url cat;
     templates := if negb (has_key key with_id) then dict_set key t with_id
                  else with_id |}.

Definition get_template (template_id : string) (cat : TemplateCatalog)
  : option TemplateMetadata :=
  dict_lookup template_id (templates cat).

(** [tid.startswith("category:")] *)
Definition is_index_key (tid : string) : bool := String.prefix "category:" tid.

(** The loop of lines 169-172. *)
Fixpoint first_of_category (cat_name version : string)
    (items : list (string * TemplateMetadata)) : option TemplateMetadata :=
  match items with
  | [] => None
  | (tid, tmpl) :: rest =>
      if negb (is_index_key tid) &&
         String.eqb (py_lower (category tmpl)) (py_lower cat_name) &&
         String.eqb (revit_version tmpl) version
      then Some tmpl
      else first_of_category cat_name version rest
  end.

Definition get_template_by_category (cat_name version : string)
    (cat : TemplateCatalog) : option TemplateMetadata :=
  match dict_lookup (category_key cat_name) (templates cat) with
  | Some t =>
      if String.eqb (revit_version t) version then Some t
      else
        match first_of_category cat_name version (templates cat) with
        | Some found => Some found
        | None => get_template "generic_model_v1" cat
        end
  | None =>
      match first_of_category cat_name version (templates cat) with
      | Some found => Some found
      | None => get_template "generic_model_v1" cat
      end
  end.

(** [x and ...] on an optional string: [None] and [""] are false. *)
Definition given (x : option string) : option string :=
  match x with
  | Some s => if truthy s then Some s else None
  | None => None
  end.

(** The loop of lines 183-195. *)
Fixpoint list_loop (cat_filter version_filter : option string)
    (items : list (string * TemplateMetadata)) : list TemplateMetadata :=
  match items with
  | [] => []
  | (tid, t) :: rest =>
      if is_index_key tid then list_loop cat_filter version_filter rest
      else if match given cat_filter with
              | Some c => negb (String.eqb (py_lower (category t)) (py_lower c))
              | None => false
              end
      then list_loop cat_filter version_filter rest
      else if match given version_filter with
              | Some v => negb (String.eqb (revit_version t) v)
              | None => false
              end
      then list_loop cat_filter version_filter rest
      else t :: list_loop cat_filter version_filter rest
  end.

Definition list_templates (cat_filter version_filter : option string)
    (cat : TemplateCatalog) : list TemplateMetadata :=
  list_loop cat_filter version_filter (templates cat).

(** The two filters of [list_templates] on one template. *)
Definition passes (cat_filter version_filter : option string)
    (t : TemplateMetadata) : bool :=
  match given cat_filter with
  | Some c => String.eqb (py_lower (category t)) (py_lower c)
  | None => true
  end &&
  match given version_filter with
  | Some v => String.eqb (revit_version t) v
  | None => true
  end.

(** [_initialize_default_catalog] *)
Definition default_templates (base : string) : list TemplateMetadata :=
  let template_url := fun file_name : string =>
    (base ++ "/" ++ "2025" ++ "/" ++ file_name)%string in
  [ template "generic_model_v1" "Generic Models" (template_url "Generic_Model.rft")
      "Generic parametric model template" 1000 1000 1000 100 10000;
    template "furniture_v1" "Furniture" (template_url "Furniture.rft")
      "Furniture family template with standard dimensions" 800 800 900 300 3000;
    template "casework_v1" "Casework" (template_url "Casework.rft")
      "Cabinet and casework template" 900 600 900 300 3000;
    template "lighting_v1" "Lighting Fixtures" (template_url "Lighting_Fixture.rft")
      "Lighting fixture template" 300 300 400 100 2000;
    template "specialty_equipment_v1" "Specialty Equipment"
      (template_url "Specialty_Equipment.rft")
      "Specialty equipment template" 1000 1000 1500 100 10000;
    template "plumbing_v1" "Plumbing Fixtures" (template_url "Plumbing_Fixture.rft")
      "Plumbing fixture template" 600 600 800 300 2000;
    template "electrical_v1" "Electrical Equipment"
      (template_url "Electrical_Equipment.rft")
      "Electrical equipment template" 500 300 600 100 10000;
    template "mechanical_v1" "Mechanical Equipment"
      (template_url "Mechanical_Equipment.rft")
      "Mechanical equipment template" 1000 800 1200 100 10000 ].

(** The loop of lines 142-143. *)
Definition add_all (ts : list TemplateMetadata) (cat : TemplateCatalog)
  : TemplateCatalog :=
  foldl (fun acc t => add_template t acc) cat ts.

(** [self.templates = {}] *)
Definition empty_catalog (base : string) : TemplateCatalog :=
  {| base_url := base; templates := [] |}.

(** The character ["/"]. *)
Definition slash : Ascii.ascii := Ascii.ascii_of_N 47.

(** [TemplateCatalog(base_url)] *)
Definition new_catalog (base : string) : TemplateCatalog :=
  let stripped := py_rstrip_char slash base in
  add_all (default_templates stripped) {| base_url := stripped; templates := [] |}.

(** [get_catalog], on the module global [_catalog]. *)
Definition get_catalog (base : string) (_catalog : option TemplateCatalog)
  : TemplateCatalog * option TemplateCatalog :=
  match _catalog with
  | None => (new_catalog base, Some (new_catalog base))
  | Some cat => (cat, Some cat)
  end.

(** ** tools.py: get_template_catalog and the paging of list_family_templates *)

Definition opt_str (x : option string) : json :=
  match x with
  | Some s => JStr s
  | None => JNull
  end.

Definition dimension (value : Z) : json :=
  JObj [("value", JNum value); ("unit", JStr "mm")].

(** The dict built for one template, lines 279-301. *)
Definition template_dict (t : TemplateMetadata) : json :=
  JObj [("template_id", JStr (id t));
        ("template_url", JStr (url t));
        ("template_hash", JStr (if truthy (hash t) then hash t else "pending"));
        ("category", JStr (category t));
        ("subcategory", opt_str (subcategory t));
        ("revit_version", JStr (revit_version t));
        ("parametric_capabilities",
         JArr [JStr "DIM_Width"; JStr "DIM_Depth"; JStr "DIM_Height"]);
        ("description", JStr (description t));
        ("default_dimensions",
         JObj [("width", dimension (default_width t));
               ("depth", dimension (default_depth t));
               ("height", dimension (default_height t))]);
        ("constraints",
         JObj [("min_width", JNum (min_width t)); ("max_width", JNum (max_width t));
               ("min_depth", JNum (min_depth t)); ("max_depth", JNum (max_depth t));
               ("min_height", JNum (min_height t));
               ("max_height", JNum (max_height t))])].

Definition get_template_catalog (catalog_url version : string)
    (category_filter : option string) (_catalog : option TemplateCatalog)
  : list json * option TemplateCatalog :=
  let '(catalog, state) := get_catalog catalog_url _catalog in
  let normalized_category :=
    match given category_filter with
    | Some c => Some (normalize_category c)
    | None => None
    end in
  (template_dict <$> list_templates normalized_category (Some version) catalog,
   state).




(** The eight categories that have a template. *)
Definition standard_categories : list string :=
  ["Generic Models"; "Furniture"; "Casework"; "Lighting Fixtures";
   "Specialty Equipment"; "Plumbing Fixtures"; "Electrical Equipment";
   "Mechanical Equipment"].

(** Built from templates by [add_template] alone, none of whose ids looks
    like an index key and no two of which share an id. *)
Definition plain_ids (ts : list TemplateMetadata) : Prop :=
  NoDup (id <$> ts) /\ Forall (fun t => is_index_key (id t) = false) ts.

End Templates.

(** * Basic facts about the monad and the retry loop *)

Lemma bind_ok {A B} (m : M A) (k : A -> M B) w a w1 t1 :
  m w = (Ok a, w1, t1) ->
  bind m k w = (let '(r, w2, t2) := k a w1 in (r, w2, t1 ++ t2)).
Proof. intros H. unfold bind. rewrite H. reflexivity. Qed.

Lemma bind_raise {A B} (m : M A) (k : A -> M B) w e w1 t1 :
  m w = (Raise e, w1, t1) -> bind m k w = (Raise e, w1, t1).
Proof. intros H. unfold bind. rewrite H. reflexivity. Qed.

Lemma retrying_ok {A} retry_if wait remaining n (fn : M A) w a w1 t1 :
  fn w = (Ok a, w1, t1) ->
  retrying retry_if wait remaining n fn w = (Ok a, w1, t1).
Proof. intros H. destruct remaining; simpl; unfold try_catch; rewrite H; reflexivity. Qed.

Lemma retrying_fatal {A} retry_if wait remaining n (fn : M A) w e w1 t1 :
  fn w = (Raise e, w1, t1) -> retry_if e = false ->
  retrying retry_if wait remaining n fn w = (Raise e, w1, t1).
Proof.
  intros H He. destruct remaining; simpl; unfold try_catch; rewrite H, He;
    unfold raise; rewrite app_nil_r; reflexivity.
Qed.

Lemma retrying_last {A} retry_if wait n (fn : M A) w e w1 t1 :
  fn w = (Raise e, w1, t1) -> retry_if e = true ->
  retrying retry_if wait 0 n fn w = (Raise (RetryError e), w1, t1).
Proof.
  intros H He. simpl. unfold try_catch. rewrite H, He.
  unfold raise. rewrite app_nil_r. reflexivity.
Qed.

Lemma retrying_again {A} retry_if wait remaining n (fn : M A) w e w1 t1 :
  fn w = (Raise e, w1, t1) -> retry_if e = true ->
  retrying retry_if wait (S remaining) n fn w =
    (let '(r, w2, t2) :=
       retrying retry_if wait remaining (S n) fn (advance (wait n) w1) in
     (r, w2, t1 ++ EvBackoff (wait n) :: t2)).
Proof.
  intros H He. simpl. unfold try_catch at 1. rewrite H, He.
  unfold bind, backoff.
  destruct (retrying retry_if wait remaining (S n) fn (advance (wait n) w1))
    as [[r w2] t2].
  reflexivity.
Qed.

(** An invariant of every attempt that survives giving up and waiting holds
    of the whole loop. *)
Lemma retrying_inv {A} retry_if wait (fn : M A)
    (Q : world -> result A -> world -> list event -> Prop) :
  (forall w r w1 t1, fn w = (r, w1, t1) -> Q w r w1 t1) ->
  (forall w e w1 t1, Q w (Raise e) w1 t1 -> Q w (Raise (RetryError e)) w1 t1) ->
  (forall w e w1 t1 d r w2 t2,
     Q w (Raise e) w1 t1 -> Q (advance d w1) r w2 t2 ->
     Q w r w2 (t1 ++ EvBackoff d :: t2)) ->
  forall remaining n w r w1 t1,
    retrying retry_if wait remaining n fn w = (r, w1, t1) -> Q w r w1 t1.
Proof.
  intros Hfn Hstop Hwait.
  induction remaining as [|k IH]; intros n w r w1 t1;
    destruct (fn w) as [[[a|e0|] w0] t0] eqn:Hrun;
    pose proof (Hfn _ _ _ _ Hrun) as Hq;
    try (rewrite (retrying_ok _ _ _ _ _ _ _ _ _ Hrun); intros [= <- <- <-]; exact Hq);
    try (simpl; unfold try_catch; rewrite Hrun; intros [= <- <- <-]; exact Hq);
    (destruct (retry_if e0) eqn:He;
     [|rewrite (retrying_fatal _ _ _ _ _ _ _ _ _ Hrun He); intros [= <- <- <-];
       exact Hq]).
  - rewrite (retrying_last _ _ _ _ _ _ _ _ Hrun He). intros [= <- <- <-]. auto.
  - rewrite (retrying_again _ _ _ _ _ _ _ _ _ Hrun He).
    destruct (retrying retry_if wait k (S n) fn (advance (wait n) w0))
      as [[r' w2] t2] eqn:Hrest.
    intros [= <- <- <-]. eapply Hwait; [exact Hq|]. eapply IH, Hrest.
Qed.

(** * The credential exchange *)

(** What [exchange] makes of the reply it receives at time [now]. *)
Lemma exchange_run net w :
  let rep := net (calls w) (token_request (self w)) in
  let w1 := after_http rep w in
  exchange net w =
    match outcome_of rep with
    | Transport => (Raise RequestError, w1, [EvHttp (token_request (self w)) rep])
    | Response resp =>
        if is_success (status_code resp) then
          match json_body resp with
          | None => (Raise JSONDecodeError, w1, [EvHttp (token_request (self w)) rep])
          | Some (JObj fields) =>
              match lifetime fields with
              | None => (Raise TypeError, w1, [EvHttp (token_request (self w)) rep])
              | Some seconds =>
                  match dict_lookup "access_token" fields with
                  | None => (Raise (KeyError "access_token"), w1,
                             [EvHttp (token_request (self w)) rep])
                  | Some access =>
                      let tok := {| access_token := access;
                                    expires_at := clock w1 + seconds;
                                    token_type := default (JStr "Bearer")
                                      (dict_lookup "token_type" fields) |} in
                      (Ok tok, with_token tok w1,
                       [EvHttp (token_request (self w)) rep])
                  end
              end
          | Some _ => (Raise AttributeError, w1, [EvHttp (token_request (self w)) rep])
          end
        else (Raise (HTTPStatusError (status_code resp)), w1,
              [EvHttp (token_request (self w)) rep])
    end.
Proof.
  intros rep w1. unfold exchange, finish_exchange, bind, get_self, http, token_request.
  fold (token_request (self w)). fold rep.
  destruct (outcome_of rep) as [|resp]; [reflexivity|].
  unfold raise_for_status.
  destruct (is_success (status_code resp)); [|reflexivity].
  unfold ret at 1. unfold response_json.
  destruct (json_body resp) as [[|b|n|s|items|fields]|]; try reflexivity.
  unfold lift_option at 1, ret at 1, time, py_get at 1, ret at 1, lifetime.
  destruct (dict_lookup "expires_in" fields) as [v|]; simpl default.
  - destruct (json_number v) as [n|]; [|reflexivity].
    simpl. destruct (dict_lookup "access_token" fields); reflexivity.
  - simpl. destruct (dict_lookup "access_token" fields); reflexivity.
Qed.

Lemma authenticate_body_hit net w tok :
  _token (self w) = Some tok -> is_expired tok (clock w) = false ->
  authenticate_body net w = (Ok tok, w, []).
Proof.
  intros Htok Hfresh. unfold authenticate_body, bind, get_self, time.
  rewrite Htok, Hfresh. reflexivity.
Qed.

Lemma authenticate_body_miss net w :
  cache_valid w = false -> authenticate_body net w = exchange net w.
Proof.
  unfold cache_valid, authenticate_body, bind, get_self, time. intros Hc.
  destruct (_token (self w)) as [tok|].
  - destruct (is_expired tok (clock w)); [simpl|discriminate].
    destruct (exchange net w) as [[r w1] t1]. reflexivity.
  - destruct (exchange net w) as [[r w1] t1]. reflexivity.
Qed.

Lemma authenticate_hit net w tok :
  _token (self w) = Some tok -> is_expired tok (clock w) = false ->
  authenticate net w = (Ok tok, w, []).
Proof.
  intros Htok Hfresh. unfold authenticate, retry.
  apply retrying_ok. apply authenticate_body_hit; assumption.
Qed.

Lemma is_expired_spec tok now :
  is_expired tok now = true <-> expires_at tok - 300 <= now.
Proof. unfold is_expired. rewrite Z.geb_le. reflexivity. Qed.

Lemma is_expired_false tok now :
  is_expired tok now = false <-> now < expires_at tok - 300.
Proof.
  unfold is_expired. destruct (Z.geb_spec now (expires_at tok - 300)); split;
    intros; try lia; try discriminate; reflexivity.
Qed.

(** An expired or empty cache stays so while only time passes. *)
Lemma cache_valid_later w w' :
  self w' = self w -> clock w <= clock w' ->
  cache_valid w = false -> cache_valid w' = false.
Proof.
  unfold cache_valid. intros -> Hle. destruct (_token (self w)) as [tok|]; [|auto].
  rewrite !negb_false_iff, !is_expired_spec. lia.
Qed.

Lemma later_calls_cached net tok gaps : forall w,
  _token (self w) = Some tok ->
  clock w + total_gap gaps < expires_at tok - 300 ->
  later_calls net gaps w =
    (Ok (replicate (length gaps) tok), advance (total_gap gaps) w, []).
Proof.
  assert (Hnn : forall l, 0 <= total_gap l).
  { induction l as [|d l IH]; simpl; lia. }
  induction gaps as [|d gaps IH]; intros w Htok Hlt; simpl in *.
  - unfold ret, advance. destruct w; simpl. do 2 f_equal. f_equal. lia.
  - specialize (Hnn gaps).
    unfold bind at 1, elapse.
    unfold bind at 1.
    rewrite (authenticate_hit net (advance d w) tok); simpl; auto.
    2:{ apply is_expired_false. simpl. lia. }
    unfold bind at 1. rewrite IH; simpl; auto; [|lia].
    unfold ret, advance; simpl. do 3 f_equal. lia.
Qed.

(** * Failing exchanges *)

Lemma exchange_failed net w :
  let rep := net (calls w) (token_request (self w)) in
  failed_reply rep = true ->
  exchange net w =
    (Raise (reply_error rep), after_http rep w,
     [EvHttp (token_request (self w)) rep]).
Proof.
  intros rep Hf. rewrite exchange_run. fold rep.
  unfold failed_reply, reply_error in *.
  destruct (outcome_of rep) as [|resp]; [reflexivity|].
  destruct (is_success (status_code resp)); [discriminate|reflexivity].
Qed.

Lemma reply_error_retried rep : retry_if_status_or_request (reply_error rep) = true.
Proof. unfold reply_error. destruct (outcome_of rep); reflexivity. Qed.

Lemma exchange_malformed net w :
  let rep := net (calls w) (token_request (self w)) in
  malformed_token_reply rep = true ->
  exists e, decoding_error e = true /\
    exchange net w = (Raise e, after_http rep w, [EvHttp (token_request (self w)) rep]).
Proof.
  intros rep Hm. rewrite exchange_run. fold rep.
  unfold malformed_token_reply in Hm.
  destruct (outcome_of rep) as [|resp]; [discriminate|].
  destruct (is_success (status_code resp)); [simpl in Hm|discriminate].
  destruct (json_body resp) as [[|b|n|s|items|fields]|];
    try (eexists; split; [|reflexivity]; reflexivity).
  destruct (lifetime fields);
    [|eexists; split; [|reflexivity]; reflexivity].
  destruct (dict_lookup "access_token" fields); [discriminate|].
  eexists; split; [|reflexivity]; reflexivity.
Qed.

Lemma decoding_error_fatal e :
  decoding_error e = true -> retry_if_status_or_request e = false.
Proof. destruct e; simpl; congruence. Qed.

(** A raising attempt leaves the client object as it was. *)
Lemma authenticate_body_raise net w e w1 t1 :
  authenticate_body net w = (Raise e, w1, t1) -> self w1 = self w.
Proof.
  destruct (cache_valid w) eqn:Hc.
  - unfold cache_valid in Hc. destruct (_token (self w)) as [tok|] eqn:Ht; [|discriminate].
    rewrite (authenticate_body_hit net w tok); [discriminate|assumption|].
    now apply negb_true_iff.
  - rewrite authenticate_body_miss, exchange_run by assumption.
    repeat case_match; intros [= <- <- <-]; reflexivity.
Qed.

Lemma retrying_raise_self {A} retry_if wait (fn : M A) :
  (forall w e w1 t1, fn w = (Raise e, w1, t1) -> self w1 = self w) ->
  forall remaining n w e w1 t1,
    retrying retry_if wait remaining n fn w = (Raise e, w1, t1) ->
    self w1 = self w.
Proof.
  intros Hfn remaining n w e w1 t1 Hrun.
  apply (retrying_inv retry_if wait fn
           (fun w r w1 _ => forall e, r = Raise e -> self w1 = self w))
    with (e := e) in Hrun; auto.
  - intros w0 r0 w2 t2 Hbody e0 ->. eauto.
  - intros w0 e0 w2 t2 Hq e1 _. eauto.
  - intros w0 e0 w2 t2 d r0 w3 t3 Hq1 Hq2 e1 ->.
    rewrite (Hq2 e1 eq_refl). simpl. eauto.
Qed.

Lemma authenticate_raise_self net w e w1 t1 :
  authenticate net w = (Raise e, w1, t1) -> self w1 = self w.
Proof.
  unfold authenticate, retry. apply retrying_raise_self.
  apply authenticate_body_raise.
Qed.

(** Every exchange sends exactly one request, whatever comes back. *)
Lemma exchange_events net w :
  exists r w',
    exchange net w =
      (r, w', [EvHttp (token_request (self w))
                      (net (calls w) (token_request (self w)))]).
Proof. rewrite exchange_run. repeat case_match; eauto. Qed.

(** The events of the first attempt open the events of the whole loop. *)
Lemma retrying_events_prefix {A} retry_if wait remaining n (fn : M A) w r0 w0 t0 :
  fn w = (r0, w0, t0) ->
  exists r w' tr, retrying retry_if wait remaining n fn w = (r, w', t0 ++ tr).
Proof.
  intros Hrun. destruct remaining; simpl; unfold try_catch; rewrite Hrun;
    destruct r0; try (exists (@nil event); rewrite app_nil_r; eauto; fail);
    try (do 3 eexists; rewrite app_nil_r; reflexivity).
  - destruct (retry_if e); unfold raise; eauto.
  - destruct (retry_if e); [|unfold raise; eauto].
    match goal with |- context [bind ?m ?k w0] => destruct (bind m k w0) as [[r w'] tr] end.
    eauto.
Qed.

(** After a first attempt that failed with a retried error, [authenticate]
    waits two seconds and runs the loop's remaining two attempts. *)
Lemma authenticate_first_failed net w :
  cache_valid w = false ->
  let req := token_request (self w) in
  let rep0 := net (calls w) req in
  failed_reply rep0 = true ->
  authenticate net w =
    (let '(r, w2, t2) :=
       retrying retry_if_status_or_request (wait_exponential 1 2 10) 1 2
         (authenticate_body net) (advance 2 (after_http rep0 w)) in
     (r, w2, [EvHttp req rep0] ++ EvBackoff 2 :: t2)).
Proof.
  intros Hc req rep0 H0. unfold authenticate, retry. simpl Nat.pred.
  rewrite (retrying_again _ _ _ _ _ w (reply_error rep0) (after_http rep0 w)
             [EvHttp req rep0]).
  - reflexivity.
  - rewrite authenticate_body_miss by assumption. now apply exchange_failed.
  - apply reply_error_retried.
Qed.

Lemma authenticate_three_failures net w :
  cache_valid w = false ->
  let req := token_request (self w) in
  let rep0 := net (calls w) req in
  let rep1 := net (S (calls w)) req in
  let rep2 := net (S (S (calls w))) req in
  failed_reply rep0 = true -> failed_reply rep1 = true ->
  failed_reply rep2 = true ->
  authenticate net w =
    (Raise (RetryError (reply_error rep2)),
     after_http rep2 (advance 2 (after_http rep1 (advance 2 (after_http rep0 w)))),
     [EvHttp req rep0; EvBackoff 2; EvHttp req rep1; EvBackoff 2;
      EvHttp req rep2]).
Proof.
  intros Hc req rep0 rep1 rep2 H0 H1 H2.
  rewrite (authenticate_first_failed net w Hc H0). fold req rep0.
  set (w1 := advance 2 (after_http rep0 w)).
  assert (Hc1 : cache_valid w1 = false).
  { apply (cache_valid_later w); [reflexivity|simpl; lia|assumption]. }
  rewrite (retrying_again _ _ _ _ _ w1 (reply_error rep1) (after_http rep1 w1)
             [EvHttp req rep1]).
  2:{ rewrite authenticate_body_miss by assumption. now apply (exchange_failed net w1). }
  2:{ apply reply_error_retried. }
  set (w2 := advance (wait_exponential 1 2 10 2) (after_http rep1 w1)).
  assert (Hc2 : cache_valid w2 = false).
  { apply (cache_valid_later w1); [reflexivity|simpl; lia|assumption]. }
  rewrite (retrying_last _ _ _ _ w2 (reply_error rep2) (after_http rep2 w2)
             [EvHttp req rep2]).
  - reflexivity.
  - rewrite authenticate_body_miss by assumption. now apply (exchange_failed net w2).
  - apply reply_error_retried.
Qed.


Lemma exchange_granted net w access seconds :
  let rep := net (calls w) (token_request (self w)) in
  grants rep access seconds ->
  exists tok,
    exchange net w =
      (Ok tok, with_token tok (after_http rep w),
       [EvHttp (token_request (self w)) rep]) /\
    access_token tok = access /\
    expires_at tok = clock w + Z.of_N (latency rep) + seconds.
Proof.
  intros rep (fields & Hf & Ha & Hl). rewrite exchange_run. fold rep.
  unfold reply_fields in Hf.
  destruct (outcome_of rep) as [|resp]; [discriminate|].
  destruct (is_success (status_code resp)); [|discriminate].
  destruct (json_body resp) as [[|b|n|s|items|fields']|]; try discriminate.
  injection Hf as ->. rewrite Hl, Ha. eexists. split; [reflexivity|].
  split; reflexivity.
Qed.

Lemma authenticate_granted net w access seconds :
  cache_valid w = false ->
  let rep := net (calls w) (token_request (self w)) in
  grants rep access seconds ->
  exists tok,
    authenticate net w =
      (Ok tok, with_token tok (after_http rep w),
       [EvHttp (token_request (self w)) rep]) /\
    access_token tok = access /\
    expires_at tok = clock w + Z.of_N (latency rep) + seconds.
Proof.
  intros Hc rep Hg.
  destruct (exchange_granted net w access seconds Hg) as (tok & Hex & Ha & He).
  exists tok. split; [|split; assumption].
  unfold authenticate, retry. apply retrying_ok.
  rewrite authenticate_body_miss by assumption. exact Hex.
Qed.

(** With no valid token in the cache, the first thing [authenticate] does is
    to send a token request. *)
Lemma authenticate_refreshes net w :
  cache_valid w = false ->
  exists r w' rest,
    authenticate net w =
      (r, w', EvHttp (token_request (self w))
                     (net (calls w) (token_request (self w))) :: rest).
Proof.
  intros Hc. destruct (exchange_events net w) as (r0 & w0 & Hex).
  rewrite <- (authenticate_body_miss net w Hc) in Hex.
  unfold authenticate, retry.
  destruct (retrying_events_prefix retry_if_status_or_request
              (wait_exponential 1 2 10) (Nat.pred 3) 1 (authenticate_body net)
              w r0 w0 _ Hex) as (r & w' & tr & ->).
  exists r, w', tr. reflexivity.
Qed.

(** * Claims about the token cache *)

(** C2: after a successful credential exchange that reports a lifetime of
    [E] seconds and completes at time [t = clock w1], the token expires at
    [t + E], it counts as expired exactly when [now >= t + E - 300], and
    every later series of [authenticate] calls issued before [t + E - 300]
    returns that very token without any event: no request is sent.  From
    [t + E - 300] on the cached token is no longer handed out: a call of
    [authenticate] begins with a token request, and when that request is
    granted the call returns the newly granted token, dated from the new
    reply, and caches it in place of the old one. *)
Theorem cached_token_reused_until_margin net w tok w1 tr :
  exchange net w = (Ok tok, w1, tr) ->
  exists E,
    reply_fields (net (calls w) (token_request (self w))) ≫= lifetime = Some E /\
    expires_at tok = clock w1 + E /\
    _token (self w1) = Some tok /\
    (forall now, is_expired tok now = true <-> clock w1 + E - 300 <= now) /\
    (forall net' gaps,
      clock w1 + total_gap gaps < clock w1 + E - 300 ->
      later_calls net' gaps w1 =
        (Ok (replicate (length gaps) tok), advance (total_gap gaps) w1, [])) /\
    forall net' d,
      clock w1 + E - 300 <= clock w1 + Z.max 0 d ->
      let req := token_request (self w1) in
      let rep := net' (calls w1) req in
      (exists r w2 rest,
         authenticate net' (advance d w1) = (r, w2, EvHttp req rep :: rest)) /\
      (forall access seconds,
         grants rep access seconds ->
         exists tok',
           authenticate net' (advance d w1) =
             (Ok tok', with_token tok' (after_http rep (advance d w1)),
              [EvHttp req rep]) /\
           access_token tok' = access /\
           expires_at tok' =
             clock w1 + Z.max 0 d + Z.of_N (latency rep) + seconds).
Proof.
  rewrite exchange_run. unfold reply_fields.
  destruct (outcome_of _) as [|resp]; [discriminate|].
  destruct (is_success (status_code resp)); [|discriminate].
  destruct (json_body resp) as [[|b|n|s|items|fields]|]; try discriminate.
  simpl. destruct (lifetime fields) as [E|]; [|discriminate].
  destruct (dict_lookup "access_token" fields) as [access|]; [|discriminate].
  intros [= <- <- <-]. exists E. simpl.
  split; [reflexivity|]. split; [reflexivity|]. split; [reflexivity|].
  split; [|split].
  - intros now. apply is_expired_spec.
  - intros net' gaps Hlt. apply later_calls_cached; simpl; [reflexivity|lia].
  - intros net' d Hd.
    match goal with |- context [advance d ?w0] => set (w1 := w0) in * end.
    assert (Hc : cache_valid (advance d w1) = false).
    { unfold cache_valid. simpl. apply negb_false_iff, is_expired_spec.
      simpl. lia. }
    split.
    + exact (authenticate_refreshes net' (advance d w1) Hc).
    + intros access' seconds Hg.
      exact (authenticate_granted net' (advance d w1) access' seconds Hc Hg).
Qed.

(** A token granted for 3599 seconds at time 1001 serves three later calls,
    the last of them 2110 seconds on, although the network would refuse; a
    call 3299 seconds on, at time 4300 = 4600 - 300, asks for a new token. *)
Lemma cached_token_reused_until_margin_witness :
  exchange net_granting world0 =
    (Ok (mkToken (JStr "abc") 4600 (JStr "Bearer")),
     with_token (mkToken (JStr "abc") 4600 (JStr "Bearer"))
                (after_http (net_granting 0%nat (token_request client0)) world0),
     [EvHttp (token_request client0) (net_granting 0%nat (token_request client0))]) /\
  later_calls net_401 [10; 100; 2000]
      (with_token (mkToken (JStr "abc") 4600 (JStr "Bearer"))
                  (after_http (net_granting 0%nat (token_request client0)) world0))
    = (Ok (replicate 3 (mkToken (JStr "abc") 4600 (JStr "Bearer"))),
       advance 2110
         (with_token (mkToken (JStr "abc") 4600 (JStr "Bearer"))
                     (after_http (net_granting 0%nat (token_request client0)) world0)),
       []) /\
  exists r w2 rest,
    authenticate net_401
      (advance 3299
         (with_token (mkToken (JStr "abc") 4600 (JStr "Bearer"))
            (after_http (net_granting 0%nat (token_request client0)) world0)))
    = (r, w2,
       EvHttp (token_request client0) (net_401 1%nat (token_request client0))
         :: rest).
Proof.
  split; [reflexivity|].
  destruct (cached_token_reused_until_margin net_granting world0
              (mkToken (JStr "abc") 4600 (JStr "Bearer"))
              (with_token (mkToken (JStr "abc") 4600 (JStr "Bearer"))
                 (after_http (net_granting 0%nat (token_request client0)) world0))
              [EvHttp (token_request client0) (net_granting 0%nat (token_request client0))]
              eq_refl) as (E & HE & _ & _ & _ & Hlater & Hrefresh).
  vm_compute in HE. injection HE as <-.
  split.
  - apply (Hlater net_401 [10; 100; 2000]). vm_compute. reflexivity.
  - apply (Hrefresh net_401 3299). vm_compute. discriminate.
Defined.




(** C3 as amended: a failing [authenticate] never replaces the cached token.
    A 2xx response with a malformed body makes it fail at once, with the
    decoding error and after that single request.  A response outside
    200..299 is not surfaced: the exchange is attempted again after a
    2-second wait, and only when three attempts in a row have failed (a
    non-2xx response or no response) does [authenticate] fail, with
    tenacity's [RetryError] around the last attempt's error. *)
Theorem failed_exchange_policy net w :
  cache_valid w = false ->
  let req := token_request (self w) in
  let rep0 := net (calls w) req in
  let rep1 := net (S (calls w)) req in
  let rep2 := net (S (S (calls w))) req in
  (forall e w' tr, authenticate net w = (Raise e, w', tr) -> self w' = self w) /\
  (malformed_token_reply rep0 = true ->
     exists e, decoding_error e = true /\
       authenticate net w = (Raise e, after_http rep0 w, [EvHttp req rep0])) /\
  (non_2xx rep0 = true ->
     exists r w' tr,
       authenticate net w =
         (r, w', EvHttp req rep0 :: EvBackoff 2 :: EvHttp req rep1 :: tr)) /\
  (failed_reply rep0 = true -> failed_reply rep1 = true ->
   failed_reply rep2 = true ->
     authenticate net w =
       (Raise (RetryError (reply_error rep2)),
        after_http rep2 (advance 2 (after_http rep1 (advance 2 (after_http rep0 w)))),
        [EvHttp req rep0; EvBackoff 2; EvHttp req rep1; EvBackoff 2;
         EvHttp req rep2])).
Proof.
  intros Hc req rep0 rep1 rep2.
  split; [|split; [|split]].
  - intros e w' tr. apply authenticate_raise_self.
  - intros Hm. destruct (exchange_malformed net w Hm) as (e & He & Hex).
    exists e. split; [assumption|]. unfold authenticate, retry.
    apply retrying_fatal; [|now apply decoding_error_fatal].
    rewrite authenticate_body_miss by assumption. exact Hex.
  - intros H0. rewrite (authenticate_first_failed net w Hc).
    2:{ fold req rep0. unfold non_2xx, failed_reply in *.
        destruct (outcome_of rep0); congruence. }
    fold req rep0. set (w1 := advance 2 (after_http rep0 w)).
    assert (Hc1 : cache_valid w1 = false).
    { apply (cache_valid_later w); [reflexivity|simpl; lia|assumption]. }
    destruct (exchange_events net w1) as (r1 & w1' & Hex1).
    rewrite <- (authenticate_body_miss net w1 Hc1) in Hex1.
    destruct (retrying_events_prefix retry_if_status_or_request
                (wait_exponential 1 2 10) 1 2 _ _ _ _ _ Hex1)
      as (r & w' & tr & ->).
    exists r, w', tr. reflexivity.
  - apply authenticate_three_failures. exact Hc.
Qed.

(** Three 401 answers in a row: three requests, then [RetryError]. *)
Lemma failed_exchange_policy_witness :
  authenticate net_401 world0 =
    (Raise (RetryError (HTTPStatusError 401)),
     {| clock := 1007; calls := 3; self := client0 |},
     [EvHttp (token_request client0) (net_401 0%nat (token_request client0));
      EvBackoff 2;
      EvHttp (token_request client0) (net_401 1%nat (token_request client0));
      EvBackoff 2;
      EvHttp (token_request client0) (net_401 2%nat (token_request client0))]).
Proof.
  destruct (failed_exchange_policy net_401 world0 eq_refl) as (_ & _ & _ & H).
  exact (H eq_refl eq_refl eq_refl).
Defined.

(** C3 as stated fails: the exchange that is answered 500 is retried
    without the caller seeing any error, and [authenticate] returns the
    token of the second exchange. *)
Lemma non_2xx_exchange_is_retried :
  non_2xx (net_500_then_granting 0%nat (token_request client0)) = true /\
  authenticate net_500_then_granting world0 =
    (Ok (mkToken (JStr "abc") 4603 (JStr "Bearer")),
     {| clock := 1004; calls := 2;
        self := set_token (mkToken (JStr "abc") 4603 (JStr "Bearer")) client0 |},
     [EvHttp (token_request client0)
             (net_500_then_granting 0%nat (token_request client0));
      EvBackoff 2;
      EvHttp (token_request client0)
             (net_500_then_granting 1%nat (token_request client0))]).
Proof. split; reflexivity. Qed.

(** * Concurrent callers *)

Lemma run_start_miss net remaining n w :
  cache_valid w = false ->
  run_start net remaining n w =
    (Awaiting remaining n (calls w)
       (clock w + Z.of_N (latency (net (calls w) (token_request (self w))))),
     with_calls (S (calls w)) w).
Proof.
  unfold cache_valid, run_start. intros Hc.
  destruct (_token (self w)) as [tok|]; [|reflexivity].
  destruct (is_expired tok (clock w)); [reflexivity|discriminate].
Qed.

Lemma run_schedule_snoc net schedule i s :
  run_schedule net (schedule ++ [i]) s = step net (run_schedule net schedule s) i.
Proof. unfold run_schedule. rewrite foldl_app. reflexivity. Qed.

(** The first [k] of [n] callers have run up to their POST. *)
Lemma callers_send_in_turn net w n :
  cache_valid w = false ->
  forall k, (k <= n)%nat ->
    run_schedule net (seq 0 k) (callers n w) =
      {| shared := with_calls (calls w + k) w;
         tasks := (in_flight net w <$> seq 0 k) ++ replicate (n - k) (Start 2 1) |}.
Proof.
  intros Hc. induction k as [|k IH]; intros Hk.
  - simpl. unfold callers, with_calls. rewrite Nat.add_0_r, Nat.sub_0_r.
    destruct w; reflexivity.
  - rewrite seq_S, run_schedule_snoc, IH by lia. simpl.
    unfold step. simpl.
    assert (Hlen : length (in_flight net w <$> seq 0 k) = k).
    { rewrite length_fmap, length_seq. reflexivity. }
    replace (n - k)%nat with (S (n - S k)) by lia. simpl.
    rewrite lookup_app_r by lia. rewrite Hlen, Nat.sub_diag. simpl.
    rewrite run_start_miss by exact Hc. simpl.
    f_equal.
    + unfold with_calls. simpl. f_equal. lia.
    + rewrite insert_app_r_alt by lia. rewrite Hlen, Nat.sub_diag. simpl.
      rewrite fmap_app. simpl. rewrite <- app_assoc. reflexivity.
Qed.

(** C8 as amended: there is no single flight.  When [n] callers call
    [authenticate] while no valid token is cached and each runs its cache
    test before any reply has been processed, every one of them sends a
    token request of its own: [n] exchanges are in flight, one per caller. *)
Theorem concurrent_callers_each_exchange net w n :
  cache_valid w = false ->
  let s := run_schedule net (seq 0 n) (callers n w) in
  calls (shared s) = (calls w + n)%nat /\
  tasks s = in_flight net w <$> seq 0 n.
Proof.
  intros Hc. cbv zeta.
  rewrite (callers_send_in_turn net w n Hc n) by lia. simpl.
  rewrite Nat.sub_diag. simpl. rewrite app_nil_r. split; reflexivity.
Qed.

(** Three callers on a fresh client: three requests in flight. *)
Lemma concurrent_callers_each_exchange_witness :
  calls (shared (run_schedule net_granting (seq 0 3) (callers 3 world0))) = 3%nat /\
  tasks (run_schedule net_granting (seq 0 3) (callers 3 world0)) =
    [Awaiting 2 1 0 1001; Awaiting 2 1 1 1001; Awaiting 2 1 2 1001].
Proof.
  exact (concurrent_callers_each_exchange net_granting world0 3 eq_refl).
Defined.

(** C8 as stated fails: two callers that start together on an empty cache
    both perform an exchange; two token requests are sent and each caller
    returns the token of its own exchange. *)
Lemma two_callers_two_exchanges :
  run_schedule net_granting [0; 1; 0; 1]%nat (callers 2 world0) =
    {| shared := {| clock := 1001; calls := 2;
                    self := set_token (mkToken (JStr "abc") 4600 (JStr "Bearer"))
                                      client0 |};
       tasks := [Finished (Ok (mkToken (JStr "abc") 4600 (JStr "Bearer")));
                 Finished (Ok (mkToken (JStr "abc") 4600 (JStr "Bearer")))] |}.
Proof. reflexivity. Qed.

(** ** A single caller on the event loop is the sequential [authenticate] *)

Lemma run_schedule_finished net r w schedule :
  run_schedule net schedule {| shared := w; tasks := [Finished r] |} =
    {| shared := w; tasks := [Finished r] |}.
Proof.
  induction schedule as [|i schedule IH]; [reflexivity|].
  unfold run_schedule in *. simpl. unfold step at 2. simpl.
  destruct i as [|i]; simpl; exact IH.
Qed.

Lemma resume_after_send w (l : N) :
  resume_at (clock w + Z.of_N l) (with_calls (S (calls w)) w) =
    {| clock := clock w + Z.of_N l; calls := S (calls w); self := self w |}.
Proof. unfold resume_at, with_calls. simpl. f_equal. lia. Qed.

Lemma resume_after_wait w d :
  resume_at (clock w + Z.max 0 d) w = advance d w.
Proof. unfold resume_at, advance. f_equal. lia. Qed.

(** The exchange is the request followed by [finish_exchange]. *)
Lemma exchange_split net w :
  let rep := net (calls w) (token_request (self w)) in
  exchange net w =
    (let '(r, w2, t) :=
       match outcome_of rep with
       | Transport => (Raise RequestError, after_http rep w, [])
       | Response resp => finish_exchange resp (after_http rep w)
       end in
     (r, w2, EvHttp (token_request (self w)) rep :: t)).
Proof.
  intros rep. unfold exchange, bind, get_self, http. fold (token_request (self w)).
  fold rep. destruct (outcome_of rep) as [|resp]; [reflexivity|].
  unfold after_http. destruct (finish_exchange resp _) as [[r w2] t]. reflexivity.
Qed.

(** A caller that finds no valid token: its first two scheduling steps. *)
Lemma two_steps_miss net remaining n w :
  cache_valid w = false ->
  let rep := net (calls w) (token_request (self w)) in
  step net (step net {| shared := w; tasks := [Start remaining n] |} 0) 0 =
    (let '(r, w2, _) :=
       match outcome_of rep with
       | Transport => (Raise RequestError, after_http rep w, [])
       | Response resp => finish_exchange resp (after_http rep w)
       end in
     match r with
     | Raise e =>
         if retry_if_status_or_request e then
           match remaining with
           | O => {| shared := w2; tasks := [Finished (Raise (RetryError e))] |}
           | S remaining' =>
               {| shared := w2;
                  tasks := [Sleeping remaining' (S n)
                              (clock w2 + Z.max 0 (wait_exponential 1 2 10 n))] |}
           end
         else {| shared := w2; tasks := [Finished (Raise e)] |}
     | _ => {| shared := w2; tasks := [Finished r] |}
     end).
Proof.
  intros Hc rep. unfold step at 2. simpl.
  rewrite (run_start_miss net remaining n w Hc). unfold step. simpl.
  unfold run_reply. rewrite resume_after_send. simpl.
  fold (token_request (self w)). fold rep. fold (after_http rep w).
  destruct (match outcome_of rep with
            | Transport => (Raise RequestError, after_http rep w, [])
            | Response resp => finish_exchange resp (after_http rep w)
            end) as [[[tok|e|] w2] t]; try reflexivity.
  destruct (retry_if_status_or_request e); [|reflexivity].
  destruct remaining; reflexivity.
Qed.

Lemma one_step_hit net remaining n w tok :
  _token (self w) = Some tok -> is_expired tok (clock w) = false ->
  step net {| shared := w; tasks := [Start remaining n] |} 0 =
    {| shared := w; tasks := [Finished (Ok tok)] |}.
Proof.
  intros Htok Hfresh. unfold step. simpl. unfold run_start.
  rewrite Htok, Hfresh. reflexivity.
Qed.

Lemma run_schedule_cons net i schedule s :
  run_schedule net (i :: schedule) s = run_schedule net schedule (step net s i).
Proof. reflexivity. Qed.

Lemma single_caller_retrying net : forall remaining n w,
  exists r w' tr,
    retrying retry_if_status_or_request (wait_exponential 1 2 10) remaining n
      (authenticate_body net) w = (r, w', tr) /\
    run_schedule net (replicate (3 * remaining + 2) 0%nat)
      {| shared := w; tasks := [Start remaining n] |} =
      {| shared := w'; tasks := [Finished r] |}.
Proof.
  induction remaining as [|remaining IH]; intros n w;
    replace (3 * 0 + 2)%nat with 2%nat by reflexivity;
    try replace (3 * S remaining + 2)%nat with (S (S (S (3 * remaining + 2)))) by lia;
    simpl replicate; rewrite !run_schedule_cons;
    (destruct (cache_valid w) eqn:Hc;
     [ unfold cache_valid in Hc;
       destruct (_token (self w)) as [tok|] eqn:Htok; [|discriminate];
       apply negb_true_iff in Hc;
       exists (Ok tok), w, []; split;
       [ apply retrying_ok; now apply authenticate_body_hit
       | rewrite (one_step_hit net _ n w tok Htok Hc);
         try rewrite <- !run_schedule_cons; apply run_schedule_finished ]
     | ]).
  - pose proof (exchange_split net w) as Hex. cbv zeta in Hex.
    rewrite <- (authenticate_body_miss net w Hc) in Hex.
    rewrite (two_steps_miss net 0 n w Hc).
    set (rep := net (calls w) (token_request (self w))) in *.
    destruct (match outcome_of rep with
              | Transport => (Raise RequestError, after_http rep w, [])
              | Response resp => finish_exchange resp (after_http rep w)
              end) as [[[tok|e|] w2] t] eqn:Hfin.
    + do 3 eexists. split; [apply retrying_ok; exact Hex|reflexivity].
    + destruct (retry_if_status_or_request e) eqn:He.
      * do 3 eexists. split; [apply retrying_last; [exact Hex|exact He]|reflexivity].
      * do 3 eexists. split; [apply retrying_fatal; [exact Hex|exact He]|reflexivity].
    + do 3 eexists. split; [|reflexivity].
      unfold retrying, try_catch. rewrite Hex. reflexivity.
  - pose proof (exchange_split net w) as Hex. cbv zeta in Hex.
    rewrite <- (authenticate_body_miss net w Hc) in Hex.
    rewrite (two_steps_miss net (S remaining) n w Hc).
    set (rep := net (calls w) (token_request (self w))) in *.
    destruct (match outcome_of rep with
              | Transport => (Raise RequestError, after_http rep w, [])
              | Response resp => finish_exchange resp (after_http rep w)
              end) as [[[tok|e|] w2] t] eqn:Hfin.
    + do 3 eexists. split; [apply retrying_ok; exact Hex|].
      rewrite <- run_schedule_cons. apply run_schedule_finished.
    + destruct (retry_if_status_or_request e) eqn:He.
      * rewrite (retrying_again _ _ _ _ _ _ _ _ _ Hex He).
        destruct (IH (S n) (advance (wait_exponential 1 2 10 n) w2))
          as (r & w' & tr & -> & Hsched).
        do 3 eexists. split; [reflexivity|].
        unfold step. simpl. rewrite resume_after_wait. exact Hsched.
      * do 3 eexists. split; [apply retrying_fatal; [exact Hex|exact He]|].
        rewrite <- run_schedule_cons. apply run_schedule_finished.
    + do 3 eexists. split.
      * simpl. unfold try_catch. rewrite Hex. reflexivity.
      * rewrite <- run_schedule_cons. apply run_schedule_finished.
Qed.

(** Run alone, a caller ends with the result and the client state of the
    sequential [authenticate]. *)
Lemma single_caller_is_authenticate net w :
  exists r w' tr,
    authenticate net w = (r, w', tr) /\
    run_schedule net (replicate 8 0%nat) (callers 1 w) =
      {| shared := w'; tasks := [Finished r] |}.
Proof. apply (single_caller_retrying net 2 1 w). Qed.

(** * Traces of status queries *)

Lemma silent_app t1 t2 : silent t1 -> silent t2 -> silent (t1 ++ t2).
Proof. unfold silent. intros. apply Forall_app; auto. Qed.

Lemma query_trace_app r t1 t2 :
  silent t1 -> query_trace r t2 -> query_trace r (t1 ++ t2).
Proof.
  intros H1. destruct r as [status| |]; simpl; try (now apply silent_app).
  intros (pre & e & -> & Hpre & He). exists (t1 ++ pre), e.
  rewrite app_assoc. split; [reflexivity|]. split; [now apply silent_app|assumption].
Qed.

(** Where an answered query sits in a trace that starts silently. *)
Lemma split_after_silent t1 t2 pre e post status :
  silent t1 -> t1 ++ t2 = pre ++ e :: post -> status_report e = Some status ->
  exists pre', pre = t1 ++ pre' /\ t2 = pre' ++ e :: post.
Proof.
  intros Hs. revert pre. induction Hs as [|x t1 Hx Hs IH]; intros pre Heq He.
  - exists pre. split; [reflexivity|assumption].
  - destruct pre as [|y pre]; simpl in Heq; injection Heq as -> Heq.
    + congruence.
    + destruct (IH pre Heq He) as (pre' & -> & ->). exists pre'. split; reflexivity.
Qed.

Lemma silent_no_report tr pre e post status :
  silent tr -> tr = pre ++ e :: post -> status_report e = Some status -> False.
Proof.
  intros Hs Heq He. rewrite <- (app_nil_r tr) in Heq.
  destruct (split_after_silent _ _ _ _ _ _ Hs Heq He) as (pre' & _ & Hnil).
  destruct pre'; discriminate.
Qed.

(** The retry loop keeps the shape of a query trace. *)
Lemma retrying_query_trace retry_if wait (fn : M json) :
  (forall w r w1 t1, fn w = (r, w1, t1) -> query_trace r t1) ->
  forall remaining n w r w1 t1,
    retrying retry_if wait remaining n fn w = (r, w1, t1) -> query_trace r t1.
Proof.
  intros Hfn.
  apply (retrying_inv retry_if wait fn (fun _ r _ tr => query_trace r tr)).
  - exact Hfn.
  - intros w e w1 t1 Hq. exact Hq.
  - intros w e w1 t1 d r w2 t2 Hq1 Hq2. apply query_trace_app; [exact Hq1|].
    change (EvBackoff d :: t2) with ([EvBackoff d] ++ t2).
    apply query_trace_app; [repeat constructor|exact Hq2].
Qed.

(** The retry loop keeps any property that holds of the function's events
    and of back-off waits. *)
Lemma retrying_events_forall {A} (P : event -> Prop) retry_if wait (fn : M A) :
  (forall d, P (EvBackoff d)) ->
  (forall w r w1 t1, fn w = (r, w1, t1) -> Forall P t1) ->
  forall remaining n w r w1 t1,
    retrying retry_if wait remaining n fn w = (r, w1, t1) -> Forall P t1.
Proof.
  intros Hb Hfn.
  apply (retrying_inv retry_if wait fn (fun _ _ _ tr => Forall P tr)).
  - exact Hfn.
  - auto.
  - intros w e w1 t1 d r w2 t2 Hq1 Hq2. apply Forall_app. split; [exact Hq1|].
    constructor; [apply Hb|exact Hq2].
Qed.

Lemma authenticate_body_events net w r w1 t1 :
  authenticate_body net w = (r, w1, t1) ->
  Forall (fun e => exists rep, e = EvHttp (token_request (self w)) rep) t1.
Proof.
  destruct (cache_valid w) eqn:Hc.
  - unfold cache_valid in Hc. destruct (_token (self w)) as [tok|] eqn:Ht; [|discriminate].
    rewrite (authenticate_body_hit net w tok); auto using negb_true_iff.
    + intros [= <- <- <-]. constructor.
    + now apply negb_true_iff.
  - rewrite authenticate_body_miss by assumption.
    destruct (exchange_events net w) as (r' & w' & ->).
    intros [= <- <- <-]. repeat constructor. eauto.
Qed.

Lemma authenticate_silent net w r w1 t1 :
  authenticate net w = (r, w1, t1) -> silent t1.
Proof.
  unfold authenticate, retry. apply retrying_events_forall.
  - reflexivity.
  - intros w0 r0 w2 t2 Hrun. apply authenticate_body_events in Hrun.
    eapply Forall_impl; [exact Hrun|]. intros e (rep & ->). reflexivity.
Qed.

Lemma get_workitem_status_body_trace net workitem_id w r w1 t1 :
  get_workitem_status_body net workitem_id w = (r, w1, t1) -> query_trace r t1.
Proof.
  unfold get_workitem_status_body, bind at 1.
  destruct (authenticate net w) as [[[tok|e|] wa] ta] eqn:Hauth;
    pose proof (authenticate_silent _ _ _ _ _ Hauth) as Hs;
    [|intros [= <- <- <-]; exact Hs..].
  unfold bind, http. set (rep := net (calls wa) (ReqWorkitemStatus tok workitem_id)).
  destruct (outcome_of rep) as [|resp] eqn:Hout.
  - intros [= <- <- <-]. apply silent_app; [exact Hs|].
    repeat constructor. simpl. now rewrite Hout.
  - unfold raise_for_status.
    destruct (is_success (status_code resp)) eqn:Hsucc; simpl.
    + unfold response_json. destruct (json_body resp) as [body|] eqn:Hbody; simpl.
      * intros [= <- <- <-]. exists ta, (EvHttp (ReqWorkitemStatus tok workitem_id) rep).
        split; [reflexivity|]. split; [exact Hs|].
        simpl. now rewrite Hout, Hsucc.
      * intros [= <- <- <-]. apply silent_app; [exact Hs|].
        repeat constructor. simpl. now rewrite Hout, Hsucc.
    + intros [= <- <- <-]. apply silent_app; [exact Hs|].
      repeat constructor. simpl. now rewrite Hout, Hsucc.
Qed.

Lemma get_workitem_status_trace net workitem_id w r w1 t1 :
  get_workitem_status net workitem_id w = (r, w1, t1) -> query_trace r t1.
Proof.
  unfold get_workitem_status, retry. apply retrying_query_trace.
  intros w0 r0 w2 t2. apply get_workitem_status_body_trace.
Qed.

(** * The polling loop *)

(** One iteration of the loop, spelled out. *)
Lemma poll_step query fuel start_time max_wait poll_interval w :
  poll_loop query (S fuel) start_time max_wait poll_interval w =
    if clock w - start_time <? max_wait then
      match query w with
      | (Ok status, w1, t1) =>
          match verdict status with
          | Some r => (r, w1, t1)
          | None =>
              let '(r, w2, t2) :=
                poll_loop query fuel start_time max_wait poll_interval
                          (advance poll_interval w1) in
              (r, w2, t1 ++ EvSleep poll_interval :: t2)
          end
      | other => other
      end
    else (Raise (TimeoutError (MsgTimeout max_wait)), w, []).
Proof.
  simpl. unfold bind at 1, time.
  destruct (clock w - start_time <? max_wait); [|reflexivity].
  unfold bind at 1. destruct (query w) as [[[status|e|] w1] t1]; try reflexivity.
  unfold verdict. destruct status as [|b|n|s|items|fields];
    try (simpl; rewrite !app_nil_r; reflexivity).
  unfold py_get at 1, bind at 1, ret at 1.
  destruct (json_is_str (default JNull (dict_lookup "status" fields)) "success").
  { simpl. rewrite !app_nil_r. reflexivity. }
  destruct (json_is_str (default JNull (dict_lookup "status" fields))
              "failedInstructions").
  { simpl. rewrite !app_nil_r. reflexivity. }
  destruct (json_is_str (default JNull (dict_lookup "status" fields)) "cancelled").
  { simpl. rewrite !app_nil_r. reflexivity. }
  unfold bind, sleep.
  destruct (poll_loop query fuel start_time max_wait poll_interval
              (advance poll_interval w1)) as [[r w2] t2].
  simpl. reflexivity.
Qed.

Lemma poll_out_of_fuel query start_time max_wait poll_interval w :
  poll_loop query 0 start_time max_wait poll_interval w =
    if clock w - start_time <? max_wait then (OutOfFuel, w, [])
    else (Raise (TimeoutError (MsgTimeout max_wait)), w, []).
Proof.
  simpl. unfold bind, time. destruct (clock w - start_time <? max_wait); reflexivity.
Qed.

Section Polling.
Variable query : M json.
Hypothesis query_ok : forall w r w1 t1, query w = (r, w1, t1) -> query_trace r t1.

(** After a status document on which the loop ends, nothing more happens
    and the loop's result is the verdict on that document; after any other
    document the loop sleeps. *)
Lemma poll_loop_reports start_time max_wait poll_interval :
  forall fuel w r w' tr pre e post status,
    poll_loop query fuel start_time max_wait poll_interval w = (r, w', tr) ->
    tr = pre ++ e :: post ->
    status_report e = Some status ->
    match verdict status with
    | Some r' => post = [] /\ r = r'
    | None => exists rest, post = EvSleep poll_interval :: rest
    end.
Proof.
  induction fuel as [|fuel IH]; intros w r w' tr pre e post status Hrun Heq He.
  { rewrite poll_out_of_fuel in Hrun.
    destruct (clock w - start_time <? max_wait); injection Hrun as <- <- <-;
      destruct pre; discriminate. }
  rewrite poll_step in Hrun.
  destruct (clock w - start_time <? max_wait).
  2:{ injection Hrun as <- <- <-. destruct pre; discriminate. }
  destruct (query w) as [[[doc|e0|] w1] t1] eqn:Hq;
    pose proof (query_ok _ _ _ _ Hq) as Ht; simpl in Ht.
  2,3: injection Hrun as <- <- <-; exfalso; eapply silent_no_report; eauto.
  destruct Ht as (p & h & -> & Hp & Hh).
  destruct (verdict doc) as [rd|] eqn:Hv.
  - injection Hrun as <- <- <-.
    destruct (split_after_silent _ _ _ _ _ _ Hp Heq He) as (pre' & -> & Hsplit).
    destruct pre' as [|x pre']; simpl in Hsplit.
    + injection Hsplit as <- <-. rewrite Hh in He. injection He as <-.
      rewrite Hv. split; reflexivity.
    + injection Hsplit as _ Hnil. destruct pre'; discriminate.
  - destruct (poll_loop query fuel start_time max_wait poll_interval
                (advance poll_interval w1)) as [[r2 w2] t2] eqn:Hrest.
    injection Hrun as <- <- <-. rewrite <- app_assoc in Heq.
    destruct (split_after_silent _ _ _ _ _ _ Hp Heq He) as (pre' & -> & Hsplit).
    destruct pre' as [|x pre']; simpl in Hsplit.
    + injection Hsplit as <- <-. rewrite Hh in He. injection He as <-.
      rewrite Hv. eauto.
    + injection Hsplit as <- Hsplit.
      destruct pre' as [|y pre']; simpl in Hsplit; injection Hsplit as <- Hsplit.
      * discriminate.
      * eapply IH; eauto.
Qed.
End Polling.

Lemma poll_workitem_reports net fuel workitem_id max_wait poll_interval
    w r w' tr pre e post status :
  poll_workitem net fuel workitem_id max_wait poll_interval w = (r, w', tr) ->
  tr = pre ++ e :: post ->
  status_report e = Some status ->
  match verdict status with
  | Some r' => post = [] /\ r = r'
  | None => exists rest, post = EvSleep poll_interval :: rest
  end.
Proof.
  unfold poll_workitem, bind, time.
  destruct (poll_loop _ fuel (clock w) max_wait poll_interval w)
    as [[r0 w0] t0] eqn:Hrun.
  intros [= <- <- <-] Heq He. simpl in Heq.
  eapply poll_loop_reports; eauto.
  intros; eapply get_workitem_status_trace; eauto.
Qed.

(** C4: whatever the service answers, once a status query of
    [poll_workitem] is answered with a document whose "status" is "success",
    that document is returned and the run has no later event: no further
    query, no further sleep. *)
Theorem poll_returns_on_first_success net fuel workitem_id max_wait
    poll_interval w r w' tr pre e post status :
  poll_workitem net fuel workitem_id max_wait poll_interval w = (r, w', tr) ->
  tr = pre ++ e :: post ->
  status_report e = Some status ->
  field "status" JNull status = JStr "success" ->
  post = [] /\ r = Ok status.
Proof.
  intros Hrun Heq He Hs.
  pose proof (poll_workitem_reports _ _ _ _ _ _ _ _ _ _ _ _ _ Hrun Heq He) as H.
  destruct status as [|b|n|s|items|fields]; try discriminate.
  unfold verdict in H. simpl in Hs. rewrite Hs in H. exact H.
Qed.

(** "inprogress", then "success": the run ends with the second answer. *)
Lemma poll_returns_on_first_success_witness :
  poll_workitem net_success_second 10 (JStr "job-1") 600 5 world_tok =
    (Ok (status_doc "success"),
     {| clock := 1007; calls := 2; self := set_token token0 client0 |},
     [status_event net_success_second 0; EvSleep 5] ++
       status_event net_success_second 1 :: []) /\
  ([] : list event) = [] /\
  Ok (status_doc "success") = Ok (status_doc "success").
Proof.
  split; [reflexivity|].
  apply (poll_returns_on_first_success net_success_second 10 (JStr "job-1")
           600 5 world_tok (Ok (status_doc "success"))
           {| clock := 1007; calls := 2; self := set_token token0 client0 |}
           ([status_event net_success_second 0; EvSleep 5] ++
              status_event net_success_second 1 :: [])
           [status_event net_success_second 0; EvSleep 5]
           (status_event net_success_second 1) [] (status_doc "success"));
    reflexivity.
Defined.

(** C5 as amended: once a status query of [poll_workitem] is answered with a
    document whose "status" is "failedInstructions" (the spelling the code
    compares with), the call raises [RuntimeError] with the document's
    "reportUrl" (or "No report") in its message and the run has no later
    event.  A document whose "status" is spelled "failedinstructions" does
    not end the wait: the loop sleeps for the poll interval and goes on. *)
Theorem poll_fails_on_failedInstructions net fuel workitem_id max_wait
    poll_interval w r w' tr pre e post status :
  poll_workitem net fuel workitem_id max_wait poll_interval w = (r, w', tr) ->
  tr = pre ++ e :: post ->
  status_report e = Some status ->
  (field "status" JNull status = JStr "failedInstructions" ->
     post = [] /\
     r = Raise (RuntimeError
                  (MsgWorkItemFailed (field "reportUrl" (JStr "No report") status)))) /\
  (field "status" JNull status = JStr "failedinstructions" ->
     exists rest, post = EvSleep poll_interval :: rest).
Proof.
  intros Hrun Heq He.
  pose proof (poll_workitem_reports _ _ _ _ _ _ _ _ _ _ _ _ _ Hrun Heq He) as H.
  split; intros Hs; destruct status as [|b|n|s|items|fields]; try discriminate;
    unfold verdict in H; simpl in Hs; rewrite Hs in H; exact H.
Qed.

(** A first answer "failedInstructions" ends the run with the report. *)
Lemma poll_fails_on_failedInstructions_witness :
  poll_workitem (net_status 1 "failedInstructions") 10 (JStr "job-1") 600 5 world_tok =
    (Raise (RuntimeError (MsgWorkItemFailed (JStr "https://x/report"))),
     {| clock := 1001; calls := 1; self := set_token token0 client0 |},
     [] ++ status_event (net_status 1 "failedInstructions") 0 :: []) /\
  ([] : list event) = [] /\
  Raise (RuntimeError (MsgWorkItemFailed (JStr "https://x/report"))) =
    Raise (A := json) (RuntimeError
      (MsgWorkItemFailed
         (field "reportUrl" (JStr "No report") (status_doc "failedInstructions")))).
Proof.
  split; [reflexivity|].
  apply (poll_fails_on_failedInstructions (net_status 1 "failedInstructions") 10
           (JStr "job-1") 600 5 world_tok
           (Raise (RuntimeError (MsgWorkItemFailed (JStr "https://x/report"))))
           {| clock := 1001; calls := 1; self := set_token token0 client0 |}
           ([] ++ status_event (net_status 1 "failedInstructions") 0 :: []) []
           (status_event (net_status 1 "failedInstructions") 0) []
           (status_doc "failedInstructions") eq_refl eq_refl eq_refl).
  reflexivity.
Defined.

(** C5 as stated fails: when the service reports "failedinstructions", the
    spelling of the wire protocol, the wait does not fail at the first
    report; it keeps polling and ends in [TimeoutError]. *)
Lemma lowercase_failedinstructions_not_terminal :
  poll_workitem (net_status 1 "failedinstructions") 10 (JStr "job-1") 12 5 world_tok =
    (Raise (TimeoutError (MsgTimeout 12)),
     {| clock := 1012; calls := 2; self := set_token token0 client0 |},
     [status_event (net_status 1 "failedinstructions") 0; EvSleep 5;
      status_event (net_status 1 "failedinstructions") 1; EvSleep 5]).
Proof. reflexivity. Qed.

(** * The deadline of the polling loop *)

Section Deadline.
Variable query : M json.
Variable Inv : world -> Prop.
Variables start_time max_wait poll_interval rtt : Z.
Hypothesis interval_pos : 0 < poll_interval.

(** Every query made before the deadline is answered within [rtt] with a
    document on which the loop goes on. *)
Hypothesis query_goes_on : forall w,
  Inv w -> clock w - start_time < max_wait ->
  exists status w1 t1,
    query w = (Ok status, w1, t1) /\ verdict status = None /\
    clock w <= clock w1 <= clock w + rtt /\
    Inv (advance poll_interval w1).

Lemma poll_loop_deadline : forall fuel w,
  Inv w ->
  (Z.to_nat (max_wait - (clock w - start_time)) <= fuel)%nat ->
  exists w' tr,
    poll_loop query fuel start_time max_wait poll_interval w =
      (Raise (TimeoutError (MsgTimeout max_wait)), w', tr) /\
    max_wait <= clock w' - start_time /\
    (clock w' = clock w \/
     clock w' - start_time < max_wait + rtt + poll_interval).
Proof.
  induction fuel as [|fuel IH]; intros w Hinv Hfuel.
  - rewrite poll_out_of_fuel.
    destruct (Z.ltb_spec (clock w - start_time) max_wait) as [Hlt|Hge]; [lia|].
    exists w, []. split; [reflexivity|]. split; [lia|]. left; reflexivity.
  - rewrite poll_step.
    destruct (Z.ltb_spec (clock w - start_time) max_wait) as [Hlt|Hge].
    + destruct (query_goes_on w Hinv Hlt) as (status & w1 & t1 & -> & -> & Hclk & Hinv1).
      destruct (IH (advance poll_interval w1) Hinv1) as (w' & tr & -> & Hmin & Hmax).
      { simpl. lia. }
      exists w', (t1 ++ EvSleep poll_interval :: tr).
      split; [reflexivity|]. split; [exact Hmin|].
      right. simpl in Hmax. lia.
    + exists w, []. split; [reflexivity|]. split; [lia|]. left; reflexivity.
Qed.
End Deadline.

Lemma get_workitem_status_cached net workitem_id w tok resp status :
  _token (self w) = Some tok ->
  is_expired tok (clock w) = false ->
  let rep := net (calls w) (ReqWorkitemStatus tok workitem_id) in
  outcome_of rep = Response resp ->
  is_success (status_code resp) = true ->
  json_body resp = Some status ->
  get_workitem_status net workitem_id w =
    (Ok status, after_http rep w, [EvHttp (ReqWorkitemStatus tok workitem_id) rep]).
Proof.
  intros Htok Hfresh rep Hout Hsucc Hbody.
  unfold get_workitem_status, retry. apply retrying_ok.
  unfold get_workitem_status_body, bind at 1.
  rewrite (authenticate_hit net w tok Htok Hfresh).
  unfold bind, http. fold rep. rewrite Hout.
  unfold raise_for_status. rewrite Hsucc. simpl.
  unfold response_json. rewrite Hbody. reflexivity.
Qed.

(** C6 as amended: if every status query is answered "inprogress" within
    [rtt] seconds, [poll_workitem] raises [TimeoutError]; it does so only
    once the elapsed wall-clock time has reached [max_wait], and the call
    lasts less than [max_wait] plus one round trip plus one poll interval
    (the deadline is tested only before a query, so the query that starts
    just before the deadline and the sleep after it still run).  The loop
    ends by the clock, whatever the number of queries: any budget of at
    least [max_wait] iterations suffices for a positive poll interval.
    [polling] is the set of worlds in which the queries are made. *)
Theorem poll_times_out_by_the_clock net fuel workitem_id max_wait
    poll_interval rtt (polling : world -> Prop) w :
  polling w ->
  (forall w0, polling w0 -> clock w0 - clock w < max_wait ->
     exists status w1 t1,
       get_workitem_status net workitem_id w0 = (Ok status, w1, t1) /\
       field "status" JNull status = JStr "inprogress" /\
       clock w0 <= clock w1 <= clock w0 + rtt /\
       polling (advance poll_interval w1)) ->
  0 <= max_wait -> 0 <= rtt -> 0 < poll_interval ->
  (Z.to_nat max_wait <= fuel)%nat ->
  exists w' tr,
    poll_workitem net fuel workitem_id max_wait poll_interval w =
      (Raise (TimeoutError (MsgTimeout max_wait)), w', tr) /\
    max_wait <= clock w' - clock w /\
    clock w' - clock w < max_wait + rtt + poll_interval.
Proof.
  intros Hw Hquery Hmw Hrtt Hpi Hfuel.
  unfold poll_workitem, bind, time.
  destruct (poll_loop_deadline (get_workitem_status net workitem_id)
              polling (clock w) max_wait poll_interval rtt Hpi)
    with (fuel := fuel) (w := w)
    as (w' & tr & -> & Hmin & Hmax).
  - intros w0 Hinv Hlt.
    destruct (Hquery w0 Hinv Hlt) as (status & w1 & t1 & Hrun & Hst & Hclk & Hinv1).
    exists status, w1, t1. split; [exact Hrun|]. split; [|split; assumption].
    destruct status as [|b|n|s|items|fields]; try discriminate.
    unfold verdict. simpl in Hst. rewrite Hst. reflexivity.
  - exact Hw.
  - replace (max_wait - (clock w - clock w)) with max_wait by lia. exact Hfuel.
  - exists w', tr. split; [reflexivity|]. split; [lia|]. lia.
Qed.

(** A 30-second wait polled every 10 seconds with 1-second round trips. *)
Lemma poll_times_out_by_the_clock_witness :
  exists w' tr,
    poll_workitem (net_status 1 "inprogress") 100 (JStr "job-1") 30 10 world_tok =
      (Raise (TimeoutError (MsgTimeout 30)), w', tr) /\
    30 <= clock w' - clock world_tok /\
    clock w' - clock world_tok < 30 + 1 + 10.
Proof.
  apply (poll_times_out_by_the_clock (net_status 1 "inprogress") 100
           (JStr "job-1") 30 10 1 (fun w0 => self w0 = self world_tok) world_tok).
  - reflexivity.
  - intros w0 Hself Hlt. simpl in Hlt.
    exists (status_doc "inprogress"),
      (after_http (net_status 1 "inprogress" (calls w0)
                     (ReqWorkitemStatus token0 (JStr "job-1"))) w0),
      [EvHttp (ReqWorkitemStatus token0 (JStr "job-1"))
              (net_status 1 "inprogress" (calls w0)
                 (ReqWorkitemStatus token0 (JStr "job-1")))].
    split; [|split; [reflexivity|split; [simpl; lia|exact Hself]]].
    apply (get_workitem_status_cached (net_status 1 "inprogress") (JStr "job-1")
             w0 token0
             {| status_code := 200; content := [];
                json_body := Some (status_doc "inprogress") |}
             (status_doc "inprogress")).
    + rewrite Hself. reflexivity.
    + apply is_expired_false. simpl. lia.
    + reflexivity.
    + reflexivity.
    + reflexivity.
  - lia.
  - lia.
  - lia.
  - vm_compute. lia.
Defined.

(** C6 as stated fails: with a round trip of one second and a poll interval
    of ten, a wait of at most 600 seconds lasts 605 seconds, more than
    [max_wait] plus one round trip. *)
Lemma poll_overruns_max_wait_plus_round_trip :
  exists w' tr,
    poll_workitem (net_status 1 "inprogress") 100 (JStr "job-1") 600 10 world_tok =
      (Raise (TimeoutError (MsgTimeout 600)), w', tr) /\
    Forall (fun e => match e with
                     | EvHttp _ rep => latency rep = 1%N
                     | _ => True
                     end) tr /\
    clock w' - clock world_tok = 605 /\
    600 + 1 < clock w' - clock world_tok.
Proof.
  eexists _, _. split; [vm_compute; reflexivity|].
  split; [repeat constructor|]. split; [reflexivity|vm_compute; reflexivity].
Qed.

(** * Retries at the three call sites *)


Lemma status_body_failed net workitem_id w tok :
  _token (self w) = Some tok ->
  is_expired tok (clock w) = false ->
  let req := ReqWorkitemStatus tok workitem_id in
  let rep := net (calls w) req in
  failed_reply rep = true ->
  get_workitem_status_body net workitem_id w =
    (Raise (reply_error rep), after_http rep w, [EvHttp req rep]).
Proof.
  intros Htok Hfresh req rep Hf. unfold get_workitem_status_body, bind at 1.
  rewrite (authenticate_hit net w tok Htok Hfresh).
  unfold bind, http. fold req rep. unfold failed_reply, reply_error in *.
  destruct (outcome_of rep) as [|resp]; [reflexivity|].
  unfold raise_for_status. destruct (is_success (status_code resp)); [discriminate|].
  reflexivity.
Qed.

Lemma transport_failure_failed rep :
  transport_failure rep = true ->
  failed_reply rep = true /\ reply_error rep = RequestError.
Proof.
  unfold transport_failure, failed_reply, reply_error.
  destruct (outcome_of rep); [auto|discriminate].
Qed.





(** * The client singleton *)

Lemma get_aps_client_creates id secret reg st :
  must_create id st ->
  get_aps_client id secret reg st =
    (fresh (dom (heap st)),
     {| heap := <[fresh (dom (heap st)) :=
                    {| client_id := id; client_secret := secret;
                       region := reg; _token := None |}]> (heap st);
        _aps_client := Some (fresh (dom (heap st))) |}).
Proof.
  unfold must_create, get_aps_client, current_client, new_client.
  destruct (_aps_client st) as [addr|]; [|reflexivity].
  destruct (heap st !! addr) as [c|]; [|reflexivity].
  intros Hne. destruct (String.eqb_spec (client_id c) id); [contradiction|reflexivity].
Qed.

Lemma get_aps_client_reuses id secret reg st addr c :
  _aps_client st = Some addr -> heap st !! addr = Some c -> client_id c = id ->
  get_aps_client id secret reg st = (addr, st).
Proof.
  intros Hg Hc Hid. unfold get_aps_client, current_client. rewrite Hg, Hc.
  destruct (String.eqb_spec (client_id c) id); [reflexivity|contradiction].
Qed.

Lemma must_create_dec id st : must_create id st \/ ~ must_create id st.
Proof.
  unfold must_create. destruct (current_client st) as [c|]; [|auto].
  destruct (decide (client_id c = id)); [right|left]; auto.
Qed.

(** After any call the global refers to a client with the requested id. *)
Lemma get_aps_client_current id secret reg st :
  exists c,
    _aps_client (get_aps_client id secret reg st).2
      = Some (get_aps_client id secret reg st).1 /\
    heap (get_aps_client id secret reg st).2
      !! (get_aps_client id secret reg st).1 = Some c /\
    client_id c = id.
Proof.
  destruct (must_create_dec id st) as [Hc|Hn].
  - rewrite get_aps_client_creates by assumption. simpl.
    eexists. split; [reflexivity|]. rewrite lookup_insert_eq. split; reflexivity.
  - unfold must_create, current_client in Hn.
    destruct (_aps_client st) as [addr|] eqn:Hg; [|tauto].
    destruct (heap st !! addr) as [c|] eqn:Hl; [|tauto].
    destruct (decide (client_id c = id)) as [Hid|Hid]; [|tauto].
    rewrite (get_aps_client_reuses id secret reg st addr c) by assumption.
    exists c. auto.
Qed.

(** C9: of two calls with the same client id, the second returns the
    instance the first returned and changes nothing, whatever secret and
    region it is given; when the first call constructed that instance, the
    instance carries the first call's secret and region also after the
    second call.  A call constructs a new instance exactly when no instance
    exists yet or the existing one has another client id. *)
Theorem get_aps_client_keeps_first_instance id s1 r1 s2 r2 st :
  let first := get_aps_client id s1 r1 st in
  let second := get_aps_client id s2 r2 first.2 in
  second.1 = first.1 /\
  second.2 = first.2 /\
  (must_create id st ->
     heap second.2 !! second.1 =
       Some {| client_id := id; client_secret := s1; region := r1;
               _token := None |}) /\
  (must_create id st <-> first.1 ∉ dom (heap st)) /\
  (~ must_create id st -> first.2 = st).
Proof.
  intros first second.
  destruct (get_aps_client_current id s1 r1 st) as (c & Hg & Hc & Hid).
  fold first in Hg, Hc.
  assert (Hsecond : second = (first.1, first.2)).
  { apply (get_aps_client_reuses id s2 r2 first.2 first.1 c); assumption. }
  rewrite Hsecond. simpl.
  split; [reflexivity|]. split; [reflexivity|].
  split; [|split].
  - intros Hm. subst first. rewrite get_aps_client_creates by assumption.
    simpl. apply lookup_insert_eq.
  - split.
    + intros Hm. subst first. rewrite get_aps_client_creates by assumption.
      simpl. apply is_fresh.
    + intros Hnew. destruct (must_create_dec id st) as [Hm|Hn]; [assumption|].
      exfalso. apply Hnew. clear Hsecond second Hg Hc.
      unfold must_create, current_client in Hn.
      destruct (_aps_client st) as [addr|] eqn:Hgs; [|tauto].
      destruct (heap st !! addr) as [c0|] eqn:Hl; [|tauto].
      destruct (decide (client_id c0 = id)) as [Hid0|Hid0]; [|tauto].
      subst first. rewrite (get_aps_client_reuses id s1 r1 st addr c0) by assumption.
      simpl. apply elem_of_dom. eauto.
  - intros Hn. clear Hsecond second Hg Hc.
    unfold must_create, current_client in Hn.
    destruct (_aps_client st) as [addr|] eqn:Hgs; [|tauto].
    destruct (heap st !! addr) as [c0|] eqn:Hl; [|tauto].
    destruct (decide (client_id c0 = id)) as [Hid0|Hid0]; [|tauto].
    subst first. rewrite (get_aps_client_reuses id s1 r1 st addr c0) by assumption.
    reflexivity.
Qed.

(** A second request with another secret and region gets the first client. *)
Lemma get_aps_client_keeps_first_instance_witness :
  must_create "my-client" module0 /\
  heap (get_aps_client "my-client" "other-secret" "eu-west"
          (get_aps_client "my-client" "my-secret" "us-east" module0).2).2
    !! (get_aps_client "my-client" "other-secret" "eu-west"
          (get_aps_client "my-client" "my-secret" "us-east" module0).2).1
  = Some client0.
Proof.
  split; [exact I|].
  destruct (get_aps_client_keeps_first_instance "my-client" "my-secret"
              "us-east" "other-secret" "eu-west" module0)
    as (_ & _ & H & _).
  exact (H I).
Defined.

(** * Downloading the outputs *)

Lemma dict_set_fresh {A} (k : string) (v : A) d :
  k ∉ d.*1 -> dict_set k v d = d ++ [(k, v)].
Proof.
  induction d as [|[k' v'] d IH]; simpl; intros Hk; [reflexivity|].
  apply not_elem_of_cons in Hk as [Hne Hk].
  destruct (String.eqb_spec k k') as [->|_]; [contradiction|].
  rewrite IH by assumption. reflexivity.
Qed.

Lemma download_file_ok net url w resp :
  outcome_of (net (calls w) (ReqDownload url)) = Response resp ->
  is_success (status_code resp) = true ->
  download_file net (JStr url) w =
    (Ok (content resp), after_http (net (calls w) (ReqDownload url)) w,
     [EvHttp (ReqDownload url) (net (calls w) (ReqDownload url))]).
Proof.
  intros Hout Hsucc. unfold download_file, bind, http. rewrite Hout.
  unfold raise_for_status. rewrite Hsucc. reflexivity.
Qed.

(** The loop downloads the entries that carry a url, one request each and
    in order, adds one output per download and passes over the others. *)
Lemma download_outputs_run net :
  downloads_succeed net ->
  forall items outputs w,
    locations_are_strings items ->
    NoDup (outputs.*1 ++ items.*1) ->
    exists new w' tr,
      download_outputs net items outputs w = (Ok (outputs ++ new), w', tr) /\
      new.*1 = (wanted items).*1 /\
      omap request_of tr = ReqDownload <$> (wanted items).*2 /\
      length tr = length (wanted items).
Proof.
  intros Hnet. induction items as [|[name info] items IH];
    intros outputs w Hstr Hnd.
  - exists [], w, []. rewrite app_nil_r. repeat split; reflexivity.
  - apply Forall_cons in Hstr as [Hurl Hstr]. simpl in Hurl.
    simpl download_outputs. unfold wanted. simpl omap.
    fold (wanted items).
    assert (Hnd' : NoDup (outputs.*1 ++ items.*1)).
    { simpl in Hnd. apply NoDup_app in Hnd as (H1 & H2 & H3).
      apply NoDup_cons in H3 as [_ H3]. apply NoDup_app. repeat split; auto.
      intros x Hx Hin. apply (H2 x Hx). now right. }
    destruct (output_url info) as [url|]; simpl.
    + destruct Hurl as [address ->].
      destruct (Hnet (calls w) address) as (resp & Hout & Hsucc).
      unfold bind at 1. rewrite (download_file_ok net address w resp Hout Hsucc).
      assert (Hfresh : name ∉ outputs.*1).
      { simpl in Hnd. apply NoDup_app in Hnd as (_ & H2 & _).
        intros Hin. apply (H2 name Hin). now left. }
      rewrite (dict_set_fresh name (content resp) outputs Hfresh).
      destruct (IH (outputs ++ [(name, content resp)])
                   (after_http (net (calls w) (ReqDownload address)) w) Hstr)
        as (new & w' & tr & -> & Hnames & Hreqs & Hlen).
      { rewrite fmap_app. simpl. rewrite <- app_assoc. simpl. exact Hnd. }
      exists ((name, content resp) :: new), w',
        (EvHttp (ReqDownload address) (net (calls w) (ReqDownload address)) :: tr).
      rewrite <- app_assoc. simpl. repeat split; try reflexivity.
      * f_equal. exact Hnames.
      * f_equal. exact Hreqs.
      * f_equal. exact Hlen.
    + destruct (IH outputs w Hstr Hnd') as (new & w' & tr & -> & Hnames & Hreqs & Hlen).
      exists new, w', tr. repeat split; assumption.
Qed.

(** C1 as amended: the download step has no notion of an expected output.
    For a final status whose "arguments" (an empty dict when absent) is a
    dict in which every "url" is a string, and as long as the downloads
    themselves succeed, it returns normally: it downloads exactly the
    entries that are dicts with a "url" key, one request each and in order,
    returns one artifact for each of them, and passes over every other
    entry without raising anything. *)
Theorem fetch_skips_outputs_without_url net final_status items w :
  downloads_succeed net ->
  is_dict final_status = true ->
  field "arguments" (JObj []) final_status = JObj items ->
  locations_are_strings items ->
  NoDup items.*1 ->
  exists outputs w' tr,
    fetch_outputs net final_status w = (Ok (final_status, outputs), w', tr) /\
    outputs.*1 = (wanted items).*1 /\
    omap request_of tr = ReqDownload <$> (wanted items).*2 /\
    length tr = length (wanted items).
Proof.
  intros Hnet Hd Hargs Hstr Hnd.
  destruct final_status as [|b|n|s|its|fields]; try discriminate.
  simpl in Hargs. unfold fetch_outputs, py_get, bind at 1, ret at 1.
  rewrite Hargs. unfold py_items, bind at 1, ret at 1.
  destruct (download_outputs_run net Hnet items [] w Hstr Hnd)
    as (new & w' & tr & Hrun & Hnames & Hreqs & Hlen).
  unfold bind. rewrite Hrun. simpl.
  exists new, w', (tr ++ []). rewrite app_nil_r. repeat split; assumption.
Qed.

(** Of two outputs one has a location: one download, one artifact. *)
Lemma fetch_skips_outputs_without_url_witness :
  exists outputs w' tr,
    fetch_outputs net_one_location status_one_location world_tok =
      (Ok (status_one_location, outputs), w', tr) /\
    outputs.*1 = ["outputFamily"] /\
    omap request_of tr = [ReqDownload "https://x/family.rfa"] /\
    length tr = 1%nat.
Proof.
  apply (fetch_skips_outputs_without_url net_one_location status_one_location
           [("outputFamily", JObj [("verb", JStr "put");
                                   ("url", JStr "https://x/family.rfa")]);
            ("outputManifest", JObj [("verb", JStr "put")])] world_tok).
  - intros n url. eexists. split; reflexivity.
  - reflexivity.
  - reflexivity.
  - repeat constructor; eexists; reflexivity.
  - compute_done.
Defined.

(** C1 as stated fails: the final status lacks a location for
    "outputManifest", yet [create_workitem_and_wait] returns normally, with
    the one artifact it could download (three bytes) and no error. *)
Lemma partial_outputs_returned_silently :
  field "arguments" JNull status_one_location =
    JObj [("outputFamily", JObj [("verb", JStr "put");
                                 ("url", JStr "https://x/family.rfa")]);
          ("outputManifest", JObj [("verb", JStr "put")])] /\
  exists w' tr,
    create_workitem_and_wait net_one_location 10 "nick.Act+prod"
        submitted_arguments 600 world0 =
      (Ok (status_one_location,
           [("outputFamily", [Byte.x52; Byte.x46; Byte.x41])]), w', tr) /\
    omap request_of (drop 3 tr) = [ReqDownload "https://x/family.rfa"].
Proof. split; [reflexivity|]. eexists _, _. split; vm_compute; reflexivity. Qed.

(** * Further properties of [authenticate] *)

Lemma same_identity_refl c : same_identity c c.
Proof. repeat split. Qed.

Lemma same_identity_trans c1 c2 c3 :
  same_identity c1 c2 -> same_identity c2 c3 -> same_identity c1 c3.
Proof. unfold same_identity. intros (?&?&?) (?&?&?). repeat split; congruence. Qed.

Lemma authenticate_body_post net w r w1 t1 :
  authenticate_body net w = (r, w1, t1) ->
  same_identity (self w) (self w1) /\
  (forall tok, r = Ok tok -> _token (self w1) = Some tok) /\
  clock w <= clock w1.
Proof.
  destruct (cache_valid w) eqn:Hc.
  - unfold cache_valid in Hc.
    destruct (_token (self w)) as [tok|] eqn:Ht; [|discriminate].
    rewrite (authenticate_body_hit net w tok Ht) by now apply negb_true_iff.
    intros [= <- <- <-]. split; [apply same_identity_refl|].
    split; [intros tok' [= <-]; exact Ht|lia].
  - rewrite authenticate_body_miss, exchange_run by assumption.
    repeat case_match; intros [= <- <- <-]; simpl;
      (split; [unfold same_identity; simpl; auto|]);
      (split; [intros tok' [=]; subst; reflexivity|lia]).
Qed.

(** X1: whatever the network does and however the call ends,
    [authenticate] leaves the client's id, secret and region as they were and
    never moves the clock back; when it returns a token, that token is the
    one now held in the cache. *)
Theorem authenticate_keeps_identity_and_caches net w r w' tr :
  authenticate net w = (r, w', tr) ->
  same_identity (self w) (self w') /\
  (forall tok, r = Ok tok -> _token (self w') = Some tok) /\
  clock w <= clock w'.
Proof.
  unfold authenticate, retry.
  apply (retrying_inv _ _ _
           (fun w r w1 _ =>
              same_identity (self w) (self w1) /\
              (forall tok, r = Ok tok -> _token (self w1) = Some tok) /\
              clock w <= clock w1)).
  - apply authenticate_body_post.
  - intros w0 e w1 t1 (Hid & _ & Hclk). split; [exact Hid|]. split; [discriminate|exact Hclk].
  - intros w0 e w1 t1 d r0 w2 t2 (Hid1 & _ & Hclk1) (Hid2 & Htok & Hclk2).
    split; [eapply same_identity_trans; [exact Hid1|exact Hid2]|].
    split; [exact Htok|]. simpl in Hclk2. lia.
Qed.

Lemma authenticate_keeps_identity_and_caches_witness :
  same_identity client0
    (set_token (mkToken (JStr "abc") 4603 (JStr "Bearer")) client0) /\
  (forall tok, Ok (mkToken (JStr "abc") 4603 (JStr "Bearer")) = Ok tok ->
     _token (set_token (mkToken (JStr "abc") 4603 (JStr "Bearer")) client0)
       = Some tok) /\
  1000 <= 1004.
Proof.
  exact (authenticate_keeps_identity_and_caches net_500_then_granting world0
           (Ok (mkToken (JStr "abc") 4603 (JStr "Bearer")))
           {| clock := 1004; calls := 2;
              self := set_token (mkToken (JStr "abc") 4603 (JStr "Bearer")) client0 |}
           [EvHttp (token_request client0)
                   (net_500_then_granting 0%nat (token_request client0));
            EvBackoff 2;
            EvHttp (token_request client0)
                   (net_500_then_granting 1%nat (token_request client0))]
           eq_refl).
Defined.

(** The retry loop calls the network at most once more than the function
    does per attempt allowed. *)
Lemma retrying_calls_bound {A} retry_if wait (fn : M A) :
  (forall w r w1 t1, fn w = (r, w1, t1) ->
     (calls w <= calls w1 <= calls w + 1)%nat) ->
  forall remaining n w r w1 t1,
    retrying retry_if wait remaining n fn w = (r, w1, t1) ->
    (calls w <= calls w1 <= calls w + S remaining)%nat.
Proof.
  intros Hfn.
  induction remaining as [|k IH]; intros n w r w1 t1;
    destruct (fn w) as [[[a|e0|] w0] t0] eqn:Hrun;
    pose proof (Hfn _ _ _ _ Hrun) as Hq;
    try (rewrite (retrying_ok _ _ _ _ _ _ _ _ _ Hrun); intros [= <- <- <-]; lia);
    try (simpl; unfold try_catch; rewrite Hrun; intros [= <- <- <-]; lia);
    (destruct (retry_if e0) eqn:He;
     [|rewrite (retrying_fatal _ _ _ _ _ _ _ _ _ Hrun He); intros [= <- <- <-];
       lia]).
  - rewrite (retrying_last _ _ _ _ _ _ _ _ Hrun He). intros [= <- <- <-]. lia.
  - rewrite (retrying_again _ _ _ _ _ _ _ _ _ Hrun He).
    destruct (retrying retry_if wait k (S n) fn (advance (wait n) w0))
      as [[r' w2] t2] eqn:Hrest.
    intros [= <- <- <-]. apply IH in Hrest. simpl in Hrest. lia.
Qed.

Lemma authenticate_body_calls net w r w1 t1 :
  authenticate_body net w = (r, w1, t1) ->
  (calls w <= calls w1 <= calls w + 1)%nat.
Proof.
  destruct (cache_valid w) eqn:Hc.
  - unfold cache_valid in Hc.
    destruct (_token (self w)) as [tok|] eqn:Ht; [|discriminate].
    rewrite (authenticate_body_hit net w tok Ht) by now apply negb_true_iff.
    intros [= <- <- <-]. lia.
  - rewrite authenticate_body_miss, exchange_run by assumption.
    repeat case_match; intros [= <- <- <-]; simpl; lia.
Qed.

(** The events of [authenticate] are token requests of the client and
    two-second waits. *)
Lemma authenticate_events net w r w' tr :
  authenticate net w = (r, w', tr) -> Forall (auth_event (self w)) tr.
Proof.
  intros Hrun.
  assert (Hgen : forall remaining n w0 r0 w1 t1,
    (1 <= n)%nat -> (n + remaining <= 3)%nat ->
    retrying retry_if_status_or_request (wait_exponential 1 2 10) remaining n
      (authenticate_body net) w0 = (r0, w1, t1) ->
    Forall (auth_event (self w0)) t1 /\ same_identity (self w0) (self w1)).
  { induction remaining as [|k IH]; intros n w0 r0 w1 t1 Hn Hle;
      destruct (authenticate_body net w0) as [[[a|e0|] wb] tb] eqn:Hb;
      pose proof (authenticate_body_events _ _ _ _ _ Hb) as Hev;
      pose proof (authenticate_body_post _ _ _ _ _ Hb) as (Hid & _ & _);
      assert (Hev' : Forall (auth_event (self w0)) tb)
        by (eapply Forall_impl; [exact Hev|]; intros e (rep & ->); right; eauto);
      try (rewrite (retrying_ok _ _ _ _ _ _ _ _ _ Hb); intros [= <- <- <-]; auto);
      try (simpl; unfold try_catch; rewrite Hb; intros [= <- <- <-]; auto);
      (destruct (retry_if_status_or_request e0) eqn:He;
       [|rewrite (retrying_fatal _ _ _ _ _ _ _ _ _ Hb He); intros [= <- <- <-];
         auto]).
    - rewrite (retrying_last _ _ _ _ _ _ _ _ Hb He). intros [= <- <- <-]. auto.
    - rewrite (retrying_again _ _ _ _ _ _ _ _ _ Hb He).
      destruct (retrying retry_if_status_or_request (wait_exponential 1 2 10) k
                  (S n) (authenticate_body net)
                  (advance (wait_exponential 1 2 10 n) wb))
        as [[r' w2] t2] eqn:Hrest.
      intros [= <- <- <-]. apply IH in Hrest as (Hev2 & Hid2); [|lia|lia].
      simpl in Hev2, Hid2. split.
      + apply Forall_app. split; [exact Hev'|]. constructor.
        * left. f_equal.
          assert (n = 1 \/ n = 2)%nat as [->| ->] by lia; reflexivity.
        * eapply Forall_impl; [exact Hev2|].
          intros e [->|(rep & ->)]; [left; reflexivity|right].
          exists rep. unfold token_request. destruct Hid as (-> & -> & _).
          reflexivity.
      + eapply same_identity_trans; eauto. }
  unfold authenticate, retry in Hrun. simpl Nat.pred in Hrun.
  apply Hgen in Hrun as (H & _); [exact H|lia|lia].
Qed.

(** X2: one call of [authenticate] sends at most three requests, each of
    them a token request carrying this client's id and secret, and apart
    from those it only waits, two seconds at a time. *)
Theorem authenticate_traffic_bounded net w r w' tr :
  authenticate net w = (r, w', tr) ->
  (calls w <= calls w' <= calls w + 3)%nat /\
  Forall (auth_event (self w)) tr.
Proof.
  intros Hrun. split.
  - unfold authenticate, retry in Hrun.
    apply (retrying_calls_bound _ _ _ (authenticate_body_calls net)) in Hrun.
    simpl in Hrun. lia.
  - eapply authenticate_events, Hrun.
Qed.

Lemma authenticate_traffic_bounded_witness :
  (0 <= 3 <= 0 + 3)%nat /\
  Forall (auth_event client0)
    [EvHttp (token_request client0) (net_401 0%nat (token_request client0));
     EvBackoff 2;
     EvHttp (token_request client0) (net_401 1%nat (token_request client0));
     EvBackoff 2;
     EvHttp (token_request client0) (net_401 2%nat (token_request client0))].
Proof.
  exact (authenticate_traffic_bounded net_401 world0
           (Raise (RetryError (HTTPStatusError 401)))
           {| clock := 1007; calls := 3; self := client0 |} _ eq_refl).
Defined.



(** * Further properties of the status query and of the wait *)

Lemma status_body_ok net workitem_id w tok status :
  _token (self w) = Some tok ->
  is_expired tok (clock w) = false ->
  let req := ReqWorkitemStatus tok workitem_id in
  let rep := net (calls w) req in
  status_report (EvHttp req rep) = Some status ->
  get_workitem_status_body net workitem_id w =
    (Ok status, after_http rep w, [EvHttp req rep]).
Proof.
  intros Htok Hfresh req rep Hrep. unfold get_workitem_status_body, bind at 1.
  rewrite (authenticate_hit net w tok Htok Hfresh).
  unfold bind, http. fold req rep. simpl in Hrep.
  destruct (outcome_of rep) as [|resp]; [discriminate|].
  unfold raise_for_status. destruct (is_success (status_code resp)); [|discriminate].
  simpl. unfold response_json. rewrite Hrep. reflexivity.
Qed.

(** X4: a status query survives dropped requests.  With a token cached,
    if the first [k] requests ([k] at most two) get no response and the next
    one is answered 2xx with a JSON document, [get_workitem_status] returns
    that document after [k + 1] requests and [k] waits; the client object is
    untouched. *)
Theorem status_query_survives_dropped_requests net workitem_id w tok k status :
  _token (self w) = Some tok ->
  (k <= 2)%nat ->
  let query := ReqWorkitemStatus tok workitem_id in
  clock w + Z.of_N (latency (net (calls w) query))
          + Z.of_N (latency (net (S (calls w)) query)) + 3
    < expires_at tok - 300 ->
  (forall j, (j < k)%nat -> transport_failure (net (calls w + j)%nat query) = true) ->
  status_report (EvHttp query (net (calls w + k)%nat query)) = Some status ->
  exists w' tr,
    get_workitem_status net workitem_id w = (Ok status, w', tr) /\
    calls w' = (calls w + S k)%nat /\
    length (filter (fun e => is_backoff e = true) tr) = k /\
    self w' = self w.
Proof.
  intros Htok Hk query Hvalid Hdrop Hrep.
  assert (Hfresh : is_expired tok (clock w) = false)
    by (apply is_expired_false; lia).
  unfold get_workitem_status, retry. simpl Nat.pred.
  destruct k as [|[|[|k]]]; [| | |lia].
  - rewrite Nat.add_0_r in Hrep.
    rewrite (retrying_ok _ _ _ _ _ w status _ _
               (status_body_ok net workitem_id w tok status Htok Hfresh Hrep)).
    do 2 eexists. split; [reflexivity|]. simpl. repeat split; lia.
  - pose proof (Hdrop 0%nat ltac:(lia)) as H0. rewrite Nat.add_0_r in H0.
    destruct (transport_failure_failed _ H0) as [F0 E0].
    rewrite (retrying_again _ _ _ _ _ w RequestError _ _
               (eq_trans (status_body_failed net workitem_id w tok Htok Hfresh F0)
                         (f_equal (fun e => (Raise e, _, _)) E0)) eq_refl).
    change (wait_exponential 1 1 5 1) with 1.
    set (w1 := advance 1 (after_http (net (calls w) query) w)).
    replace (calls w + 1)%nat with (calls w1) in Hrep by (simpl; lia).
    rewrite (retrying_ok _ _ _ _ _ w1 status _ _
               (status_body_ok net workitem_id w1 tok status Htok
                  ltac:(apply is_expired_false; simpl; lia) Hrep)).
    do 2 eexists. split; [reflexivity|]. simpl. repeat split; lia.
  - pose proof (Hdrop 0%nat ltac:(lia)) as H0. rewrite Nat.add_0_r in H0.
    pose proof (Hdrop 1%nat ltac:(lia)) as H1.
    destruct (transport_failure_failed _ H0) as [F0 E0].
    rewrite (retrying_again _ _ _ _ _ w RequestError _ _
               (eq_trans (status_body_failed net workitem_id w tok Htok Hfresh F0)
                         (f_equal (fun e => (Raise e, _, _)) E0)) eq_refl).
    change (wait_exponential 1 1 5 1) with 1.
    set (w1 := advance 1 (after_http (net (calls w) query) w)).
    replace (calls w + 1)%nat with (calls w1) in H1 by (simpl; lia).
    destruct (transport_failure_failed _ H1) as [F1 E1].
    assert (Hfresh1 : is_expired tok (clock w1) = false)
      by (apply is_expired_false; simpl; lia).
    rewrite (retrying_again _ _ _ _ _ w1 RequestError _ _
               (eq_trans (status_body_failed net workitem_id w1 tok Htok Hfresh1 F1)
                         (f_equal (fun e => (Raise e, _, _)) E1)) eq_refl).
    change (wait_exponential 1 1 5 2) with 2.
    set (w2 := advance 2 (after_http (net (calls w1) query) w1)).
    replace (calls w + 2)%nat with (calls w2) in Hrep by (simpl; lia).
    rewrite (retrying_ok _ _ _ _ _ w2 status _ _
               (status_body_ok net workitem_id w2 tok status Htok
                  ltac:(apply is_expired_false; simpl; lia) Hrep)).
    do 2 eexists. split; [reflexivity|]. simpl. repeat split; lia.
Qed.

Lemma status_query_survives_dropped_requests_witness :
  exists w' tr,
    get_workitem_status net_drop_then_status (JStr "job-1") world_tok
      = (Ok (status_doc "inprogress"), w', tr) /\
    calls w' = 2%nat /\
    length (filter (fun e => is_backoff e = true) tr) = 1%nat /\
    self w' = self world_tok.
Proof.
  apply (status_query_survives_dropped_requests net_drop_then_status
           (JStr "job-1") world_tok token0 1 (status_doc "inprogress")).
  - reflexivity.
  - lia.
  - vm_compute. reflexivity.
  - intros j Hj. assert (j = 0)%nat as -> by lia. reflexivity.
  - reflexivity.
Defined.

(** X5: the third terminal status.  Once a status query of [poll_workitem]
    is answered with a document whose "status" is "cancelled", the call
    raises [RuntimeError] ("WorkItem was cancelled") and the run has no
    later event. *)
Theorem poll_fails_on_cancelled net fuel workitem_id max_wait poll_interval
    w r w' tr pre e post status :
  poll_workitem net fuel workitem_id max_wait poll_interval w = (r, w', tr) ->
  tr = pre ++ e :: post ->
  status_report e = Some status ->
  field "status" JNull status = JStr "cancelled" ->
  post = [] /\ r = Raise (RuntimeError MsgCancelled).
Proof.
  intros Hrun Heq He Hs.
  pose proof (poll_workitem_reports _ _ _ _ _ _ _ _ _ _ _ _ _ Hrun Heq He) as H.
  destruct status as [|b|n|s|items|fields]; try discriminate.
  unfold verdict in H. simpl in Hs. rewrite Hs in H. exact H.
Qed.

Lemma poll_fails_on_cancelled_witness :
  poll_workitem net_cancelled 10 (JStr "job-1") 600 5 world_tok =
    (Raise (RuntimeError MsgCancelled),
     {| clock := 1001; calls := 1; self := set_token token0 client0 |},
     [] ++ status_event net_cancelled 0 :: []) /\
  ([] : list event) = [] /\
  Raise (RuntimeError MsgCancelled) = Raise (A := json) (RuntimeError MsgCancelled).
Proof.
  split; [reflexivity|].
  apply (poll_fails_on_cancelled net_cancelled 10 (JStr "job-1") 600 5 world_tok
           (Raise (RuntimeError MsgCancelled))
           {| clock := 1001; calls := 1; self := set_token token0 client0 |}
           ([] ++ status_event net_cancelled 0 :: []) []
           (status_event net_cancelled 0) [] (status_doc "cancelled")
           eq_refl eq_refl eq_refl).
  reflexivity.
Defined.

Lemma verdict_none status :
  is_dict status = true ->
  terminal_label (field "status" JNull status) = false ->
  verdict status = None.
Proof.
  destruct status as [|b|n|s|items|fields]; try discriminate.
  intros _. unfold terminal_label, verdict. simpl.
  destruct (json_is_str _ "success"); [discriminate|].
  destruct (json_is_str _ "failedInstructions"); [discriminate|].
  destruct (json_is_str _ "cancelled"); [discriminate|reflexivity].
Qed.

(** X6: every other status keeps the wait going.  After a status document
    (a JSON object) whose "status" is none of "success", "failedInstructions"
    and "cancelled" (be it "pending", "inprogress", another failure status
    of the service, a non-string, or no "status" at all), [poll_workitem]
    does not end: the next event is a sleep of the poll interval.  A status
    document that is not a JSON object ends the call with [AttributeError]. *)
Theorem poll_continues_on_any_other_status net fuel workitem_id max_wait
    poll_interval w r w' tr pre e post status :
  poll_workitem net fuel workitem_id max_wait poll_interval w = (r, w', tr) ->
  tr = pre ++ e :: post ->
  status_report e = Some status ->
  (is_dict status = true ->
   terminal_label (field "status" JNull status) = false ->
     exists rest, post = EvSleep poll_interval :: rest) /\
  (is_dict status = false -> post = [] /\ r = Raise AttributeError).
Proof.
  intros Hrun Heq He.
  pose proof (poll_workitem_reports _ _ _ _ _ _ _ _ _ _ _ _ _ Hrun Heq He) as H.
  split.
  - intros Hd Ht. rewrite (verdict_none status Hd Ht) in H. exact H.
  - intros Hd. destruct status as [|b|n|s|items|fields]; try discriminate;
      exact H.
Qed.

(** "failedDownload", a failure status of the service: the wait goes on. *)
Lemma poll_continues_on_any_other_status_witness :
  exists rest,
    [EvSleep 5; status_event net_failed_download 1; EvSleep 5]
      = EvSleep 5 :: rest.
Proof.
  destruct (poll_continues_on_any_other_status net_failed_download 10
              (JStr "job-1") 12 5 world_tok
              (Raise (TimeoutError (MsgTimeout 12)))
              {| clock := 1012; calls := 2; self := set_token token0 client0 |}
              ([] ++ status_event net_failed_download 0 ::
                 [EvSleep 5; status_event net_failed_download 1; EvSleep 5])
              [] (status_event net_failed_download 0)
              [EvSleep 5; status_event net_failed_download 1; EvSleep 5]
              (status_doc "failedDownload") eq_refl eq_refl eq_refl) as [H _].
  exact (H eq_refl eq_refl).
Defined.

(** ** What the results of a wait mean *)

Lemma exchange_raises net w e w1 t1 :
  exchange net w = (Raise e, w1, t1) -> call_error e = true.
Proof.
  rewrite exchange_run. repeat case_match; intros [= <- <- <-]; reflexivity.
Qed.

Lemma authenticate_raises net w e w1 t1 :
  authenticate net w = (Raise e, w1, t1) -> call_error e = true.
Proof.
  intros Hrun. unfold authenticate, retry in Hrun.
  apply (retrying_inv _ _ _
           (fun _ r _ _ => forall e, r = Raise e -> call_error e = true))
    with (e := e) in Hrun; auto.
  - intros w0 r0 w2 t2 Hb e0 ->.
    destruct (cache_valid w0) eqn:Hc.
    + unfold cache_valid in Hc.
      destruct (_token (self w0)) as [tok|] eqn:Ht; [|discriminate].
      rewrite (authenticate_body_hit net w0 tok Ht) in Hb
        by now apply negb_true_iff.
      discriminate.
    + rewrite authenticate_body_miss in Hb by assumption.
      eapply exchange_raises, Hb.
  - intros w0 e0 w2 t2 _ e1 [= <-]. reflexivity.
Qed.

Lemma get_workitem_status_raises net workitem_id w e w1 t1 :
  get_workitem_status net workitem_id w = (Raise e, w1, t1) ->
  call_error e = true.
Proof.
  intros Hrun. unfold get_workitem_status, retry in Hrun.
  apply (retrying_inv _ _ _
           (fun _ r _ _ => forall e, r = Raise e -> call_error e = true))
    with (e := e) in Hrun; auto.
  - intros w0 r0 w2 t2 Hb e0 ->. unfold get_workitem_status_body, bind at 1 in Hb.
    destruct (authenticate net w0) as [[[tok|ea|] wa] ta] eqn:Hauth.
    + unfold bind, http in Hb.
      destruct (outcome_of (net (calls wa) (ReqWorkitemStatus tok workitem_id)))
        as [|resp]; [injection Hb as <- _ _; reflexivity|].
      unfold raise_for_status in Hb.
      destruct (is_success (status_code resp)); simpl in Hb;
        [|injection Hb as <- _ _; reflexivity].
      unfold response_json in Hb.
      destruct (json_body resp); simpl in Hb;
        [discriminate|injection Hb as <- _ _; reflexivity].
    + injection Hb as <- <- <-. eapply authenticate_raises, Hauth.
    + discriminate.
  - intros w0 e0 w2 t2 _ e1 [= <-]. reflexivity.
Qed.

Lemma verdict_ok status status' :
  verdict status = Some (Ok status') ->
  status' = status /\ field "status" JNull status = JStr "success".
Proof.
  destruct status as [|b|n|s|items|fields]; try discriminate.
  unfold verdict. simpl.
  destruct (default JNull (dict_lookup "status" fields)) as [|b|n|s|items|fs] eqn:Hs;
    simpl; try discriminate.
  destruct (String.eqb_spec s "success") as [->|_]; [intros [= <-]; auto|].
  repeat case_match; discriminate.
Qed.

Lemma verdict_raise status e :
  verdict status = Some (Raise e) -> call_error e = true \/ exists m, e = RuntimeError m.
Proof.
  destruct status as [|b|n|s|items|fields]; simpl;
    try (intros [= <-]; left; reflexivity).
  repeat case_match; intros [=]; subst; eauto.
Qed.

Section PollResults.
Variable query : M json.
Hypothesis query_ok : forall w r w1 t1, query w = (r, w1, t1) -> query_trace r t1.
Hypothesis query_raises : forall w e w1 t1,
  query w = (Raise e, w1, t1) -> call_error e = true.

Lemma poll_loop_results start_time max_wait poll_interval :
  forall fuel w r w' tr,
    poll_loop query fuel start_time max_wait poll_interval w = (r, w', tr) ->
    (forall status, r = Ok status ->
       field "status" JNull status = JStr "success" /\
       exists pre e, tr = pre ++ [e] /\ status_report e = Some status) /\
    (forall m, r = Raise (TimeoutError m) ->
       m = MsgTimeout max_wait /\ max_wait <= clock w' - start_time).
Proof.
  induction fuel as [|fuel IH]; intros w r w' tr Hrun.
  { rewrite poll_out_of_fuel in Hrun.
    destruct (Z.ltb_spec (clock w - start_time) max_wait);
      injection Hrun as <- <- <-; split; intros ? [=]; subst.
    split; [reflexivity|lia]. }
  rewrite poll_step in Hrun.
  destruct (Z.ltb_spec (clock w - start_time) max_wait) as [Hlt|Hge].
  2:{ injection Hrun as <- <- <-. split; intros ? [=]; subst.
      split; [reflexivity|lia]. }
  destruct (query w) as [[[doc|e0|] w1] t1] eqn:Hq.
  - pose proof (query_ok _ _ _ _ Hq) as (p & h & -> & _ & Hh).
    destruct (verdict doc) as [rd|] eqn:Hv.
    + injection Hrun as <- <- <-. split.
      * intros status ->. apply verdict_ok in Hv as [-> Hs]. eauto.
      * intros m ->. apply verdict_raise in Hv as [Hc|(m' & [=])]. discriminate.
    + destruct (poll_loop query fuel start_time max_wait poll_interval
                  (advance poll_interval w1)) as [[r2 w2] t2] eqn:Hrest.
      injection Hrun as <- <- <-. destruct (IH _ _ _ _ Hrest) as [Hok Hto].
      split; [|exact Hto].
      intros status Hr. destruct (Hok status Hr) as (Hs & pre & e & -> & He).
      split; [exact Hs|]. exists ((p ++ [h]) ++ EvSleep poll_interval :: pre), e.
      split; [|exact He]. rewrite <- !app_assoc. reflexivity.
  - injection Hrun as <- <- <-. split; [intros ? [=]|].
    intros m [= ->]. apply query_raises in Hq. discriminate.
  - injection Hrun as <- <- <-. split; intros ? [=].
Qed.
End PollResults.

Lemma poll_workitem_results net fuel workitem_id max_wait poll_interval
    w r w' tr :
  poll_workitem net fuel workitem_id max_wait poll_interval w = (r, w', tr) ->
  (forall status, r = Ok status ->
     field "status" JNull status = JStr "success" /\
     exists pre e, tr = pre ++ [e] /\ status_report e = Some status) /\
  (forall m, r = Raise (TimeoutError m) ->
     m = MsgTimeout max_wait /\ max_wait <= clock w' - clock w).
Proof.
  unfold poll_workitem, bind, time.
  destruct (poll_loop _ fuel (clock w) max_wait poll_interval w)
    as [[r0 w0] t0] eqn:Hrun.
  intros [= <- <- <-]. simpl.
  eapply poll_loop_results; [| |exact Hrun].
  - intros; eapply get_workitem_status_trace; eauto.
  - intros; eapply get_workitem_status_raises; eauto.
Qed.

(** X7: what the two ordinary outcomes of a wait guarantee.  When
    [poll_workitem] returns a status document, that document was the answer
    to the last request of the run and its "status" is "success"; when it
    raises [TimeoutError], at least [max_wait] seconds have passed since the
    call began.  Neither a non-success document nor an early timeout can come
    out of it. *)
Theorem poll_results_are_sound net fuel workitem_id max_wait poll_interval
    w r w' tr :
  poll_workitem net fuel workitem_id max_wait poll_interval w = (r, w', tr) ->
  (forall status, r = Ok status ->
     field "status" JNull status = JStr "success" /\
     exists pre e, tr = pre ++ [e] /\ status_report e = Some status) /\
  (forall m, r = Raise (TimeoutError m) ->
     m = MsgTimeout max_wait /\ max_wait <= clock w' - clock w).
Proof. apply poll_workitem_results. Qed.

Lemma poll_results_are_sound_witness :
  field "status" JNull (status_doc "success") = JStr "success" /\
  exists pre e,
    [status_event net_success_second 0; EvSleep 5;
     status_event net_success_second 1] = pre ++ [e] /\
    status_report e = Some (status_doc "success").
Proof.
  destruct (poll_results_are_sound net_success_second 10 (JStr "job-1") 600 5
              world_tok (Ok (status_doc "success"))
              {| clock := 1007; calls := 2; self := set_token token0 client0 |}
              [status_event net_success_second 0; EvSleep 5;
               status_event net_success_second 1] eq_refl) as [H _].
  exact (H (status_doc "success") eq_refl).
Defined.

(** ** What a wait sends *)

Lemma auth_event_polling c poll_interval e :
  auth_event c e -> polling_event poll_interval e.
Proof. intros [->|(rep & ->)]; exact I. Qed.

Lemma get_workitem_status_events net workitem_id poll_interval w r w1 t1 :
  get_workitem_status net workitem_id w = (r, w1, t1) ->
  Forall (polling_event poll_interval) t1.
Proof.
  unfold get_workitem_status, retry. apply retrying_events_forall.
  - intros d. exact I.
  - intros w0 r0 w2 t2. unfold get_workitem_status_body, bind at 1.
    destruct (authenticate net w0) as [[[tok|ea|] wa] ta] eqn:Hauth;
      pose proof (authenticate_events _ _ _ _ _ Hauth) as Hev;
      assert (Hta : Forall (polling_event poll_interval) ta)
        by (eapply Forall_impl; [exact Hev|]; intros e;
            apply auth_event_polling).
    + unfold bind, http.
      destruct (outcome_of (net (calls wa) (ReqWorkitemStatus tok workitem_id)))
        as [|resp].
      * intros [= <- <- <-]. apply Forall_app. split; [exact Hta|].
        repeat constructor.
      * unfold raise_for_status.
        destruct (is_success (status_code resp)); simpl.
        -- unfold response_json.
           destruct (json_body resp); simpl; intros [= <- <- <-];
             (apply Forall_app; split; [exact Hta|]); repeat constructor.
        -- intros [= <- <- <-]. apply Forall_app. split; [exact Hta|].
           repeat constructor.
    + intros [= <- <- <-]. exact Hta.
    + intros [= <- <- <-]. exact Hta.
Qed.

Lemma poll_loop_events (query : M json) poll_interval :
  (forall w r w1 t1, query w = (r, w1, t1) ->
     Forall (polling_event poll_interval) t1) ->
  forall start_time max_wait fuel w r w' tr,
    poll_loop query fuel start_time max_wait poll_interval w = (r, w', tr) ->
    Forall (polling_event poll_interval) tr.
Proof.
  intros Hq start_time max_wait.
  induction fuel as [|fuel IH]; intros w r w' tr Hrun.
  { rewrite poll_out_of_fuel in Hrun.
    destruct (clock w - start_time <? max_wait); injection Hrun as <- <- <-;
      constructor. }
  rewrite poll_step in Hrun.
  destruct (clock w - start_time <? max_wait);
    [|injection Hrun as <- <- <-; constructor].
  destruct (query w) as [[[doc|e0|] w1] t1] eqn:Hrunq;
    pose proof (Hq _ _ _ _ Hrunq) as Ht;
    [|injection Hrun as <- <- <-; exact Ht..].
  destruct (verdict doc); [injection Hrun as <- <- <-; exact Ht|].
  destruct (poll_loop query fuel start_time max_wait poll_interval
              (advance poll_interval w1)) as [[r2 w2] t2] eqn:Hrest.
  injection Hrun as <- <- <-. apply Forall_app. split; [exact Ht|].
  constructor; [reflexivity|]. eapply IH, Hrest.
Qed.

Lemma poll_workitem_events net fuel workitem_id max_wait poll_interval
    w r w' tr :
  poll_workitem net fuel workitem_id max_wait poll_interval w = (r, w', tr) ->
  Forall (polling_event poll_interval) tr.
Proof.
  unfold poll_workitem, bind, time.
  destruct (poll_loop _ fuel (clock w) max_wait poll_interval w)
    as [[r0 w0] t0] eqn:Hrun.
  intros [= <- <- <-]. simpl.
  eapply poll_loop_events; [|exact Hrun].
  intros; eapply get_workitem_status_events; eauto.
Qed.

Lemma polling_event_kind poll_interval e :
  polling_event poll_interval e ->
  is_submission e = false /\ is_download e = false.
Proof. destruct e as [[| | |] rep|d|d]; simpl; intros He; try contradiction; auto. Qed.

Lemma poll_only_queries_and_sleeps_aux net fuel workitem_id max_wait
    poll_interval w r w' tr :
  poll_workitem net fuel workitem_id max_wait poll_interval w = (r, w', tr) ->
  Forall (fun e => is_submission e = false /\ is_download e = false) tr.
Proof.
  intros Hrun. eapply Forall_impl; [eapply poll_workitem_events, Hrun|].
  apply polling_event_kind.
Qed.

(** X8: a wait only asks and sleeps.  Every event of [poll_workitem] is a
    token request, a status request, one of tenacity's waits, or a sleep of
    exactly the poll interval: it never submits a work item and never
    downloads anything. *)
Theorem poll_only_queries_and_sleeps net fuel workitem_id max_wait
    poll_interval w r w' tr :
  poll_workitem net fuel workitem_id max_wait poll_interval w = (r, w', tr) ->
  Forall (polling_event poll_interval) tr /\
  Forall (fun e => is_submission e = false /\ is_download e = false) tr.
Proof.
  intros Hrun. split.
  - eapply poll_workitem_events, Hrun.
  - eapply poll_only_queries_and_sleeps_aux, Hrun.
Qed.

Lemma poll_only_queries_and_sleeps_witness :
  Forall (polling_event 5)
    [status_event net_success_second 0; EvSleep 5;
     status_event net_success_second 1] /\
  Forall (fun e => is_submission e = false /\ is_download e = false)
    [status_event net_success_second 0; EvSleep 5;
     status_event net_success_second 1].
Proof.
  exact (poll_only_queries_and_sleeps net_success_second 10 (JStr "job-1") 600 5
           world_tok (Ok (status_doc "success"))
           {| clock := 1007; calls := 2; self := set_token token0 client0 |}
           _ eq_refl).
Defined.

(** * Further properties of submission, orchestration and download *)

(** The events of [create_workitem]: authentication, then at most the one
    submission, whose 2xx JSON answer with an "id" is the result. *)
Lemma create_workitem_shape net activity_id arguments w r w' tr :
  create_workitem net activity_id arguments w = (r, w', tr) ->
  exists ta ts,
    tr = ta ++ ts /\
    Forall (auth_event (self w)) ta /\
    (ts = [] \/
     exists tok rep, ts = [EvHttp (ReqCreateWorkitem tok activity_id arguments) rep]) /\
    (forall result, r = Ok result ->
       exists tok rep fields id,
         ts = [EvHttp (ReqCreateWorkitem tok activity_id arguments) rep] /\
         result = JObj fields /\
         reply_fields rep = Some fields /\
         dict_lookup "id" fields = Some id).
Proof.
  unfold create_workitem, bind at 1.
  destruct (authenticate net w) as [[[tok|ea|] wa] ta] eqn:Hauth;
    pose proof (authenticate_events _ _ _ _ _ Hauth) as Hev.
  2,3: intros [= <- <- <-]; exists ta, []; rewrite app_nil_r;
       (split; [reflexivity|]); (split; [exact Hev|]);
       (split; [left; reflexivity|intros ? [=]]).
  unfold bind at 1, http.
  set (req := ReqCreateWorkitem tok activity_id arguments).
  set (rep := net (calls wa) req).
  destruct (outcome_of rep) as [|resp] eqn:Hout.
  { intros [= <- <- <-]. exists ta, [EvHttp req rep].
    split; [reflexivity|]. split; [exact Hev|].
    split; [right; eauto|intros ? [=]]. }
  unfold bind at 1, raise_for_status.
  destruct (is_success (status_code resp)) eqn:Hsucc; simpl.
  2:{ intros [= <- <- <-]. exists ta, [EvHttp req rep].
      split; [reflexivity|]. split; [exact Hev|].
      split; [right; eauto|intros ? [=]]. }
  unfold bind at 1, response_json.
  destruct (json_body resp) as [result|] eqn:Hbody; simpl.
  2:{ intros [= <- <- <-]. exists ta, [EvHttp req rep].
      split; [reflexivity|]. split; [exact Hev|].
      split; [right; eauto|intros ? [=]]. }
  unfold bind, py_index.
  destruct result as [|b|n|s|items|fields]; simpl;
    try (intros [= <- <- <-]; exists ta, [EvHttp req rep];
         (split; [reflexivity|]); (split; [exact Hev|]);
         (split; [right; eauto|intros ? [=]])).
  destruct (dict_lookup "id" fields) as [id|] eqn:Hid; simpl;
    intros [= <- <- <-]; exists ta, [EvHttp req rep];
    (split; [reflexivity|]); (split; [exact Hev|]);
    (split; [right; eauto|]); [|intros ? [=]].
  intros result [= <-]. exists tok, rep, fields, id.
  split; [reflexivity|]. split; [reflexivity|]. split; [|exact Hid].
  unfold reply_fields. rewrite Hout, Hsucc, Hbody. reflexivity.
Qed.

(** X9: a submission is never repeated.  In any run of [create_workitem]
    the events are those of authentication followed by at most one
    submission request, which is then the last event; and when the call
    returns, what it returns is the JSON object of that request's 2xx
    answer, which has an "id". *)
Theorem create_workitem_submits_at_most_once net activity_id arguments
    w r w' tr :
  create_workitem net activity_id arguments w = (r, w', tr) ->
  (length (filter (fun e => is_submission e = true) tr) <= 1)%nat /\
  (forall pre e post, tr = pre ++ e :: post -> is_submission e = true ->
     post = []) /\
  (forall result, r = Ok result ->
     exists pre tok rep fields id,
       tr = pre ++ [EvHttp (ReqCreateWorkitem tok activity_id arguments) rep] /\
       result = JObj fields /\
       reply_fields rep = Some fields /\
       dict_lookup "id" fields = Some id).
Proof.
  intros Hrun.
  destruct (create_workitem_shape _ _ _ _ _ _ _ Hrun)
    as (ta & ts & -> & Hta & Hts & Hok).
  assert (Hnone : Forall (fun e => is_submission e = false) ta).
  { eapply Forall_impl; [exact Hta|]. intros e [->|(rep & ->)]; reflexivity. }
  assert (Hfil : filter (fun e => is_submission e = true) ta = []).
  { clear -Hnone. induction Hnone as [|x l Hx _ IH]; [reflexivity|].
    rewrite filter_cons_False by (rewrite Hx; discriminate). exact IH. }
  split; [|split].
  - rewrite filter_app, Hfil. simpl.
    destruct Hts as [->|(tok & rep & ->)]; simpl; lia.
  - intros pre e post Heq He.
    destruct Hts as [->|(tok & rep & ->)].
    + rewrite app_nil_r in Heq. subst ta. apply Forall_app in Hnone as [_ Hn].
      apply Forall_cons in Hn as [Hn _]. congruence.
    + clear Hok Hfil Hta Hrun. revert pre Heq.
      induction Hnone as [|x l Hx _ IH]; intros pre Heq.
      * destruct pre as [|y [|z pre]]; simpl in Heq; simplify_eq. reflexivity.
      * destruct pre as [|y pre]; simpl in Heq; simplify_eq; [congruence|].
        eapply IH. eassumption.
  - intros result Hr. destruct (Hok result Hr) as (tok & rep & fields & id & -> & Hrest).
    exists ta, tok, rep, fields, id. split; [reflexivity|exact Hrest].
Qed.

Lemma create_workitem_submits_at_most_once_witness :
  (length (filter (fun e => is_submission e = true)
             [EvHttp (ReqCreateWorkitem token0 "nick.Act+prod" (JObj []))
                (net_401 0%nat (ReqCreateWorkitem token0 "nick.Act+prod" (JObj [])))])
     <= 1)%nat.
Proof.
  destruct (create_workitem_submits_at_most_once net_401 "nick.Act+prod"
              (JObj []) world_tok (Raise (HTTPStatusError 401))
              {| clock := 1001; calls := 1; self := set_token token0 client0 |}
              _ eq_refl) as [H _].
  exact H.
Defined.

(** X10: an accepted submission without an "id" is an error for the
    caller.  With a token cached, when the submission is answered 2xx with a
    JSON object that has no "id", [create_workitem] raises [KeyError]
    although the request has been sent and accepted. *)
Theorem create_workitem_accepted_without_id net activity_id arguments w tok fields :
  _token (self w) = Some tok ->
  is_expired tok (clock w) = false ->
  let req := ReqCreateWorkitem tok activity_id arguments in
  let rep := net (calls w) req in
  reply_fields rep = Some fields ->
  dict_lookup "id" fields = None ->
  create_workitem net activity_id arguments w =
    (Raise (KeyError "id"), after_http rep w, [EvHttp req rep]).
Proof.
  intros Htok Hfresh req rep Hf Hid. unfold create_workitem, bind at 1.
  rewrite (authenticate_hit net w tok Htok Hfresh).
  unfold bind, http. fold req rep. unfold reply_fields in Hf.
  destruct (outcome_of rep) as [|resp]; [discriminate|].
  unfold raise_for_status.
  destruct (is_success (status_code resp)); [|discriminate]. simpl.
  unfold response_json.
  destruct (json_body resp) as [[|b|n|s|items|fields']|]; try discriminate.
  injection Hf as ->. simpl. rewrite Hid. reflexivity.
Qed.

Lemma create_workitem_accepted_without_id_witness :
  create_workitem net_accepts_without_id "nick.Act+prod" (JObj []) world_tok =
    (Raise (KeyError "id"),
     {| clock := 1001; calls := 1; self := set_token token0 client0 |},
     [EvHttp (ReqCreateWorkitem token0 "nick.Act+prod" (JObj []))
        (net_accepts_without_id 0%nat
           (ReqCreateWorkitem token0 "nick.Act+prod" (JObj [])))]).
Proof.
  exact (create_workitem_accepted_without_id net_accepts_without_id
           "nick.Act+prod" (JObj []) world_tok token0
           [("status", JStr "pending")] eq_refl eq_refl eq_refl eq_refl).
Defined.

Lemma download_file_events net url w r w' tr :
  download_file net url w = (r, w', tr) ->
  Forall (fun e => is_download e = true) tr.
Proof.
  unfold download_file. destruct url as [|b|n|address|items|fields];
    try (intros [= <- <- <-]; constructor).
  unfold bind, http.
  destruct (outcome_of (net (calls w) (ReqDownload address))) as [|resp].
  - intros [= <- <- <-]. repeat constructor.
  - unfold raise_for_status. destruct (is_success (status_code resp)); simpl;
      intros [= <- <- <-]; repeat constructor.
Qed.

Lemma download_outputs_events net : forall items outputs w r w' tr,
  download_outputs net items outputs w = (r, w', tr) ->
  Forall (fun e => is_download e = true) tr.
Proof.
  induction items as [|[name info] items IH]; intros outputs w r w' tr; simpl.
  - intros [= <- <- <-]. constructor.
  - destruct (output_url info) as [url|]; [|apply IH].
    unfold bind.
    destruct (download_file net url w) as [[[data|e|] w1] t1] eqn:Hd;
      pose proof (download_file_events _ _ _ _ _ _ Hd) as H1;
      [|intros [= <- <- <-]; exact H1..].
    destruct (download_outputs net items (dict_set name data outputs) w1)
      as [[r2 w2] t2] eqn:Hrest.
    intros [= <- <- <-]. apply Forall_app. split; [exact H1|].
    eapply IH, Hrest.
Qed.

Lemma fetch_outputs_events net final_status w r w' tr :
  fetch_outputs net final_status w = (r, w', tr) ->
  Forall (fun e => is_download e = true) tr.
Proof.
  unfold fetch_outputs.
  destruct final_status as [|b|n|s|its|fields];
    try (intros [= <- <- <-]; constructor).
  unfold py_get, bind at 1, ret at 1.
  destruct (default (JObj []) (dict_lookup "arguments" fields))
    as [|b|n|s|its|items];
    try (intros [= <- <- <-]; constructor).
  unfold py_items, bind at 1, ret at 1. unfold bind.
  destruct (download_outputs net items [] w) as [[[outs|e|] w2] t2] eqn:Hd;
    pose proof (download_outputs_events _ _ _ _ _ _ _ Hd) as H;
    intros [= <- <- <-]; simpl; rewrite ?app_nil_r; exact H.
Qed.

(** X11: the order of the traffic.  Every run of [create_workitem_and_wait]
    falls into three consecutive phases: a first one without any status
    query or download and with at most one submission, a second one without
    any submission or download, and a last one made of downloads only.  So
    the work item is submitted at most once, nothing is polled before the
    submission, and nothing is downloaded before the last poll. *)
Theorem orchestration_runs_in_three_phases net fuel activity_id arguments
    max_wait w r w' tr :
  create_workitem_and_wait net fuel activity_id arguments max_wait w = (r, w', tr) ->
  exists t1 t2 t3,
    tr = t1 ++ t2 ++ t3 /\
    Forall (fun e => is_status_query e = false /\ is_download e = false) t1 /\
    (length (filter (fun e => is_submission e = true) t1) <= 1)%nat /\
    Forall (fun e => is_submission e = false /\ is_download e = false) t2 /\
    Forall (fun e => is_download e = true) t3.
Proof.
  unfold create_workitem_and_wait, bind at 1.
  destruct (create_workitem net activity_id arguments w)
    as [[[workitem|e|] w1] t1] eqn:Hc.
  all: destruct (create_workitem_shape _ _ _ _ _ _ _ Hc)
         as (ta & ts & Ht1 & Hta & Hts & _).
  all: assert (H1 : Forall (fun e => is_status_query e = false /\
                                     is_download e = false) t1)
         by (subst t1; apply Forall_app; split;
             [eapply Forall_impl; [exact Hta|];
              intros ev [->|(rep & ->)]; split; reflexivity
             |destruct Hts as [->|(tok & rep & ->)]; repeat constructor]).
  all: assert (H1' : (length (filter (fun e => is_submission e = true) t1) <= 1)%nat).
  1,3,5: subst t1; rewrite filter_app, length_app;
    assert (Hz : filter (fun e => is_submission e = true) ta = [])
      by (clear -Hta; induction Hta as [|x l Hx _ IH]; [reflexivity|];
          rewrite filter_cons_False; [exact IH|];
          destruct Hx as [->|(rep & ->)]; simpl; discriminate);
    rewrite Hz; destruct Hts as [->|(tok & rep & ->)]; simpl; lia.
  2,3: intros [= <- <- <-]; exists t1, [], []; rewrite !app_nil_r;
       repeat split; auto.
  unfold bind at 1, py_index.
  destruct workitem as [|b|n|s|its|fields]; simpl;
    try (intros [= <- <- <-]; exists t1, [], []; rewrite !app_nil_r;
         repeat split; auto).
  destruct (dict_lookup "id" fields) as [workitem_id|]; simpl;
    [|intros [= <- <- <-]; exists t1, [], []; rewrite !app_nil_r;
      repeat split; auto].
  unfold bind.
  destruct (poll_workitem net fuel workitem_id max_wait 5 w1)
    as [[[final_status|e|] w3] t3] eqn:Hp.
  all: pose proof (poll_only_queries_and_sleeps_aux _ _ _ _ _ _ _ _ _ Hp) as H2.
  2,3: intros [= <- <- <-]; exists t1, t3, []; rewrite !app_nil_r;
       repeat split; auto.
  destruct (fetch_outputs net final_status w3) as [[r4 w4] t4] eqn:Hf.
  pose proof (fetch_outputs_events _ _ _ _ _ _ Hf) as H3.
  intros [= <- <- <-]. exists t1, t3, t4. repeat split; auto.
Qed.

(** Token, submission, one status query, one download. *)
Lemma orchestration_runs_in_three_phases_witness :
  exists t1 t2 t3,
    (create_workitem_and_wait net_one_location 10 "nick.Act+prod"
       submitted_arguments 600 world0).2 = t1 ++ t2 ++ t3 /\
    Forall (fun e => is_status_query e = false /\ is_download e = false) t1 /\
    (length (filter (fun e => is_submission e = true) t1) <= 1)%nat /\
    Forall (fun e => is_submission e = false /\ is_download e = false) t2 /\
    Forall (fun e => is_download e = true) t3.
Proof.
  exact (orchestration_runs_in_three_phases net_one_location 10 "nick.Act+prod"
           submitted_arguments 600 world0 _ _ _ eq_refl).
Defined.

(** A loop that returns has downloaded every entry that carries a "url". *)
Lemma download_outputs_ok net : forall items outputs w outs w' tr,
  NoDup (outputs.*1 ++ items.*1) ->
  download_outputs net items outputs w = (Ok outs, w', tr) ->
  exists new,
    outs = outputs ++ new /\
    new.*1 = (wanted items).*1 /\
    locations_are_strings items /\
    omap request_of tr = ReqDownload <$> (wanted items).*2 /\
    length tr = length (wanted items).
Proof.
  induction items as [|[name info] items IH]; intros outputs w outs w' tr Hnd.
  - simpl. intros [= <- <- <-]. exists []. rewrite app_nil_r.
    repeat split; constructor.
  - simpl download_outputs. unfold wanted, locations_are_strings.
    simpl omap. fold (wanted items).
    assert (Hnd' : NoDup (outputs.*1 ++ items.*1)).
    { simpl in Hnd. apply NoDup_app in Hnd as (H1 & H2 & H3).
      apply NoDup_cons in H3 as [_ H3]. apply NoDup_app. repeat split; auto.
      intros x Hx Hin. apply (H2 x Hx). now right. }
    destruct (output_url info) as [url|] eqn:Hurl; simpl.
    + unfold bind at 1, download_file.
      destruct url as [|b|n|address|its|fields]; try discriminate.
      unfold bind at 1, http.
      set (rep := net (calls w) (ReqDownload address)).
      destruct (outcome_of rep) as [|resp]; [discriminate|].
      unfold raise_for_status.
      destruct (is_success (status_code resp)); simpl; [|discriminate].
      assert (Hfresh : name ∉ outputs.*1).
      { simpl in Hnd. apply NoDup_app in Hnd as (_ & H2 & _).
        intros Hin. apply (H2 name Hin). now left. }
      rewrite (dict_set_fresh name (content resp) outputs Hfresh).
      match goal with
      | |- context [download_outputs net items ?o ?w0] =>
          destruct (download_outputs net items o w0) as [[r2 w2] t2] eqn:Hrest
      end.
      intros [= -> <- <-].
      apply IH in Hrest as (new & -> & Hnames & Hstr & Hreqs & Hlen).
      2:{ rewrite fmap_app. simpl. rewrite <- app_assoc. simpl. exact Hnd. }
      exists ((name, content resp) :: new). rewrite <- app_assoc. simpl.
      split; [reflexivity|]. split; [f_equal; exact Hnames|].
      split; [constructor; [simpl; rewrite Hurl; eauto|exact Hstr]|].
      split; [f_equal; exact Hreqs|f_equal; exact Hlen].
    + intros Hrun. apply IH in Hrun as (new & -> & Hnames & Hstr & Hreqs & Hlen);
        [|exact Hnd'].
      exists new. split; [reflexivity|]. split; [exact Hnames|].
      split; [constructor; [simpl; rewrite Hurl; exact I|exact Hstr]|].
      split; assumption.
Qed.

(** X12: a return means every located output was fetched.  Whenever the
    download step returns, the final status is a dict whose "arguments"
    (an empty dict when absent) is a dict; every "url" in it is a string and
    has been requested, in order; and there is one artifact for each entry
    that carries a "url".  A failed download never yields a shorter result:
    it makes the step raise. *)
Theorem fetch_returns_all_located_outputs net final_status w status outputs w' tr :
  fetch_outputs net final_status w = (Ok (status, outputs), w', tr) ->
  status = final_status /\
  exists items,
    field "arguments" (JObj []) final_status = JObj items /\
    is_dict final_status = true /\
    (NoDup items.*1 ->
       outputs.*1 = (wanted items).*1 /\
       locations_are_strings items /\
       omap request_of tr = ReqDownload <$> (wanted items).*2 /\
       length tr = length (wanted items)).
Proof.
  unfold fetch_outputs.
  destruct final_status as [|b|n|s|its|fields]; try discriminate.
  unfold py_get, bind at 1, ret at 1. simpl field.
  destruct (default (JObj []) (dict_lookup "arguments" fields))
    as [|b|n|s|its|items]; try discriminate.
  unfold py_items, bind at 1, ret at 1. unfold bind.
  destruct (download_outputs net items [] w) as [[[outs|e|] w2] t2] eqn:Hd;
    try discriminate.
  simpl. intros [= <- <- <- <-]. split; [reflexivity|].
  exists items. split; [reflexivity|]. split; [reflexivity|].
  intros Hnd. apply download_outputs_ok in Hd as (new & -> & H); [|exact Hnd].
  rewrite !app_nil_r. simpl. exact H.
Qed.

Lemma fetch_returns_all_located_outputs_witness :
  status_one_location = status_one_location /\
  exists items,
    field "arguments" (JObj []) status_one_location = JObj items /\
    is_dict status_one_location = true /\
    (NoDup items.*1 ->
       [("outputFamily", [Byte.x52; Byte.x46; Byte.x41])].*1 = (wanted items).*1 /\
       locations_are_strings items /\
       omap request_of
         [EvHttp (ReqDownload "https://x/family.rfa")
                 (net_one_location 0%nat (ReqDownload "https://x/family.rfa"))]
         = ReqDownload <$> (wanted items).*2 /\
       length [EvHttp (ReqDownload "https://x/family.rfa")
                 (net_one_location 0%nat (ReqDownload "https://x/family.rfa"))]
         = length (wanted items)).
Proof.
  exact (fetch_returns_all_located_outputs net_one_location status_one_location
           world_tok status_one_location
           [("outputFamily", [Byte.x52; Byte.x46; Byte.x41])]
           {| clock := 1002; calls := 1; self := set_token token0 client0 |}
           _ eq_refl).
Defined.

(** * Further properties of the client singleton *)

Lemma get_aps_client_cases id secret reg st :
  (must_create id st /\
   get_aps_client id secret reg st =
     (fresh (dom (heap st)),
      {| heap := <[fresh (dom (heap st)) :=
                     {| client_id := id; client_secret := secret;
                        region := reg; _token := None |}]> (heap st);
         _aps_client := Some (fresh (dom (heap st))) |})) \/
  (exists addr c,
     _aps_client st = Some addr /\ heap st !! addr = Some c /\
     client_id c = id /\ get_aps_client id secret reg st = (addr, st)).
Proof.
  destruct (must_create_dec id st) as [Hm|Hn].
  - left. split; [exact Hm|]. now apply get_aps_client_creates.
  - right. unfold must_create, current_client in Hn.
    destruct (_aps_client st) as [addr|] eqn:Hg; [|tauto].
    destruct (heap st !! addr) as [c|] eqn:Hl; [|tauto].
    destruct (decide (client_id c = id)) as [Hid|Hid]; [|tauto].
    exists addr, c. repeat split; auto.
    now apply (get_aps_client_reuses id secret reg st addr c).
Qed.

(** X13: clients already handed out stay as they are.  [get_aps_client]
    never removes or changes an object of the heap: whoever holds a client
    obtained earlier still has it, token cache included, even after the
    singleton has been replaced. *)
Theorem get_aps_client_preserves_heap id secret reg st addr c :
  heap st !! addr = Some c ->
  heap (get_aps_client id secret reg st).2 !! addr = Some c.
Proof.
  intros Hc.
  destruct (get_aps_client_cases id secret reg st)
    as [[_ ->]|(a & c0 & _ & _ & _ & ->)]; simpl; [|exact Hc].
  rewrite lookup_insert_ne; [exact Hc|].
  intros Heq. pose proof (is_fresh (dom (heap st))) as Hf.
  rewrite Heq in Hf. apply Hf. apply elem_of_dom. eauto.
Qed.

Lemma get_aps_client_preserves_heap_witness :
  heap (get_aps_client "other-client" "s" "eu-west"
          (get_aps_client "my-client" "my-secret" "us-east" module0).2).2
    !! (get_aps_client "my-client" "my-secret" "us-east" module0).1
  = Some client0.
Proof.
  apply (get_aps_client_preserves_heap "other-client" "s" "eu-west"
           (get_aps_client "my-client" "my-secret" "us-east" module0).2).
  reflexivity.
Defined.

(** X14: one client at a time.  The singleton remembers a single client id:
    after a call for another id, a call for the first id again constructs a
    third object, different from both earlier ones, with the credentials of
    that last call and an empty token cache. *)
Theorem get_aps_client_alternating_ids id_a id_b s1 r1 s2 r2 s3 r3 st :
  id_a <> id_b ->
  let first := get_aps_client id_a s1 r1 st in
  let second := get_aps_client id_b s2 r2 first.2 in
  let third := get_aps_client id_a s3 r3 second.2 in
  third.1 <> first.1 /\ third.1 <> second.1 /\
  heap third.2 !! third.1 =
    Some {| client_id := id_a; client_secret := s3; region := r3;
            _token := None |} /\
  heap third.2 !! first.1 = heap first.2 !! first.1.
Proof.
  intros Hne first second third.
  destruct (get_aps_client_current id_a s1 r1 st) as (c1 & Hg1 & Hc1 & Hid1).
  fold first in Hg1, Hc1.
  assert (Hm2 : must_create id_b first.2).
  { unfold must_create, current_client. rewrite Hg1, Hc1. congruence. }
  assert (H2 : second = _) by (apply (get_aps_client_creates id_b s2 r2 _ Hm2)).
  set (a2 := fresh (dom (heap first.2))) in *.
  assert (Hfresh2 : a2 <> first.1).
  { intros Heq. pose proof (is_fresh (dom (heap first.2))) as Hf. fold a2 in Hf.
    rewrite Heq in Hf. apply Hf, elem_of_dom. eauto. }
  assert (Hm3 : must_create id_a second.2).
  { rewrite H2. unfold must_create, current_client. simpl.
    rewrite lookup_insert_eq. simpl. congruence. }
  assert (H3 : third = _) by (apply (get_aps_client_creates id_a s3 r3 _ Hm3)).
  set (a3 := fresh (dom (heap second.2))) in *.
  assert (Hf3 : a3 ∉ dom (heap second.2)) by apply is_fresh.
  assert (Hin1 : first.1 ∈ dom (heap second.2)).
  { rewrite H2. simpl. apply elem_of_dom. rewrite lookup_insert_ne by exact Hfresh2.
    eauto. }
  assert (Hin2 : second.1 ∈ dom (heap second.2)).
  { rewrite H2. simpl. apply elem_of_dom. rewrite lookup_insert_eq. eauto. }
  rewrite H3. simpl.
  split; [intros Heq; rewrite Heq in Hf3; contradiction|].
  split; [intros Heq; rewrite Heq in Hf3; contradiction|].
  split; [apply lookup_insert_eq|].
  rewrite lookup_insert_ne by (intros Heq; rewrite Heq in Hf3; contradiction).
  rewrite H2. simpl. rewrite lookup_insert_ne by exact Hfresh2. reflexivity.
Qed.

Lemma get_aps_client_alternating_ids_witness :
  "my-client" <> "other-client" /\
  (get_aps_client "my-client" "s3" "r3"
     (get_aps_client "other-client" "s2" "r2"
        (get_aps_client "my-client" "s1" "r1" module0).2).2).1
  <> (get_aps_client "my-client" "s1" "r1" module0).1.
Proof.
  split; [discriminate|].
  destruct (get_aps_client_alternating_ids "my-client" "other-client"
              "s1" "r1" "s2" "r2" "s3" "r3" module0 ltac:(discriminate))
    as [H _].
  exact H.
Defined.

(** * tools.py: properties of [execute_aps_workitem] *)

Lemma count_submissions_app t1 t2 :
  count_submissions (t1 ++ t2) = (count_submissions t1 + count_submissions t2)%nat.
Proof. unfold count_submissions. rewrite filter_app, length_app. reflexivity. Qed.

Lemma count_submissions_none tr :
  Forall (fun e => is_submission e = false) tr -> count_submissions tr = 0%nat.
Proof.
  unfold count_submissions. induction 1 as [|x l Hx _ IH]; [reflexivity|].
  rewrite filter_cons_False by (rewrite Hx; discriminate). exact IH.
Qed.

Section Execute.
Variable dumps : json -> string.
Variable net : network.
Variable fuel : nat.
Variables client_id client_secret template_url activity_id : string.
Variable parameters : json.
Variable max_wait : Z.

Let body : TM workitem_result :=
  execute_aps_workitem_body dumps net fuel client_id client_secret
    template_url parameters activity_id max_wait.

Let execute : TM workitem_result :=
  execute_aps_workitem dumps net fuel client_id client_secret
    template_url parameters activity_id max_wait.

(** The three ways the decorated function can end. *)
Lemma execute_cases p :
  (exists a p1 t1, body p = (Done a, p1, t1) /\ execute p = (Done a, p1, t1)) \/
  (exists p1 t1, body p = (Exhausted, p1, t1) /\ execute p = (Exhausted, p1, t1)) \/
  (exists e1 p1 t1,
     body p = (Failed e1, p1, t1) /\
     ((exists a p2 t2,
         body (tool_wait 2 p1) = (Done a, p2, t2) /\
         execute p = (Done a, p2, t1 ++ EvBackoff 2 :: t2)) \/
      (exists p2 t2,
         body (tool_wait 2 p1) = (Exhausted, p2, t2) /\
         execute p = (Exhausted, p2, t1 ++ EvBackoff 2 :: t2)) \/
      (exists e2 p2 t2,
         body (tool_wait 2 p1) = (Failed e2, p2, t2) /\
         ((exists a p3 t3,
             body (tool_wait 2 p2) = (Done a, p3, t3) /\
             execute p =
               (Done a, p3, t1 ++ EvBackoff 2 :: t2 ++ EvBackoff 2 :: t3)) \/
          (exists p3 t3,
             body (tool_wait 2 p2) = (Exhausted, p3, t3) /\
             execute p =
               (Exhausted, p3, t1 ++ EvBackoff 2 :: t2 ++ EvBackoff 2 :: t3)) \/
          (exists e3 p3 t3,
             body (tool_wait 2 p2) = (Failed e3, p3, t3) /\
             execute p =
               (Failed (ToolRetryError e3), p3,
                t1 ++ EvBackoff 2 :: t2 ++ EvBackoff 2 :: t3)))))).
Proof.
  unfold execute, execute_aps_workitem. fold body. simpl tool_retrying.
  change (wait_exponential 1 2 10 1) with 2.
  change (wait_exponential 1 2 10 2) with 2.
  destruct (body p) as [[[a|e1|] p1] t1] eqn:H1.
  - left. eauto 10.
  - right. right. exists e1, p1, t1. split; [reflexivity|].
    destruct (body (tool_wait 2 p1)) as [[[a|e2|] p2] t2] eqn:H2.
    + left. eauto 10.
    + right. right. exists e2, p2, t2. split; [reflexivity|].
      destruct (body (tool_wait 2 p2)) as [[[a|e3|] p3] t3] eqn:H3.
      * left. eauto 10.
      * right. right. eauto 10.
      * right. left. eauto 10.
    + right. left. eauto 10.
  - right. left. eauto 10.
Qed.

(** X15: the caller never sees the job's own error.  When
    [execute_aps_workitem] fails, the whole function body (look-up of the
    client, submission, wait, downloads) has run three times, with waits of
    two seconds in between, and the exception is tenacity's [RetryError]
    around the third failure; the [RuntimeError] or [TimeoutError] named in
    the docstring is never raised as such. *)
Theorem execute_fails_only_after_three_runs p e p' tr :
  execute p = (Failed e, p', tr) ->
  exists e1 p1 t1 e2 p2 t2 e3 t3,
    body p = (Failed e1, p1, t1) /\
    body (tool_wait 2 p1) = (Failed e2, p2, t2) /\
    body (tool_wait 2 p2) = (Failed e3, p', t3) /\
    e = ToolRetryError e3 /\
    tr = t1 ++ EvBackoff 2 :: t2 ++ EvBackoff 2 :: t3.
Proof.
  intros Hrun.
  destruct (execute_cases p)
    as [(a & p1 & t1 & _ & H)|[(p1 & t1 & _ & H)|(e1 & p1 & t1 & H1 & H)]];
    [congruence|congruence|].
  destruct H as [(a & p2 & t2 & _ & H)|[(p2 & t2 & _ & H)|(e2 & p2 & t2 & H2 & H)]];
    [congruence|congruence|].
  destruct H as [(a & p3 & t3 & _ & H)|[(p3 & t3 & _ & H)|(e3 & p3 & t3 & H3 & H)]];
    [congruence|congruence|].
  rewrite H in Hrun. injection Hrun as <- <- <-.
  exists e1, p1, t1, e2, p2, t2, e3, t3. repeat split; assumption.
Qed.
End Execute.

(** ** On a service that grants tokens and accepts submissions *)

Lemma authenticate_healthy net w :
  healthy_intake net ->
  exists tok w' tr,
    authenticate net w = (Ok tok, w', tr) /\
    count_submissions tr = 0%nat.
Proof.
  intros [Hgrant _]. destruct (cache_valid w) eqn:Hc.
  - unfold cache_valid in Hc.
    destruct (_token (self w)) as [tok|] eqn:Ht; [|discriminate].
    exists tok, w, []. split; [|reflexivity].
    apply authenticate_hit; [exact Ht|now apply negb_true_iff].
  - destruct (Hgrant (calls w) (client_id (self w)) (client_secret (self w)))
      as (access & seconds & Hg).
    destruct (authenticate_granted net w access seconds Hc Hg) as (tok & -> & _).
    do 3 eexists. split; reflexivity.
Qed.

Lemma create_workitem_healthy net activity_id arguments w :
  healthy_intake net ->
  exists fields id w' tr,
    create_workitem net activity_id arguments w = (Ok (JObj fields), w', tr) /\
    dict_lookup "id" fields = Some id /\
    count_submissions tr = 1%nat.
Proof.
  intros Hh. destruct (authenticate_healthy net w Hh) as (tok & wa & ta & Hauth & Hta).
  destruct Hh as [_ Hsub].
  destruct (Hsub (calls wa) tok activity_id arguments) as (fields & id & Hf & Hid).
  exists fields, id. unfold create_workitem, bind at 1. rewrite Hauth.
  unfold bind, http. unfold reply_fields in Hf.
  destruct (outcome_of (net (calls wa) (ReqCreateWorkitem tok activity_id arguments)))
    as [|resp]; [discriminate|].
  unfold raise_for_status.
  destruct (is_success (status_code resp)); [|discriminate]. simpl.
  unfold response_json.
  destruct (json_body resp) as [[|b|n|s|items|fields']|]; try discriminate.
  injection Hf as ->. simpl. rewrite Hid. simpl.
  do 2 eexists. split; [reflexivity|]. split; [reflexivity|].
  rewrite count_submissions_app, Hta. reflexivity.
Qed.

Lemma downloads_are_no_submissions tr :
  Forall (fun e => is_download e = true) tr -> count_submissions tr = 0%nat.
Proof.
  intros H. apply count_submissions_none. eapply Forall_impl; [exact H|].
  intros [[| | |] rep|d|d]; simpl; congruence.
Qed.

(** One run of the orchestration on such a service submits exactly once,
    however it ends. *)
Lemma orchestration_healthy net fuel activity_id arguments max_wait w r w' tr :
  healthy_intake net ->
  create_workitem_and_wait net fuel activity_id arguments max_wait w = (r, w', tr) ->
  count_submissions tr = 1%nat.
Proof.
  intros Hh.
  destruct (create_workitem_healthy net activity_id arguments w Hh)
    as (fields & id & w1 & t1 & Hc & Hid & H1).
  unfold create_workitem_and_wait, bind at 1. rewrite Hc.
  unfold bind at 1, py_index. rewrite Hid. simpl. unfold bind.
  destruct (poll_workitem net fuel id max_wait 5 w1)
    as [[[final_status|e|] w3] t3] eqn:Hp;
    pose proof (poll_only_queries_and_sleeps_aux _ _ _ _ _ _ _ _ _ Hp) as H2;
    assert (H2' : count_submissions t3 = 0%nat)
      by (apply count_submissions_none; eapply Forall_impl; [exact H2|];
          intros ? [? _]; assumption).
  2,3: intros [= <- <- <-]; rewrite count_submissions_app, H1, H2'; reflexivity.
  destruct (fetch_outputs net final_status w3) as [[r4 w4] t4] eqn:Hf.
  pose proof (fetch_outputs_events _ _ _ _ _ _ Hf) as H3.
  intros [= <- <- <-].
  rewrite !count_submissions_app, H1, H2', (downloads_are_no_submissions _ H3).
  reflexivity.
Qed.

Lemma on_client_allocated {A} addr c (m : M A) p :
  heap (p_module p) !! addr = Some c ->
  exists r w tr,
    m {| clock := p_clock p; calls := p_calls p; self := c |} = (r, w, tr) /\
    on_client addr m p =
      (from_client r,
       {| p_clock := clock w; p_calls := calls w;
          p_module := {| heap := <[addr := self w]> (heap (p_module p));
                         _aps_client := _aps_client (p_module p) |} |},
       tr).
Proof.
  intros Hc. unfold on_client. rewrite Hc.
  destruct (m _) as [[r w] tr]. eauto.
Qed.

Lemma body_healthy dumps net fuel client_id client_secret template_url
    parameters activity_id max_wait p r p' tr :
  healthy_intake net ->
  execute_aps_workitem_body dumps net fuel client_id client_secret template_url
    parameters activity_id max_wait p = (r, p', tr) ->
  count_submissions tr = 1%nat.
Proof.
  intros Hh. unfold execute_aps_workitem_body.
  destruct (get_aps_client_current client_id client_secret "us-east" (p_module p))
    as (c & _ & Hc & _).
  destruct (get_aps_client client_id client_secret "us-east" (p_module p))
    as [client module'] eqn:Hget. simpl in Hc.
  destruct (on_client_allocated client c
              (create_workitem_and_wait net fuel activity_id
                 (workitem_arguments dumps template_url parameters) max_wait)
              {| p_clock := p_clock p; p_calls := p_calls p; p_module := module' |}
              Hc) as (r0 & w0 & t0 & Hrun & ->).
  apply (orchestration_healthy _ _ _ _ _ _ _ _ _ Hh) in Hrun.
  destruct r0 as [[final_status outputs]|e|]; simpl;
    [|intros [= <- <- <-]; exact Hrun..].
  repeat case_match; intros [= <- <- <-]; exact Hrun.
Qed.

(** X16: a failed job is submitted three times.  On a service that grants
    every token request and accepts every submission, each run of the
    function body submits the work item exactly once, whatever happens
    afterwards (failed or cancelled job, time-out, failed download, missing
    output).  So a call of [execute_aps_workitem] that fails has submitted
    the work item three times, and a call that returns has submitted it
    between one and three times. *)
Theorem execute_resubmits_on_any_failure dumps net fuel client_id client_secret
    template_url parameters activity_id max_wait p r p' tr :
  healthy_intake net ->
  execute_aps_workitem dumps net fuel client_id client_secret template_url
    parameters activity_id max_wait p = (r, p', tr) ->
  (forall e, r = Failed e -> count_submissions tr = 3%nat) /\
  (forall a, r = Done a -> (1 <= count_submissions tr <= 3)%nat).
Proof.
  intros Hh Hrun.
  pose proof (fun q r0 q' t0 =>
    body_healthy dumps net fuel client_id client_secret template_url
      parameters activity_id max_wait q r0 q' t0 Hh) as Hbody.
  destruct (execute_cases dumps net fuel client_id client_secret template_url
              activity_id parameters max_wait p)
    as [(a & p1 & t1 & B1 & H)|[(p1 & t1 & B1 & H)|(e1 & p1 & t1 & B1 & H)]].
  1,2: rewrite H in Hrun; injection Hrun as <- <- <-;
       apply Hbody in B1; split; intros ? [=]; lia.
  destruct H as [(a & p2 & t2 & B2 & H)|[(p2 & t2 & B2 & H)|(e2 & p2 & t2 & B2 & H)]].
  1,2: rewrite H in Hrun; injection Hrun as <- <- <-;
       apply Hbody in B1; apply Hbody in B2;
       change (EvBackoff 2 :: t2) with ([EvBackoff 2] ++ t2);
       rewrite !count_submissions_app, B1, B2; split; intros ? [=];
       simpl; unfold count_submissions; simpl; lia.
  destruct H as [(a & p3 & t3 & B3 & H)|[(p3 & t3 & B3 & H)|(e3 & p3 & t3 & B3 & H)]].
  all: rewrite H in Hrun; injection Hrun as <- <- <-;
       apply Hbody in B1; apply Hbody in B2; apply Hbody in B3;
       change (EvBackoff 2 :: t2 ++ EvBackoff 2 :: t3)
         with ([EvBackoff 2] ++ t2 ++ [EvBackoff 2] ++ t3);
       rewrite !count_submissions_app, B1, B2, B3; split; intros ? [=];
       simpl; unfold count_submissions; simpl; lia.
Qed.

(** ** What a returned result guarantees *)

Lemma fetch_outputs_status net final_status w status outputs w' tr :
  fetch_outputs net final_status w = (Ok (status, outputs), w', tr) ->
  status = final_status.
Proof.
  unfold fetch_outputs.
  destruct final_status as [|b|n|s|its|fields]; try discriminate.
  unfold py_get, bind at 1, ret at 1.
  destruct (default (JObj []) (dict_lookup "arguments" fields))
    as [|b|n|s|its|items]; try discriminate.
  unfold py_items, bind at 1, ret at 1. unfold bind.
  destruct (download_outputs net items [] w) as [[[outs|e|] w2] t2];
    try discriminate.
  simpl. intros [= <- _ _ _]. reflexivity.
Qed.

Lemma orchestration_ok net fuel activity_id arguments max_wait w status outputs w' tr :
  create_workitem_and_wait net fuel activity_id arguments max_wait w
    = (Ok (status, outputs), w', tr) ->
  field "status" JNull status = JStr "success" /\
  exists pre e post,
    tr = pre ++ e :: post /\
    status_report e = Some status /\
    Forall (fun e' => is_download e' = true) post.
Proof.
  unfold create_workitem_and_wait, bind at 1.
  destruct (create_workitem net activity_id arguments w)
    as [[[workitem|e|] w1] t1]; try discriminate.
  unfold bind at 1, py_index.
  destruct workitem as [|b|n|s|its|fields]; try discriminate. simpl.
  destruct (dict_lookup "id" fields) as [workitem_id|]; try discriminate. simpl.
  unfold bind.
  destruct (poll_workitem net fuel workitem_id max_wait 5 w1)
    as [[[final_status|e|] w3] t3] eqn:Hp; try discriminate.
  destruct (poll_workitem_results _ _ _ _ _ _ _ _ _ Hp) as [Hok _].
  destruct (Hok final_status eq_refl) as [Hs (pre & ev & -> & Hev)].
  destruct (fetch_outputs net final_status w3) as [[r4 w4] t4] eqn:Hf.
  intros [= -> <- <-].
  pose proof (fetch_outputs_events _ _ _ _ _ _ Hf) as Hd.
  apply fetch_outputs_status in Hf as ->. split; [exact Hs|].
  exists (t1 ++ pre), ev, t4. split; [|split; assumption].
  rewrite <- !app_assoc. reflexivity.
Qed.

Lemma falsy_false x :
  falsy x = false -> exists data, x = Some data /\ data <> [].
Proof. destruct x as [[|b data]|]; try discriminate. intros _. eauto. Qed.

Lemma body_done dumps net fuel client_id client_secret template_url
    parameters activity_id max_wait p res p' tr :
  execute_aps_workitem_body dumps net fuel client_id client_secret template_url
    parameters activity_id max_wait p = (Done res, p', tr) ->
  wr_status res = "success" /\
  rfa_content res <> [] /\ manifest_content res <> [] /\
  exists final_status pre e post,
    tr = pre ++ e :: post /\
    status_report e = Some final_status /\
    Forall (fun e' => is_download e' = true) post /\
    field "status" JNull final_status = JStr "success" /\
    field "id" JNull final_status = job_id res /\
    field "reportUrl" JNull final_status = report_url res.
Proof.
  unfold execute_aps_workitem_body.
  destruct (get_aps_client_current client_id client_secret "us-east" (p_module p))
    as (c & _ & Hc & _).
  destruct (get_aps_client client_id client_secret "us-east" (p_module p))
    as [client module'] eqn:Hget. simpl in Hc.
  destruct (on_client_allocated client c
              (create_workitem_and_wait net fuel activity_id
                 (workitem_arguments dumps template_url parameters) max_wait)
              {| p_clock := p_clock p; p_calls := p_calls p; p_module := module' |}
              Hc) as (r0 & w0 & t0 & Hrun & ->).
  destruct r0 as [[final_status outputs]|e|]; simpl; try discriminate.
  apply orchestration_ok in Hrun as (Hs & pre & ev & post & Ht0 & Hev & Hpost).
  destruct (falsy (dict_lookup "outputFamily" outputs)) eqn:Hr; [discriminate|].
  destruct (falsy (dict_lookup "outputManifest" outputs)) eqn:Hm; [discriminate|].
  simpl. destruct final_status as [|b|n|s|its|fields]; try discriminate.
  destruct (dict_lookup "id" fields) as [id|] eqn:Hid; [|discriminate].
  intros [= <- <- <-]. simpl.
  apply falsy_false in Hr as (rfa & -> & Hrfa).
  apply falsy_false in Hm as (man & -> & Hman).
  split; [reflexivity|]. split; [exact Hrfa|]. split; [exact Hman|].
  exists (JObj fields), pre, ev, post. simpl. rewrite Hid.
  rewrite ?app_nil_r. auto 10.
Qed.

(** X17: a result is never hollow.  Whenever [execute_aps_workitem] returns,
    the result says "success", both the family file and the manifest are
    non-empty (an output that was downloaded with zero bytes counts as
    missing), and the job id and report URL are read from the final status
    document of the run: the answer to the last status query of the whole
    trace, after which only downloads follow, and whose "status" is
    "success". *)
Theorem execute_returns_complete_result dumps net fuel client_id client_secret
    template_url parameters activity_id max_wait p res p' tr :
  execute_aps_workitem dumps net fuel client_id client_secret template_url
    parameters activity_id max_wait p = (Done res, p', tr) ->
  wr_status res = "success" /\
  rfa_content res <> [] /\ manifest_content res <> [] /\
  exists final_status pre e post,
    tr = pre ++ e :: post /\
    status_report e = Some final_status /\
    Forall (fun e' => is_download e' = true) post /\
    field "status" JNull final_status = JStr "success" /\
    field "id" JNull final_status = job_id res /\
    field "reportUrl" JNull final_status = report_url res.
Proof.
  intros Hrun.
  assert (Hlift : forall before q q' t,
    execute_aps_workitem_body dumps net fuel client_id client_secret
      template_url parameters activity_id max_wait q = (Done res, q', t) ->
    tr = before ++ t ->
    wr_status res = "success" /\
    rfa_content res <> [] /\ manifest_content res <> [] /\
    exists final_status pre e post,
      tr = pre ++ e :: post /\
      status_report e = Some final_status /\
      Forall (fun e' => is_download e' = true) post /\
      field "status" JNull final_status = JStr "success" /\
      field "id" JNull final_status = job_id res /\
      field "reportUrl" JNull final_status = report_url res).
  { intros before q q' t Hbody ->.
    destruct (body_done _ _ _ _ _ _ _ _ _ _ _ _ _ Hbody)
      as (H1 & H2 & H3 & doc & pre & e & post & -> & H).
    split; [exact H1|]. split; [exact H2|]. split; [exact H3|].
    exists doc, (before ++ pre), e, post.
    split; [by rewrite <- app_assoc|exact H]. }
  destruct (execute_cases dumps net fuel client_id client_secret template_url
              activity_id parameters max_wait p)
    as [(a & p1 & t1 & B1 & H)|[(p1 & t1 & B1 & H)|(e1 & p1 & t1 & _ & H)]];
    [rewrite H in Hrun; injection Hrun as <- <- <-;
     apply (Hlift [] _ _ _ B1); reflexivity
    |congruence|].
  destruct H as [(a & p2 & t2 & B2 & H)|[(p2 & t2 & B2 & H)|(e2 & p2 & t2 & _ & H)]];
    [rewrite H in Hrun; injection Hrun as <- <- <-;
     apply (Hlift (t1 ++ [EvBackoff 2]) _ _ _ B2);
     by rewrite <- app_assoc
    |congruence|].
  destruct H as [(a & p3 & t3 & B3 & H)|[(p3 & t3 & B3 & H)|(e3 & p3 & t3 & _ & H)]];
    [rewrite H in Hrun; injection Hrun as <- <- <-;
     apply (Hlift (t1 ++ EvBackoff 2 :: t2 ++ [EvBackoff 2]) _ _ _ B3);
     by rewrite <- !app_assoc; simpl; rewrite <- !app_assoc
    |congruence|congruence].
Qed.

(** Against a service on which the job succeeds with both outputs: the job
    id is that of the status document answered to the last status query, and
    only downloads follow it. *)
Lemma execute_returns_complete_result_witness :
  exists final_status pre e post,
    (execute_aps_workitem dumps0 net_job_succeeds 10 "my-client" "s"
       "https://x/t.rft" (JObj []) "nick.Act+prod" 600 process0).2
      = pre ++ e :: post /\
    status_report e = Some final_status /\
    Forall (fun e' => is_download e' = true) post /\
    field "id" JNull final_status = JStr "job-1" /\
    field "reportUrl" JNull final_status = JNull.
Proof.
  destruct (execute_returns_complete_result dumps0 net_job_succeeds 10
              "my-client" "s" "https://x/t.rft" (JObj []) "nick.Act+prod" 600
              process0
              {| wr_status := "success";
                 rfa_content := [Byte.x52; Byte.x46; Byte.x41];
                 manifest_content := [Byte.x52; Byte.x46; Byte.x41];
                 job_id := JStr "job-1"; duration_sec := 7;
                 report_url := JNull |}
              (execute_aps_workitem dumps0 net_job_succeeds 10 "my-client" "s"
                 "https://x/t.rft" (JObj []) "nick.Act+prod" 600 process0).1.2
              (execute_aps_workitem dumps0 net_job_succeeds 10 "my-client" "s"
                 "https://x/t.rft" (JObj []) "nick.Act+prod" 600 process0).2)
    as (_ & _ & _ & doc & pre & e & post & Htr & He & Hpost & _ & Hid & Hurl).
  - vm_compute. reflexivity.
  - exists doc, pre, e, post. auto.
Defined.

(** Against a service on which every job fails: three submissions. *)
Lemma execute_resubmits_on_any_failure_witness :
  count_submissions
    (execute_aps_workitem dumps0 net_job_fails 10 "my-client" "s"
       "https://x/t.rft" (JObj []) "nick.Act+prod" 600 process0).2 = 3%nat.
Proof.
  destruct (execute_resubmits_on_any_failure dumps0 net_job_fails 10
              "my-client" "s" "https://x/t.rft" (JObj []) "nick.Act+prod" 600
              process0
              (Failed (ToolRetryError (ClientError (RuntimeError
                 (MsgWorkItemFailed (JStr "https://x/report"))))))
              (execute_aps_workitem dumps0 net_job_fails 10 "my-client" "s"
                 "https://x/t.rft" (JObj []) "nick.Act+prod" 600 process0).1.2
              (execute_aps_workitem dumps0 net_job_fails 10 "my-client" "s"
                 "https://x/t.rft" (JObj []) "nick.Act+prod" 600 process0).2)
    as [H _].
  - split.
    + intros n id secret. exists (JStr "abc"), 3599, token_fields.
      split; [reflexivity|]. split; reflexivity.
    + intros n tok a args. exists (match status_doc "pending" with
                                   | JObj f => f | _ => [] end), (JStr "job-1").
      split; reflexivity.
  - vm_compute. reflexivity.
  - exact (H _ eq_refl).
Defined.

(** The same service: the three runs of the body behind the [RetryError]. *)
Lemma execute_fails_only_after_three_runs_witness :
  exists e1 p1 t1 e2 p2 t2 e3 t3,
    execute_aps_workitem_body dumps0 net_job_fails 10 "my-client" "s"
      "https://x/t.rft" (JObj []) "nick.Act+prod" 600 process0
      = (Failed e1, p1, t1) /\
    execute_aps_workitem_body dumps0 net_job_fails 10 "my-client" "s"
      "https://x/t.rft" (JObj []) "nick.Act+prod" 600 (tool_wait 2 p1)
      = (Failed e2, p2, t2) /\
    execute_aps_workitem_body dumps0 net_job_fails 10 "my-client" "s"
      "https://x/t.rft" (JObj []) "nick.Act+prod" 600 (tool_wait 2 p2)
      = (Failed e3, (execute_aps_workitem dumps0 net_job_fails 10 "my-client" "s"
                       "https://x/t.rft" (JObj []) "nick.Act+prod" 600 process0).1.2,
         t3) /\
    ToolRetryError
      (ClientError (RuntimeError (MsgWorkItemFailed (JStr "https://x/report"))))
      = ToolRetryError e3 /\
    (execute_aps_workitem dumps0 net_job_fails 10 "my-client" "s"
       "https://x/t.rft" (JObj []) "nick.Act+prod" 600 process0).2
      = t1 ++ EvBackoff 2 :: t2 ++ EvBackoff 2 :: t3.
Proof.
  apply (execute_fails_only_after_three_runs dumps0 net_job_fails 10
           "my-client" "s" "https://x/t.rft" "nick.Act+prod" (JObj []) 600
           process0).
  vm_compute. reflexivity.
Defined.

(** * templates.py: category normalisation and the template catalog *)

Module TemplatesFacts.
Import Templates.

(** ** Characters and strings *)

Lemma lower_char_idem c : lower_char (lower_char c) = lower_char c.
Proof. destruct c as [[] [] [] [] [] [] [] []]; vm_compute; reflexivity. Qed.

Lemma is_space_lower c : is_space (lower_char c) = is_space c.
Proof. destruct c as [[] [] [] [] [] [] [] []]; vm_compute; reflexivity. Qed.

Lemma py_lower_idem s : py_lower (py_lower s) = py_lower s.
Proof. induction s as [|c s IH]; simpl; [done|]. by rewrite lower_char_idem, IH. Qed.

Lemma py_lower_empty s : py_lower s = EmptyString <-> s = EmptyString.
Proof. destruct s; simpl; split; congruence. Qed.

Lemma truthy_lower s : truthy (py_lower s) = truthy s.
Proof. by destruct s. Qed.

Lemma py_lstrip_lower s : py_lstrip (py_lower s) = py_lower (py_lstrip s).
Proof.
  induction s as [|c s IH]; simpl; [done|].
  rewrite is_space_lower. by destruct (is_space c).
Qed.

Lemma py_rstrip_lower s : py_rstrip (py_lower s) = py_lower (py_rstrip s).
Proof.
  induction s as [|c s IH]; simpl; [done|].
  rewrite IH, is_space_lower.
  destruct (py_rstrip s) as [|c' kept]; simpl; [|done].
  by destruct (is_space c).
Qed.

Lemma py_strip_lower s : py_strip (py_lower s) = py_lower (py_strip s).
Proof. unfold py_strip. by rewrite py_lstrip_lower, py_rstrip_lower. Qed.

Lemma py_lstrip_clean s : starts_clean (py_lstrip s).
Proof.
  induction s as [|c s IH]; simpl; [done|].
  destruct (is_space c) eqn:Hc; simpl; done.
Qed.

Lemma py_lstrip_of_clean s : starts_clean s -> py_lstrip s = s.
Proof. destruct s as [|c s]; simpl; [done|]. by intros ->. Qed.

Lemma py_rstrip_clean s : starts_clean s -> starts_clean (py_rstrip s).
Proof.
  destruct s as [|c s]; simpl; [done|]. intros Hc.
  destruct (py_rstrip s); simpl; [by rewrite Hc|done].
Qed.

Lemma py_rstrip_idem s : py_rstrip (py_rstrip s) = py_rstrip s.
Proof.
  induction s as [|c s IH]; simpl; [done|].
  destruct (py_rstrip s) as [|c' kept] eqn:Hs.
  - destruct (is_space c) eqn:Hc; simpl; [done|]. by rewrite Hc.
  - change (py_rstrip (String c (String c' kept)))
      with (match py_rstrip (String c' kept) with
            | EmptyString =>
                if is_space c then EmptyString else String c EmptyString
            | kept' => String c kept'
            end).
    by rewrite IH.
Qed.

Lemma py_strip_idem s : py_strip (py_strip s) = py_strip s.
Proof.
  unfold py_strip.
  rewrite (py_lstrip_of_clean (py_rstrip (py_lstrip s)))
    by apply py_rstrip_clean, py_lstrip_clean.
  apply py_rstrip_idem.
Qed.

Lemma py_strip_empty : py_strip EmptyString = EmptyString.
Proof. reflexivity. Qed.

(** ** Dictionaries *)

Lemma dict_lookup_set_eq {A} (k : string) (v : A) d :
  dict_lookup k (dict_set k v d) = Some v.
Proof.
  induction d as [|[k' v'] d IH]; simpl.
  - by rewrite String.eqb_refl.
  - destruct (String.eqb k k') eqn:Hk; simpl; [by rewrite String.eqb_refl|].
    by rewrite Hk.
Qed.

Lemma dict_lookup_set_ne {A} (k k' : string) (v : A) d :
  k <> k' -> dict_lookup k (dict_set k' v d) = dict_lookup k d.
Proof.
  intros Hne. induction d as [|[k0 v0] d IH]; simpl.
  - by apply String.eqb_neq in Hne as ->.
  - destruct (String.eqb k' k0) eqn:Hk; simpl.
    + apply String.eqb_eq in Hk as <-.
      by apply String.eqb_neq in Hne as ->.
    + by rewrite IH.
Qed.

Lemma dict_lookup_in {A} (k : string) (v : A) d :
  dict_lookup k d = Some v -> In (k, v) d.
Proof.
  induction d as [|[k' v'] d IH]; simpl; [done|].
  destruct (String.eqb k k') eqn:Hk.
  - apply String.eqb_eq in Hk as <-. intros [= ->]. by left.
  - intros H. right. by apply IH.
Qed.

(** ** normalize_category *)

Lemma mapped_is_standard k v :
  In (k, v) CATEGORY_MAPPINGS -> In v standard_categories.
Proof.
  unfold CATEGORY_MAPPINGS, standard_categories. simpl. intros Hin.
  repeat (destruct Hin as [[= <- <-]|Hin]; [tauto|]). done.
Qed.

Lemma normalize_category_standard text :
  In (normalize_category text) standard_categories.
Proof.
  unfold normalize_category.
  destruct (truthy text); [|simpl; tauto].
  change (In (default "Generic Models"
                (dict_lookup (py_lower (py_strip text)) CATEGORY_MAPPINGS))
             standard_categories).
  destruct (dict_lookup (py_lower (py_strip text)) CATEGORY_MAPPINGS)
    as [v|] eqn:Hv; [|simpl; tauto].
  change (In v standard_categories).
  eapply mapped_is_standard, dict_lookup_in, Hv.
Qed.




Lemma normalize_category_blank text :
  py_strip text = EmptyString -> normalize_category text = "Generic Models".
Proof.
  intros Hs. unfold normalize_category.
  destruct (truthy text); [|reflexivity].
  rewrite Hs. reflexivity.
Qed.

Lemma normalize_category_lower text :
  normalize_category (py_lower text) = normalize_category text.
Proof.
  unfold normalize_category.
  by rewrite truthy_lower, py_strip_lower, py_lower_idem.
Qed.

Lemma normalize_category_strip text :
  normalize_category (py_strip text) = normalize_category text.
Proof.
  destruct (py_strip text) as [|c s] eqn:Hs.
  - rewrite (normalize_category_blank text Hs). reflexivity.
  - assert (H1 : truthy (py_strip text) = true) by (by rewrite Hs).
    assert (H2 : truthy text = true).
    { destruct text; [rewrite py_strip_empty in Hs; discriminate|reflexivity]. }
    rewrite <- Hs. unfold normalize_category.
    by rewrite H1, H2, py_strip_idem.
Qed.

(** X19 (templates.py, normalize_category): two texts that differ only in
    letter case, or only in surrounding white space, are normalised to the
    same category. *)
Theorem normalize_category_ignores_case_and_padding a b :
  py_lower a = py_lower b \/ py_strip a = py_strip b ->
  normalize_category a = normalize_category b.
Proof.
  intros [H|H].
  - by rewrite <- (normalize_category_lower a), H, normalize_category_lower.
  - by rewrite <- (normalize_category_strip a), H, normalize_category_strip.
Qed.

Lemma normalize_category_ignores_case_and_padding_witness :
  normalize_category "  Sofa " = normalize_category "Sofa" /\
  normalize_category "HVAC" = normalize_category "hvac".
Proof.
  split.
  - apply normalize_category_ignores_case_and_padding. right. reflexivity.
  - apply normalize_category_ignores_case_and_padding. left. reflexivity.
Defined.


(** ** add_template and get_template *)

Lemma dict_lookup_set {A} (k k' : string) (v : A) d :
  dict_lookup k (dict_set k' v d) =
  if String.eqb k k' then Some v else dict_lookup k d.
Proof.
  destruct (String.eqb_spec k k') as [->|Hne].
  - apply dict_lookup_set_eq.
  - by apply dict_lookup_set_ne.
Qed.

Lemma dict_set_absent {A} (k : string) (v : A) d :
  dict_lookup k d = None -> dict_set k v d = d ++ [(k, v)].
Proof.
  induction d as [|[k' v'] d IH]; simpl; [done|].
  destruct (String.eqb k k'); [done|]. intros H. by rewrite IH.
Qed.

Lemma is_index_key_category_key c : is_index_key (category_key c) = true.
Proof. unfold is_index_key, category_key. simpl. by destruct (py_lower c). Qed.

(** Unfolds [add_template] under a lookup, the index key kept abstract. *)
Ltac open_add_template t key :=
  unfold get_template, add_template, has_key; cbv zeta;
  generalize (category_key (category t)); intros key;
  cbn [templates].

Lemma get_template_add_same t cat :
  get_template (id t) (add_template t cat) = Some t.
Proof.
  open_add_template t key.
  destruct (dict_lookup key (dict_set (id t) t (templates cat))); cbn [negb].
  - apply dict_lookup_set_eq.
  - rewrite dict_lookup_set.
    destruct (String.eqb (id t) key); [done|].
    apply dict_lookup_set_eq.
Qed.

Lemma get_template_add_other t cat k :
  k <> id t -> k <> category_key (category t) ->
  get_template k (add_template t cat) = get_template k cat.
Proof.
  open_add_template t key. intros H1 H2.
  destruct (dict_lookup key (dict_set (id t) t (templates cat))); cbn [negb];
    by rewrite ?(dict_lookup_set_ne k key), ?(dict_lookup_set_ne k (id t)).
Qed.

Lemma get_template_add_index t cat :
  get_template (category_key (category t)) (add_template t cat) =
  if String.eqb (category_key (category t)) (id t) then Some t
  else match get_template (category_key (category t)) cat with
       | Some first => Some first
       | None => Some t
       end.
Proof.
  open_add_template t key.
  rewrite (dict_lookup_set key (id t)).
  destruct (String.eqb key (id t)) eqn:He; cbn [negb].
  - by rewrite dict_lookup_set, He.
  - destruct (dict_lookup key (templates cat)) as [first|] eqn:Hf; cbn [negb].
    + by rewrite dict_lookup_set, He.
    + apply dict_lookup_set_eq.
Qed.

(** X20 (templates.py, add_template and get_template): a template just added
    is found under its id; the entries under every other id are untouched;
    and the index entry of its category keeps the template that was
    registered first for that category, the new one being indexed only when
    the category had none. *)
Theorem add_template_then_get_template t cat :
  get_template (id t) (add_template t cat) = Some t /\
  (forall k, k <> id t -> k <> category_key (category t) ->
     get_template k (add_template t cat) = get_template k cat) /\
  (forall first,
     id t <> category_key (category t) ->
     get_template (category_key (category t)) cat = Some first ->
     get_template (category_key (category t)) (add_template t cat) = Some first) /\
  (get_template (category_key (category t)) cat = None ->
   get_template (category_key (category t)) (add_template t cat) = Some t).
Proof.
  split; [apply get_template_add_same|].
  split; [intros k; apply get_template_add_other|].
  split.
  - intros first Hne Hfirst. rewrite get_template_add_index, Hfirst.
    destruct (String.eqb_spec (category_key (category t)) (id t)); congruence.
  - intros Hnone. rewrite get_template_add_index, Hnone.
    by destruct (String.eqb (category_key (category t)) (id t)).
Qed.

Lemma add_template_then_get_template_witness :
  let chair := template "chair_v2" "Furniture" "" "" 500 500 900 100 10000 in
  let cat := new_catalog "https://example.com/templates" in
  get_template "chair_v2" (add_template chair cat) = Some chair /\
  get_template "lighting_v1" (add_template chair cat) =
    get_template "lighting_v1" cat /\
  id <$> get_template "category:furniture" (add_template chair cat) =
    Some "furniture_v1".
Proof.
  intros chair cat.
  destruct (add_template_then_get_template chair cat) as (H1 & H2 & H3 & _).
  split; [exact H1|]. split.
  - apply H2; vm_compute; discriminate.
  - assert (Hf : get_template (category_key (category chair)) cat =
                 get_template "furniture_v1" cat) by (vm_compute; reflexivity).
    destruct (get_template "furniture_v1" cat) as [first|] eqn:Hfirst;
      [|vm_compute in Hfirst; discriminate].
    change "category:furniture" with (category_key (category chair)).
    rewrite (H3 first); [|vm_compute; discriminate|exact Hf].
    vm_compute in Hfirst. injection Hfirst as <-. reflexivity.
Defined.


(** ** list_templates *)

Lemma list_loop_app cf vf items1 items2 :
  list_loop cf vf (items1 ++ items2) =
  list_loop cf vf items1 ++ list_loop cf vf items2.
Proof.
  induction items1 as [|[tid t] items1 IH]; simpl; [done|].
  rewrite IH. repeat case_match; done.
Qed.

Lemma list_loop_passes cf vf items :
  list_loop cf vf items = List.filter (passes cf vf) (list_loop None None items).
Proof.
  induction items as [|[tid t] items IH]; simpl; [done|].
  destruct (is_index_key tid); [done|]. simpl.
  rewrite IH. unfold passes.
  destruct (given cf) as [c|], (given vf) as [v|]; simpl;
    repeat (destruct (String.eqb _ _); simpl); done.
Qed.

Lemma add_template_listing t cat :
  dict_lookup (id t) (templates cat) = None ->
  is_index_key (id t) = false ->
  list_loop None None (templates (add_template t cat)) =
  list_loop None None (templates cat) ++ [t].
Proof.
  intros Hfresh Hplain.
  pose proof (is_index_key_category_key (category t)) as Hkey.
  revert Hkey. unfold add_template, has_key. cbv zeta.
  generalize (category_key (category t)). intros key Hkey. cbn [templates].
  rewrite (dict_set_absent (id t) t _ Hfresh).
  assert (Hone : list_loop None None [(id t, t)] = [t]).
  { simpl. by rewrite Hplain. }
  destruct (dict_lookup key (templates cat ++ [(id t, t)])) eqn:Hk; cbn [negb].
  - by rewrite list_loop_app, Hone.
  - rewrite (dict_set_absent key t _ Hk), !list_loop_app, Hone.
    simpl. by rewrite Hkey, app_nil_r.
Qed.

Lemma add_template_keys t cat k :
  dict_lookup k (templates (add_template t cat)) <> None ->
  k = id t \/ k = category_key (category t) \/
  dict_lookup k (templates cat) <> None.
Proof.
  unfold add_template, has_key. cbv zeta.
  generalize (category_key (category t)). intros key. cbn [templates].
  destruct (dict_lookup key (dict_set (id t) t (templates cat))); cbn [negb];
    rewrite ?dict_lookup_set;
    destruct (String.eqb_spec k key); destruct (String.eqb_spec k (id t)); tauto.
Qed.

Lemma add_all_listing ts : forall cat done,
  list_loop None None (templates cat) = done ->
  (forall k, dict_lookup k (templates cat) <> None ->
             is_index_key k = true \/ k ∈ id <$> done) ->
  NoDup (id <$> (done ++ ts)) ->
  Forall (fun t => is_index_key (id t) = false) ts ->
  list_loop None None (templates (add_all ts cat)) = done ++ ts.
Proof.
  induction ts as [|t ts IH]; intros cat done Hlist Hkeys Hnd Hplain.
  - simpl. by rewrite app_nil_r.
  - apply Forall_cons in Hplain as [Ht Hts].
    assert (Hfresh : dict_lookup (id t) (templates cat) = None).
    { destruct (dict_lookup (id t) (templates cat)) eqn:E; [|done]. exfalso.
      destruct (Hkeys (id t)) as [Hi|Hin]; [by rewrite E|congruence|].
      rewrite fmap_app in Hnd. apply NoDup_app in Hnd as (_ & Hdis & _).
      apply (Hdis (id t) Hin). simpl. left. }
    change (add_all (t :: ts) cat) with (add_all ts (add_template t cat)).
    change (t :: ts) with ([t] ++ ts). rewrite app_assoc.
    apply IH.
    + rewrite add_template_listing; [by rewrite Hlist|done|done].
    + intros k Hk. apply add_template_keys in Hk as [->|[->|Hk]].
      * right. rewrite fmap_app. apply elem_of_app. right. simpl. left.
      * left. apply is_index_key_category_key.
      * destruct (Hkeys k Hk) as [Hi|Hin]; [by left|right].
        rewrite fmap_app. apply elem_of_app. by left.
    + by rewrite <- app_assoc.
    + done.
Qed.

Lemma list_templates_built base ts cf vf :
  plain_ids ts ->
  list_templates cf vf (add_all ts (empty_catalog base)) =
  List.filter (passes cf vf) ts.
Proof.
  intros [Hnd Hplain]. unfold list_templates.
  rewrite list_loop_passes. f_equal.
  apply (add_all_listing ts (empty_catalog base) []); try done.
Qed.

(** X21 (templates.py, list_templates after add_template): in a catalog
    filled by adding templates with distinct ids, none of which looks like an
    index key, the unfiltered listing is exactly the added templates in the
    order of their addition (the category index entries never show up), and
    a filtered listing is that list restricted to the templates that pass
    both filters. *)
Theorem list_templates_lists_what_was_added base ts cf vf :
  plain_ids ts ->
  list_templates None None (add_all ts (empty_catalog base)) = ts /\
  list_templates cf vf (add_all ts (empty_catalog base)) =
  List.filter (passes cf vf) ts.
Proof.
  intros Hts. split; [|by apply list_templates_built].
  rewrite (list_templates_built base ts None None Hts).
  clear Hts. induction ts as [|t ts IH]; simpl; [done|]. by rewrite IH.
Qed.

Lemma list_templates_lists_what_was_added_witness :
  let chair := template "chair_v2" "Furniture" "" "" 500 500 900 100 10000 in
  let lamp := template "lamp_v2" "Lighting Fixtures" "" "" 300 300 400 100 2000 in
  let stool := template "stool_v2" "Furniture" "" "" 400 400 600 100 10000 in
  let cat := add_all [chair; lamp; stool] (empty_catalog "") in
  list_templates None None cat = [chair; lamp; stool] /\
  list_templates (Some "FURNITURE") (Some "2025") cat = [chair; stool].
Proof.
  intros chair lamp stool cat.
  assert (Hplain : plain_ids [chair; lamp; stool]).
  { split; [|repeat constructor].
    apply (bool_decide_unpack _). vm_compute. exact I. }
  exact (list_templates_lists_what_was_added "" [chair; lamp; stool]
           (Some "FURNITURE") (Some "2025") Hplain).
Defined.


(** ** The default catalog *)

Lemma default_ids_plain base : plain_ids (default_templates base).
Proof.
  split; [|repeat constructor].
  change (NoDup ["generic_model_v1"; "furniture_v1"; "casework_v1";
                 "lighting_v1"; "specialty_equipment_v1"; "plumbing_v1";
                 "electrical_v1"; "mechanical_v1"]).
  apply (bool_decide_unpack _). vm_compute. exact I.
Qed.

Lemma default_versions base :
  Forall (fun t => revit_version t = "2025") (default_templates base).
Proof. repeat constructor. Qed.

Lemma new_catalog_listing base cf vf :
  list_templates cf vf (new_catalog base) =
  List.filter (passes cf vf) (default_templates (py_rstrip_char slash base)).
Proof. apply list_templates_built, default_ids_plain. Qed.

Lemma filter_none {A} (f : A -> bool) l :
  Forall (fun x => f x = false) l -> List.filter f l = [].
Proof. induction 1 as [|x l Hx _ IH]; simpl; [done|]. by rewrite Hx. Qed.

Lemma given_some s : s <> EmptyString -> given (Some s) = Some s.
Proof. by destruct s. Qed.

Lemma get_template_catalog_fresh base v cf :
  (get_template_catalog base v cf None).1 =
  template_dict <$>
    List.filter
      (passes match given cf with
              | Some c => Some (normalize_category c)
              | None => None
              end (Some v))
      (default_templates (py_rstrip_char slash base)).
Proof.
  unfold get_template_catalog, get_catalog. cbn [fst].
  by rewrite new_catalog_listing.
Qed.

(** X22 (tools.py, get_template_catalog on a fresh process, with
    templates.py's default catalog): every default template is for Revit
    2025, so any other version yields no template at all; for version 2025 a
    non-empty category text yields exactly one template, the default one of
    the category the text is normalised to (the generic model for an unknown
    text), and no category yields all eight defaults in their order. *)
Theorem get_template_catalog_of_default_catalog base v cf :
  (v <> "" -> v <> "2025" -> (get_template_catalog base v cf None).1 = []) /\
  (forall text, cf = Some text -> text <> "" ->
     (get_template_catalog base "2025" cf None).1 =
       template_dict <$>
         List.filter (fun t => String.eqb (category t) (normalize_category text))
           (default_templates (py_rstrip_char slash base)) /\
     length (get_template_catalog base "2025" cf None).1 = 1%nat) /\
  (given cf = None ->
     (get_template_catalog base "2025" cf None).1 =
       template_dict <$> default_templates (py_rstrip_char slash base)).
Proof.
  split; [|split].
  - intros Hv Hv'. rewrite get_template_catalog_fresh.
    rewrite filter_none; [done|].
    eapply Forall_impl; [apply default_versions|].
    intros t Ht. unfold passes. rewrite (given_some v Hv), Ht.
    apply String.eqb_neq in Hv'. rewrite String.eqb_sym in Hv'.
    rewrite Hv'. apply andb_false_r.
  - intros text -> Htext. rewrite get_template_catalog_fresh.
    rewrite (given_some text Htext).
    generalize (normalize_category_standard text).
    generalize (normalize_category text). intros c Hc.
    unfold standard_categories in Hc. simpl in Hc.
    repeat (destruct Hc as [<-|Hc]; [split; vm_compute; reflexivity|]).
    done.
  - intros Hcf. rewrite get_template_catalog_fresh, Hcf.
    vm_compute. reflexivity.
Qed.

Lemma get_template_catalog_of_default_catalog_witness :
  (get_template_catalog "https://example.com/t/" "2024" (Some "chair") None).1
    = [] /\
  length (get_template_catalog "https://example.com/t/" "2025"
            (Some " Desk ") None).1 = 1%nat /\
  length (get_template_catalog "https://example.com/t/" "2025" None None).1
    = 8%nat.
Proof.
  split; [|split].
  - apply (get_template_catalog_of_default_catalog
             "https://example.com/t/" "2024" (Some "chair")); discriminate.
  - apply (get_template_catalog_of_default_catalog
             "https://example.com/t/" "2025" (Some " Desk ") ) with " Desk ";
      [reflexivity|discriminate].
  - rewrite (proj2 (proj2 (get_template_catalog_of_default_catalog
               "https://example.com/t/" "2025" None)) eq_refl).
    reflexivity.
Defined.


(** ** get_template_by_category on the default catalog *)

Lemma first_of_category_some c v items t :
  first_of_category c v items = Some t ->
  revit_version t = v /\ exists tid, In (tid, t) items.
Proof.
  induction items as [|[tid tmpl] items IH]; simpl; [done|].
  destruct (negb (is_index_key tid) &&
            String.eqb (py_lower (category tmpl)) (py_lower c) &&
            String.eqb (revit_version tmpl) v) eqn:Hm.
  - intros [= <-]. apply andb_prop in Hm as [_ Hv].
    apply String.eqb_eq in Hv. split; [done|]. exists tid. by left.
  - intros H. destruct (IH H) as [Hv [tid' Hin]].
    split; [done|]. exists tid'. by right.
Qed.

Lemma new_catalog_versions base tid t :
  In (tid, t) (templates (new_catalog base)) -> revit_version t = "2025".
Proof.
  intros Hin.
  assert (Hall : Forall (fun kv => revit_version kv.2 = "2025")
                   (templates (new_catalog base))).
  { set (d := templates (new_catalog base)). vm_compute in d. subst d.
    repeat constructor. }
  rewrite Forall_forall in Hall.
  apply (Hall (tid, t)). by apply list_elem_of_In.
Qed.

Lemma new_catalog_generic base :
  get_template "generic_model_v1" (new_catalog base) =
  Some (template "generic_model_v1" "Generic Models"
          (py_rstrip_char slash base ++ "/" ++ "2025" ++ "/" ++ "Generic_Model.rft")%string
          "Generic parametric model template" 1000 1000 1000 100 10000).
Proof. vm_compute. reflexivity. Qed.

(** X23 (templates.py, get_template_by_category on the default catalog): the
    lookup never answers None; for each of the eight standard categories and
    Revit 2025 it answers a template of that very category; and for any
    other version it answers the generic model, whatever category was asked
    for, a template that is itself for Revit 2025. *)
Theorem get_template_by_category_falls_back base c v :
  get_template_by_category c v (new_catalog base) <> None /\
  (In c standard_categories ->
   category <$> get_template_by_category c "2025" (new_catalog base) = Some c) /\
  (v <> "2025" ->
   get_template_by_category c v (new_catalog base) =
     get_template "generic_model_v1" (new_catalog base) /\
   revit_version <$> get_template_by_category c v (new_catalog base) =
     Some "2025").
Proof.
  split; [|split].
  - unfold get_template_by_category. rewrite new_catalog_generic.
    repeat case_match; done.
  - unfold standard_categories. simpl. intros Hc.
    repeat (destruct Hc as [<-|Hc]; [vm_compute; reflexivity|]). done.
  - intros Hv.
    assert (Hfirst : first_of_category c v (templates (new_catalog base)) = None).
    { destruct (first_of_category c v (templates (new_catalog base)))
        as [t|] eqn:E; [|done].
      apply first_of_category_some in E as [Ht [tid Hin]].
      apply new_catalog_versions in Hin. congruence. }
    assert (Hgo : get_template_by_category c v (new_catalog base) =
                  get_template "generic_model_v1" (new_catalog base)).
    { unfold get_template_by_category. rewrite Hfirst.
      destruct (dict_lookup (category_key c) (templates (new_catalog base)))
        as [t|] eqn:E; [|done].
      apply dict_lookup_in, new_catalog_versions in E. rewrite E.
      apply String.eqb_neq in Hv. rewrite String.eqb_sym in Hv.
      by rewrite Hv. }
    split; [exact Hgo|]. rewrite Hgo, new_catalog_generic. reflexivity.
Qed.

Lemma get_template_by_category_falls_back_witness :
  id <$> get_template_by_category "Casework" "2025" (new_catalog "") =
    Some "casework_v1" /\
  id <$> get_template_by_category "Casework" "2024" (new_catalog "") =
    Some "generic_model_v1".
Proof.
  split; [vm_compute; reflexivity|].
  destruct (get_template_by_category_falls_back "" "Casework" "2024")
    as (_ & _ & H).
  destruct H as [H _]; [discriminate|].
  rewrite H. vm_compute. reflexivity.
Defined.

(** ** The base URL *)

Lemma py_rstrip_char_app ch s :
  py_rstrip_char ch (s ++ String ch EmptyString)%string = py_rstrip_char ch s.
Proof.
  induction s as [|c s IH]; simpl.
  - by rewrite Ascii.eqb_refl.
  - by rewrite IH.
Qed.

Lemma py_rstrip_char_idem ch s :
  py_rstrip_char ch (py_rstrip_char ch s) = py_rstrip_char ch s.
Proof.
  induction s as [|c s IH]; simpl; [done|].
  destruct (py_rstrip_char ch s) as [|c' kept] eqn:Hs.
  - destruct (Ascii.eqb c ch) eqn:Hc; simpl; [done|]. by rewrite Hc.
  - change (py_rstrip_char ch (String c (String c' kept)))
      with (match py_rstrip_char ch (String c' kept) with
            | EmptyString =>
                if Ascii.eqb c ch then EmptyString else String c EmptyString
            | kept' => String c kept'
            end).
    by rewrite IH.
Qed.

Lemma add_all_base_url ts : forall cat, base_url (add_all ts cat) = base_url cat.
Proof.
  induction ts as [|t ts IH]; intros cat; [done|].
  change (add_all (t :: ts) cat) with (add_all ts (add_template t cat)).
  by rewrite IH.
Qed.

(** X24 (templates.py, TemplateCatalog.__init__ and
    _initialize_default_catalog): a trailing slash of the base URL makes no
    difference to the catalog, and the catalog built from its own stored
    base URL is the same catalog, so the template URLs never get a doubled
    slash from the base. *)
Theorem new_catalog_ignores_trailing_slash base :
  new_catalog (base ++ "/")%string = new_catalog base /\
  base_url (new_catalog base) = py_rstrip_char slash base /\
  new_catalog (base_url (new_catalog base)) = new_catalog base.
Proof.
  assert (Hurl : base_url (new_catalog base) = py_rstrip_char slash base).
  { unfold new_catalog. cbv zeta. by rewrite add_all_base_url. }
  split; [|split; [exact Hurl|]].
  - unfold new_catalog. cbv zeta.
    change "/"%string with (String slash EmptyString).
    by rewrite py_rstrip_char_app.
  - rewrite Hurl. unfold new_catalog. cbv zeta.
    by rewrite py_rstrip_char_idem.
Qed.

(** ** get_catalog: the module-level catalog *)

(** X25 (templates.py, get_catalog; tools.py, get_template_catalog): the
    catalog is created by the first call and kept; a later call of
    get_template_catalog with another catalog URL answers from the catalog of
    the first URL and leaves the stored catalog as it is. *)
Theorem get_template_catalog_keeps_first_url first v0 cf0 later v cf :
  let state := (get_template_catalog first v0 cf0 None).2 in
  state = Some (new_catalog first) /\
  get_template_catalog later v cf state = get_template_catalog first v cf None.
Proof.
  split; reflexivity.
Qed.


(** ** list_family_templates: paging *)






End TemplatesFacts.
